(** * FreshGuard brain service: weight state machine and scan pipeline

    A shallow embedding of [app/core/state_machine.py],
    [app/core/orchestrator.py] and the handler of [app/api/routes.py].

    Conventions of the embedding.
    - Python [float] values (grams, confidences, thresholds, pixel
      coordinates) are finite IEEE 754 binary64 numbers, each held as
      the rational [Q] it denotes. Comparison, [abs], [max], [min] and
      [int()] are exact on them. The operations [+], [-], [*], [/],
      the division of two [int]s, the conversion of an [int] and
      [math.fsum] round the exact result to the nearest double, ties to
      even ([round_double]); a float literal is the double nearest to
      the decimal it is written with. The infinities and NaN are not
      represented: a result too large for a double is kept as the
      rounded rational, and [int()] of such a value raises
      [OverflowError] as it does on an infinity.
    - A [datetime] is an instant, an integer number of microseconds
      ([Z]), the resolution of Python's [datetime];
      [timedelta(milliseconds=n)] is [1000 * n] microseconds. Whether a
      [datetime] carries a UTC offset is not represented.
    - [dict[str, float]] is a [gmap string Q].
    - Mutable objects are passed explicitly: [process] takes the machine
      and returns the updated machine next to the decision.
    - The coroutines of the orchestrator live in a writer-and-exception
      monad [M]: a computation yields the events it caused (log records
      and requests to the service clients) and a value or an exception.
      [await f(...)] is sequential composition: the caller goes on when
      [f] has returned. The two uses of [asyncio.gather] are the
      combinators [gather_return_exceptions] and [gather].
    - The service clients, the image library, the clock and [uuid4] are
      the fields of a [World]; a client method is a function from the
      request to its validated answer or the exception it raises. The
      logging done inside the clients is not part of the events. *)

From Stdlib Require Import QArith Qabs Qround Qpower ZArith List Sorted Lia Lqa.
From Stdlib Require Import SpecFloat.
From stdpp Require Import base list strings pretty gmap.

Local Open Scope Z_scope.

(** ** Rational comparisons, as booleans *)

Definition Qge_bool (x y : Q) : bool := Qle_bool y x.
Definition Qlt_bool (x y : Q) : bool := negb (Qle_bool y x).
Definition Qgt_bool (x y : Q) : bool := negb (Qle_bool x y).

(** ** Python floats

    A double is [m * 2^e] with [|m| < 2^53] and [e >= -1074] (the
    exponent range is left open above). [round_double] maps a rational
    to the nearest such number, ties to the even [m], as IEEE 754
    prescribes for every arithmetic operation. *)

Definition pow2 (e : Z) : Q := (2 ^ e)%Q.

(** The exponent [b] with [2^b <= q < 2^(b+1)], for [q > 0]. *)
Definition binade (q : Q) : Z :=
  let a := Z.log2 (Qnum q) in
  let b := Z.log2 (Z.pos (Qden q)) in
  if Qle_bool (pow2 (a - b)) q then a - b else a - b - 1.

(** The exponent of the last place of the doubles around [q]: 53
    significant bits, never below the subnormal exponent. *)
Definition quantum (q : Q) : Z := Z.max (-1074) (binade q - 52).

(** The nearest integer, ties to even. *)
Definition round_half_even (x : Q) : Z :=
  let f := Qfloor x in
  match (x - inject_Z f ?= 1 # 2)%Q with
  | Lt => f
  | Gt => f + 1
  | Eq => if Z.even f then f else f + 1
  end.

Definition round_positive (q : Q) : Q :=
  let e := quantum q in
  (inject_Z (round_half_even (q / pow2 e)) * pow2 e)%Q.

(** The nearest double, as a fraction in lowest terms. *)
Definition round_double (q : Q) : Q :=
  match Qnum q with
  | 0 => 0%Q
  | Z.pos _ => Qred (round_positive q)
  | Z.neg _ => Qred (- round_positive (- q))
  end.

(** A float literal such as [0.55]. *)
Definition float_literal (decimal : Q) : Q := round_double decimal.

(** [float(n)], the conversion applied to an [int] operand. *)
Definition float_of_int (n : Z) : Q := round_double (inject_Z n).

Definition fadd (a b : Q) : Q := round_double (a + b).
Definition fsub (a b : Q) : Q := round_double (a - b).
Definition fmul (a b : Q) : Q := round_double (a * b).
Definition fdiv (a b : Q) : Q := round_double (a / b).

(** [a / b] on two [int]s: the quotient, correctly rounded. *)
Definition int_truediv (a b : Z) : Q := round_double (inject_Z a / inject_Z b).

(** [math.fsum]: the exact sum, rounded once. *)
Definition fsum (ws : list Q) : Q := round_double (fold_right Qplus 0%Q ws).

(** The doubles end just below [2^1024]; what rounds to [2^1024] or
    beyond is an infinity in Python. *)
Definition is_infinite (x : Q) : bool := Qge_bool (Qabs x) (pow2 1024).

(** The same numbers in the representation of the Standard Library's
    [SpecFloat], whose operations specify IEEE 754 arithmetic; binary64
    is [prec = 53], [emax = 1024]. They serve to run both formulations
    side by side on examples. *)
Definition SF_of_int (n : Z) : spec_float := binary_normalize 53 1024 n 0 false.

(** The double written as the decimal [n / d], for integers that are
    themselves doubles. *)
Definition SF_of_decimal (n d : Z) : spec_float :=
  SFdiv 53 1024 (SF_of_int n) (SF_of_int d).

(** The rational a finite [spec_float] denotes, in lowest terms. *)
Definition Q_of_SF (x : spec_float) : option Q :=
  match x with
  | S754_zero _ => Some 0%Q
  | S754_finite s m e =>
      Some (Qred (inject_Z (if s then Z.neg m else Z.pos m) * pow2 e))
  | _ => None
  end.

Arguments round_double : simpl never.
Arguments float_literal : simpl never.
Arguments float_of_int : simpl never.
Arguments fadd : simpl never.
Arguments fsub : simpl never.
Arguments fmul : simpl never.
Arguments fdiv : simpl never.
Arguments int_truediv : simpl never.
Arguments fsum : simpl never.
Arguments is_infinite : simpl never.

(** ** Data model ([app/models/common.py]) *)

Inductive ScanState := IDLE | ACTIVE.

Inductive Transition := IDLE_to_ACTIVE | ACTIVE_to_IDLE | NONE.

Record WeightReading := {
  grams : Q;
  timestamp : Z  (* microseconds *)
}.

Record ScanDecision := {
  d_state : ScanState;
  scan_requested : bool;
  transition : Transition
}.

(** ** Configuration ([app/config.py]) *)

Record Settings := {
  enable_main_server_publish : bool;
  min_fruit_weight : Q;
  significant_delta : Q;
  weight_noise_epsilon : Q;
  stable_window_ms : Z;
  min_scan_interval_ms : Z;
  fruit_detector_primary_imgsz : Z;
  fruit_detector_fallback_imgsz : Z;
  fruit_detector_confidence_guard : Q;
  fruit_detector_min_bbox_area_ratio : Q;
  fruit_expected_weight_per_fruit : Q;
  fruit_class_thresholds : gmap string Q;
  log_discarded_detections_detail : bool
}.

(** The field defaults of [Settings]. *)
Definition default_settings : Settings := {|
  enable_main_server_publish := false;
  min_fruit_weight := 30;
  significant_delta := 20;
  weight_noise_epsilon := 5;
  stable_window_ms := 400;
  min_scan_interval_ms := 2000;
  fruit_detector_primary_imgsz := 320;
  fruit_detector_fallback_imgsz := 416;
  fruit_detector_confidence_guard := float_literal (30 # 100);
  fruit_detector_min_bbox_area_ratio := float_literal (1 # 1000);
  fruit_expected_weight_per_fruit := 100;
  fruit_class_thresholds :=
    <["apple" := float_literal (55 # 100)]>
      (<["banana" := float_literal (40 # 100)]>
         (<["tomato" := float_literal (60 # 100)]> ∅));
  log_discarded_detections_detail := false
|}.

(** The [ge]/[le]/[gt] constraints pydantic enforces on [Settings]. *)
Record Settings_valid (cfg : Settings) : Prop := {
  guard_ge : (0 <= fruit_detector_confidence_guard cfg)%Q;
  guard_le : (fruit_detector_confidence_guard cfg <= 1)%Q;
  ratio_ge : (0 <= fruit_detector_min_bbox_area_ratio cfg)%Q;
  ratio_le : (fruit_detector_min_bbox_area_ratio cfg <= 1)%Q;
  per_fruit_gt : (0 < fruit_expected_weight_per_fruit cfg)%Q
}.

(** ** Weight state machine ([app/core/state_machine.py]) *)

Record WeightStateMachine := {
  state : ScanState;
  _history : list WeightReading;      (* the deque, front first *)
  _last_scan_at : option Z;
  _last_scan_weight : Q
}.

(** [WeightStateMachine.__init__] *)
Definition init_machine : WeightStateMachine := {|
  state := IDLE;
  _history := [];
  _last_scan_at := None;
  _last_scan_weight := 0
|}.

Definition set_history (m : WeightStateMachine) (h : list WeightReading) :=
  {| state := state m; _history := h;
     _last_scan_at := _last_scan_at m; _last_scan_weight := _last_scan_weight m |}.

Definition set_state (m : WeightStateMachine) (s : ScanState) :=
  {| state := s; _history := _history m;
     _last_scan_at := _last_scan_at m; _last_scan_weight := _last_scan_weight m |}.

Definition set_last_scan (m : WeightStateMachine) (now : Z) (w : Q) :=
  {| state := state m; _history := _history m;
     _last_scan_at := Some now; _last_scan_weight := w |}.

(** [timedelta.total_seconds()] of a difference of [d] microseconds:
    the division of the two integers [d] and [10**6]. *)
Definition total_seconds (d : Z) : Q := int_truediv d 1000000.

(** Python's [max] and [min] over a list of floats ([default] is never
    used by the caller, which checks the length first). *)
Definition Qmax2 (a b : Q) : Q := if Qgt_bool b a then b else a.
Definition Qmin2 (a b : Q) : Q := if Qlt_bool b a then b else a.

Definition max_list (ws : list Q) : Q :=
  match ws with
  | [] => 0%Q
  | w :: rest => fold_left Qmax2 rest w
  end.

Definition min_list (ws : list Q) : Q :=
  match ws with
  | [] => 0%Q
  | w :: rest => fold_left Qmin2 rest w
  end.

(** [statistics.fmean]: [fsum(data) / n] with [n = len(data)]. *)
Definition fmean (ws : list Q) : Q :=
  fdiv (fsum ws) (float_of_int (Z.of_nat (length ws))).

Section StateMachine.
Variable cfg : Settings.

(** [_prune_history]: pop from the left while the front is older than
    the window. *)
Fixpoint _prune_history (h : list WeightReading) (now : Z) : list WeightReading :=
  match h with
  | [] => []
  | front :: rest =>
      if 1000 * stable_window_ms cfg <? now - timestamp front
      then _prune_history rest now
      else h
  end.

Definition _stable_weight (m : WeightStateMachine) : option Q :=
  if (length (_history m) <? 2)%nat then None
  else
    let weights := map grams (_history m) in
    if Qgt_bool (fsub (max_list weights) (min_list weights))
                (weight_noise_epsilon cfg)
    then None
    else Some (fmean weights).

Definition _significant_delta (m : WeightStateMachine) (weight : Q) : bool :=
  Qge_bool (Qabs (fsub weight (_last_scan_weight m))) (significant_delta cfg).

Definition _scan_interval_respected (m : WeightStateMachine) (now : Z) : bool :=
  match _last_scan_at m with
  | None => true
  | Some last =>
      let elapsed := fmul (total_seconds (now - last)) (float_of_int 1000) in
      Qge_bool elapsed (inject_Z (min_scan_interval_ms cfg))
  end.

Definition _mark_scan_if_allowed (m : WeightStateMachine) (weight : Q) (now : Z)
  : WeightStateMachine * bool :=
  if _scan_interval_respected m now
  then (set_last_scan m now weight, true)
  else (m, false).

Definition process (m : WeightStateMachine) (reading : WeightReading)
  : WeightStateMachine * ScanDecision :=
  let m := set_history m
             (_prune_history (_history m ++ [reading]) (timestamp reading)) in
  match _stable_weight m with
  | None =>
      (m, {| d_state := state m; scan_requested := false; transition := NONE |})
  | Some stable_weight =>
      match state m with
      | IDLE =>
          if Qge_bool stable_weight (min_fruit_weight cfg) then
            let m := set_state m ACTIVE in
            let '(m, scan) :=
              _mark_scan_if_allowed m stable_weight (timestamp reading) in
            (m, {| d_state := state m; scan_requested := scan;
                   transition := IDLE_to_ACTIVE |})
          else
            (m, {| d_state := state m; scan_requested := false;
                   transition := NONE |})
      | ACTIVE =>
          if Qlt_bool stable_weight (min_fruit_weight cfg) then
            let m := set_state m IDLE in
            (m, {| d_state := state m; scan_requested := false;
                   transition := ACTIVE_to_IDLE |})
          else if _significant_delta m stable_weight
                  && _scan_interval_respected m (timestamp reading) then
            let m := set_last_scan m (timestamp reading) stable_weight in
            (m, {| d_state := state m; scan_requested := true;
                   transition := NONE |})
          else
            (m, {| d_state := state m; scan_requested := false;
                   transition := NONE |})
      end
  end.

(** Feeding a sequence of readings to one machine, as the poll loop
    does: the machine after the last reading, and the decisions. *)
Fixpoint run (m : WeightStateMachine) (readings : list WeightReading)
  : WeightStateMachine * list ScanDecision :=
  match readings with
  | [] => (m, [])
  | r :: rest =>
      let '(m1, d) := process m r in
      let '(m2, ds) := run m1 rest in
      (m2, d :: ds)
  end.

Definition decisions (readings : list WeightReading) : list ScanDecision :=
  snd (run init_machine readings).

(** The machine as it stands before the reading of index [k] is fed. *)
Definition machine_before (readings : list WeightReading) (k : nat)
  : WeightStateMachine :=
  fst (run init_machine (take k readings)).

End StateMachine.

(** A reading of [g] grams at [t] milliseconds. *)
Definition reading_ms (g : Q) (t : Z) : WeightReading :=
  {| grams := g; timestamp := 1000 * t |}.

(** A minimum scan interval below [2^33] seconds (about 272 years), in
    either direction: up to there the elapsed time computed in doubles
    is within a microsecond's worth of the exact one. *)
Definition interval_in_range (cfg : Settings) : Prop :=
  - (1000 * 2 ^ 33) < min_scan_interval_ms cfg <= 1000 * 2 ^ 33.


(** ** Detection and result models ([app/models/common.py]) *)

Definition bytes := list Byte.byte.

Record BoundingBox := {
  x_min : Q; y_min : Q; x_max : Q; y_max : Q
}.

(** Python's [int(x)] on a float: truncation toward zero. *)
Definition int_of_float (x : Q) : Z := Z.quot (Qnum x) (Z.pos (Qden x)).

(** [BoundingBox.as_tuple] *)
Definition as_tuple (b : BoundingBox) : Z * Z * Z * Z :=
  (int_of_float (x_min b), int_of_float (y_min b),
   int_of_float (x_max b), int_of_float (y_max b)).

Record DefectInfo := {
  defect_type : string;
  defect_confidence : Q;
  segmentation : option (list (Q * Q))
}.

Record FruitDetection := {
  fruit_id : string;
  fruit_class : string;
  confidence : Q;
  bbox : BoundingBox
}.

Record FruitDetections := {
  fds_image_id : string;
  fruits : list FruitDetection
}.

Record DefectDetectionResult := {
  ddr_image_id : string;
  ddr_fruit_id : string;
  defects : list DefectInfo
}.

Record FruitSummary := {
  fs_fruit_id : string;
  fs_fruit_class : string;
  fs_confidence : Q;
  fs_bbox : BoundingBox;
  fs_defects : list DefectInfo
}.

Record ScanResult := {
  session_id : string;
  sr_image_id : string;
  sr_timestamp : Z;
  weight_grams : Q;
  sr_fruits : list FruitSummary
}.

Record CameraCaptureResponse := {
  image_id : string;
  image_url : option string;
  image_path : option string;
  cap_timestamp : Z
}.

(** [ManualScanRequest] of [app/api/routes.py]; pydantic accepts a body
    only when [weight_grams > 0] (FastAPI answers any other body with
    422 and does not call the handler). *)
Record ManualScanRequest := { req_weight_grams : Q }.

Definition ManualScanRequest_valid (p : ManualScanRequest) : Prop :=
  (0 < req_weight_grams p)%Q.

(** ** Exceptions, events and the pipeline monad *)

(** The subclasses of [Exception] the pipeline can meet. *)
Inductive exn :=
| ServiceError (msg : string)
| ValueError (msg : string)
| OverflowError (msg : string)
| OtherException (msg : string).

Inductive result (A : Type) :=
| Ok (a : A)
| Raise (e : exn).
Arguments Ok {A} a.
Arguments Raise {A} e.

(** What pydantic reports when a value does not validate. *)
Definition validation_error : exn := OtherException "ValidationError".

(** [WeightReading(grams=..., timestamp=...)]: the constructor validates
    [grams >= 0]. *)
Definition WeightReading_init (g : Q) (t : Z) : result WeightReading :=
  if Qge_bool g 0 then Ok {| grams := g; timestamp := t |}
  else Raise validation_error.

(** [int(x)] where [x] may have overflowed. *)
Definition int_checked (x : Q) : result Z :=
  if is_infinite x
  then Raise (OverflowError "cannot convert float infinity to integer")
  else Ok (int_of_float x).

Inductive FallbackReason :=
| weight_indicates_fruit_but_no_detections
| all_detections_below_confidence_guard
| expected_more_fruits_by_weight.

Inductive log_level := DEBUG | INFO | WARNING | ERROR.

(** One constructor per logging call of the orchestrator, with the
    arguments of its format string. *)
Inductive log_record :=
| StartingScan (session : string) (weight : Q)
| TriggeringFallback (image : string) (reason : FallbackReason)
| NoFruitsAfterFallback (image : string) (weight : Q) (session : string)
| MainPublishDisabled (session : string)
| FinishedScan (session : string) (n_fruits : nat)
| ScanFailed (session : string) (exc : exn)
| DefectAnalysisFailed (fruit : string) (exc : exn)
| DefectTaskFailed (exc : exn)
| DroppedLowConfidence (image fruit cls : string) (conf threshold : Q)
| ClassThresholdFiltering (passed total : nat) (image : string)
| DroppedSmallBbox (image fruit cls : string) (area area_ratio min_ratio : Q)
| BboxAreaFiltering (passed total : nat) (image : string)
| FruitCountMismatch (image : string) (weight : Q) (expected : Z) (actual : nat).

(** What a run of the pipeline does to the outside: log records and
    requests sent to the service clients. *)
Inductive event :=
| Log (level : log_level) (record : log_record)
| CameraCapture (resolution : string)
| CameraFetch (path : string)
| OpenImage
| FruitDetect (image : string) (imgsz : Z)
| Crop (box : Z * Z * Z * Z)
| DefectDetect (image fruit filename : string)
| PublishUI (r : ScanResult)
| PublishMain (r : ScanResult).

(** A computation: the events it produced, in order, and either its
    value or the exception it raised. *)
Definition M (A : Type) : Type := list event * result A.

Definition ret {A} (a : A) : M A := ([], Ok a).

Definition bind {A B} (m : M A) (k : A -> M B) : M B :=
  match m with
  | (tr, Ok a) => let '(tr', r) := k a in (tr ++ tr', r)
  | (tr, Raise e) => (tr, Raise e)
  end.

(** [try: body  except Exception as exc: handler(exc)] *)
Definition try_except {A} (body : M A) (handler : exn -> M A) : M A :=
  match body with
  | (tr, Ok a) => (tr, Ok a)
  | (tr, Raise e) => let '(tr', r) := handler e in (tr ++ tr', r)
  end.

Definition emit (e : event) : M unit := ([e], Ok tt).

Definition log (level : log_level) (record : log_record) : M unit :=
  emit (Log level record).

(** A request to a client: the request is recorded, the client's answer
    is the value or the exception. *)
Definition call {A} (e : event) (answer : result A) : M A := ([e], answer).

Definition lift {A} (r : result A) : M A := ([], r).

Declare Scope pipeline_scope.
Delimit Scope pipeline_scope with pipeline.
Notation "'let*' x ':=' m 'in' k" := (bind m (fun x => k))
  (at level 10, x pattern, m at level 100, k at level 200) : pipeline_scope.
Notation "m ';;' k" := (bind m (fun _ => k))
  (at level 100, k at level 200, right associativity) : pipeline_scope.

Definition trace_of {A} (m : M A) : list event := fst m.
Definition outcome_of {A} (m : M A) : result A := snd m.

(** [asyncio.gather] with [return_exceptions=True]: every task runs;
    the outcomes come back in the order of the tasks, an exception as a
    value. The events of the tasks are listed task by task (their
    interleaving is not modelled). *)
Fixpoint gather_return_exceptions {A} (tasks : list (M A)) : M (list (result A)) :=
  match tasks with
  | [] => ret []
  | (tr, r) :: rest =>
      let '(tr', rs) := gather_return_exceptions rest in
      (tr ++ tr', match rs with
                  | Ok rs => Ok (r :: rs)
                  | Raise e => Raise e
                  end)
  end.

(** The failure of the first task, in task order, that raised. *)
Fixpoint earliest_failure {A} (outcomes : list (result A)) : option exn :=
  match outcomes with
  | [] => None
  | Raise e :: _ => Some e
  | Ok _ :: rest => earliest_failure rest
  end.

(** The exception [asyncio.gather] propagates: that of the failing task
    that settles first. [order] lists task indices in the order in which
    they settle; indices it does not list settle afterwards, in task
    order. *)
Fixpoint first_failure {A} (outcomes : list (result A)) (order : list nat)
  : option exn :=
  match order with
  | [] => earliest_failure outcomes
  | i :: order' =>
      match outcomes !! i with
      | Some (Raise e) => Some e
      | _ => first_failure outcomes order'
      end
  end.

Fixpoint values_of {A} (outcomes : list (result A)) : list A :=
  match outcomes with
  | [] => []
  | Ok a :: rest => a :: values_of rest
  | Raise _ :: rest => values_of rest
  end.

(** [asyncio.gather] in its default mode: every task is started; the
    first exception is propagated to the awaiting coroutine while the
    other tasks keep running; without exception the values come back in
    task order. *)
Definition gather {A} (order : list nat) (tasks : list (M A)) : M (list A) :=
  let trace := concat (map trace_of tasks) in
  let outcomes := map outcome_of tasks in
  match first_failure outcomes order with
  | Some e => (trace, Raise e)
  | None => (trace, Ok (values_of outcomes))
  end.

(** ** The outside world

    The remote services, the image library, the clock and the uuid
    source, as functions of the request. A client call either returns
    its validated value or raises. *)
Record World := {
  uuid4 : string;
  utcnow : Z;                       (* [datetime.utcnow()] in the handler *)
  now_utc : Z;                      (* [datetime.now(timezone.utc)] in the scan *)
  capture_image : string -> result CameraCaptureResponse;
  fetch_image_binary : string -> result bytes;
  image_open : bytes -> result (Z * Z);          (* PIL open; (width, height) *)
  image_crop : bytes -> Z * Z * Z * Z -> result bytes;
  fruit_detect : string -> bytes -> Z -> result FruitDetections;
  defect_detect : string -> string -> bytes -> string -> result DefectDetectionResult;
  ui_publish : ScanResult -> result unit;
  main_publish : ScanResult -> result unit;
  publish_settle_order : list nat   (* which publish task settles first *)
}.

(** [ImageCropper] ([app/core/image_ops.py]): the decoded image and its
    size. *)
Record ImageCropper := {
  cropper_image : bytes;
  size : Z * Z
}.

(** [CameraCaptureResponse.resolved_path]; an empty string is falsy. *)
Definition truthy (s : option string) : option string :=
  match s with
  | Some EmptyString => None
  | other => other
  end.

Definition resolved_path (c : CameraCaptureResponse) : result string :=
  match truthy (image_path c) with
  | Some p => Ok p
  | None =>
      match truthy (image_url c) with
      | Some u => Ok u
      | None => Raise (ValueError "Camera did not provide image location")
      end
  end.

(** ** Orchestrator ([app/core/orchestrator.py]) *)

Section Orchestrator.
Variable settings : Settings.
Variable world : World.

Local Open Scope pipeline_scope.

(** [ImageCropper(image_bytes)] *)
Definition ImageCropper_init (image_bytes : bytes) : M ImageCropper :=
  let* sz := call OpenImage (image_open world image_bytes) in
  ret {| cropper_image := image_bytes; size := sz |}.

(** [cropper.crop(bbox)], run through [asyncio.to_thread] *)
Definition crop (cropper : ImageCropper) (b : BoundingBox) : M bytes :=
  call (Crop (as_tuple b)) (image_crop world (cropper_image cropper) (as_tuple b)).

(** The [for] loop of [_filter_detections_by_class_threshold];
    [valid_detections] is the list being appended to. *)
Fixpoint class_threshold_loop (image : string) (detections : list FruitDetection)
    (valid_detections : list FruitDetection) : M (list FruitDetection) :=
  match detections with
  | [] => ret valid_detections
  | detection :: rest =>
      let class_name := fruit_class detection in
      let threshold :=
        default (fruit_detector_confidence_guard settings)
                (fruit_class_thresholds settings !! class_name) in
      if Qge_bool (confidence detection) threshold then
        class_threshold_loop image rest (valid_detections ++ [detection])
      else if log_discarded_detections_detail settings then
        log INFO (DroppedLowConfidence image (fruit_id detection) class_name
                    (confidence detection) threshold) ;;
        class_threshold_loop image rest valid_detections
      else
        class_threshold_loop image rest valid_detections
  end.

Definition _filter_detections_by_class_threshold
    (detections : list FruitDetection) (image : string) : M (list FruitDetection) :=
  match detections with
  | [] => ret []
  | _ =>
      let* valid_detections := class_threshold_loop image detections [] in
      log DEBUG (ClassThresholdFiltering (length valid_detections)
                   (length detections) image) ;;
      ret valid_detections
  end.

(** The [for] loop of [_filter_detections_by_bbox_area]. *)
Fixpoint bbox_area_loop (image : string) (image_area : Z) (min_area : Q)
    (detections : list FruitDetection)
    (valid_detections : list FruitDetection) : M (list FruitDetection) :=
  match detections with
  | [] => ret valid_detections
  | detection :: rest =>
      let b := bbox detection in
      let bbox_width := fsub (x_max b) (x_min b) in
      let bbox_height := fsub (y_max b) (y_min b) in
      let bbox_area := fmul bbox_width bbox_height in
      let area_ratio :=
        if 0 <? image_area then fdiv bbox_area (float_of_int image_area) else 0%Q in
      if Qge_bool bbox_area min_area then
        bbox_area_loop image image_area min_area rest (valid_detections ++ [detection])
      else if log_discarded_detections_detail settings then
        log INFO (DroppedSmallBbox image (fruit_id detection) (fruit_class detection)
                    bbox_area area_ratio
                    (fruit_detector_min_bbox_area_ratio settings)) ;;
        bbox_area_loop image image_area min_area rest valid_detections
      else
        bbox_area_loop image image_area min_area rest valid_detections
  end.

Definition _filter_detections_by_bbox_area
    (detections : list FruitDetection) (image_area : Z) (image : string)
  : M (list FruitDetection) :=
  match detections with
  | [] => ret []
  | _ =>
      let min_area_ratio := fruit_detector_min_bbox_area_ratio settings in
      let min_area := fmul (float_of_int image_area) min_area_ratio in
      let* valid_detections :=
        bbox_area_loop image image_area min_area detections [] in
      log DEBUG (BboxAreaFiltering (length valid_detections)
                   (length detections) image) ;;
      ret valid_detections
  end.

(** [_should_fallback]; [None] is Python's [None]. *)
Definition _should_fallback (detections raw_detections : list FruitDetection)
    (weight : Q) (image : string) : M (option FallbackReason) :=
  let min_weight := min_fruit_weight settings in
  let confidence_guard := fruit_detector_confidence_guard settings in
  let expected_weight_per_fruit := fruit_expected_weight_per_fruit settings in
  if Qge_bool weight min_weight && bool_decide (detections = []) then
    ret (Some weight_indicates_fruit_but_no_detections)
  else if negb (bool_decide (raw_detections = []))
          && forallb (fun d => Qlt_bool (confidence d) confidence_guard)
                     raw_detections then
    ret (Some all_detections_below_confidence_guard)
  else if Qge_bool weight min_weight && Qgt_bool expected_weight_per_fruit 0 then
    let* expected_count := lift (int_checked (fdiv weight expected_weight_per_fruit)) in
    let actual_count := length detections in
    if (2 <=? expected_count) && (Z.of_nat actual_count <? expected_count - 1) then
      log DEBUG (FruitCountMismatch image weight expected_count actual_count) ;;
      ret (Some expected_more_fruits_by_weight)
    else ret None
  else ret None.

(** The task body [analyze_detection] of [_analyze_fruits]: the crop is
    computed before the [try]; only the defect-detector call is inside
    it. *)
Definition analyze_detection (image : string) (cropper : ImageCropper)
    (detection : FruitDetection) : M FruitSummary :=
  let* crop_bytes := crop cropper (bbox detection) in
  let* found :=
    try_except
      (let filename := (fruit_id detection ++ ".jpg")%string in
       let* defect_result :=
         call (DefectDetect image (fruit_id detection) filename)
              (defect_detect world image (fruit_id detection) crop_bytes filename) in
       ret (defects defect_result))
      (fun exc =>
         log ERROR (DefectAnalysisFailed (fruit_id detection) exc) ;;
         ret [])
  in
  ret {| fs_fruit_id := fruit_id detection;
         fs_fruit_class := fruit_class detection;
         fs_confidence := confidence detection;
         fs_bbox := bbox detection;
         fs_defects := found |}.

(** The loop over [finished]: an exception is logged and skipped, a
    summary is appended. *)
Fixpoint collect_summaries (finished : list (result FruitSummary))
    (fruit_summaries : list FruitSummary) : M (list FruitSummary) :=
  match finished with
  | [] => ret fruit_summaries
  | Raise item :: rest =>
      log ERROR (DefectTaskFailed item) ;;
      collect_summaries rest fruit_summaries
  | Ok item :: rest =>
      collect_summaries rest (fruit_summaries ++ [item])
  end.

Definition _analyze_fruits (image_bytes : bytes) (detections : list FruitDetection)
    (image : string) (cropper : option ImageCropper) : M (list FruitSummary) :=
  match detections with
  | [] => ret []
  | _ =>
      let* cropper :=
        match cropper with
        | None => ImageCropper_init image_bytes
        | Some c => ret c
        end in
      let tasks := map (analyze_detection image cropper) detections in
      let* finished := gather_return_exceptions tasks in
      collect_summaries finished []
  end.

(** [UIServiceClient.publish] and [MainServerClient.publish] *)
Definition ui_client_publish (r : ScanResult) : M unit :=
  call (PublishUI r) (ui_publish world r).

Definition main_server_client_publish (r : ScanResult) : M unit :=
  call (PublishMain r) (main_publish world r).

(** The body of the [try] block of [execute_scan]. *)
Definition scan_body (session : string) (reading : WeightReading) : M unit :=
  let primary_imgsz := fruit_detector_primary_imgsz settings in
  let resolution := (pretty primary_imgsz ++ "x" ++ pretty primary_imgsz)%string in
  let* capture := call (CameraCapture resolution) (capture_image world resolution) in
  let* path := lift (resolved_path capture) in
  let* image_bytes := call (CameraFetch path) (fetch_image_binary world path) in
  let* cropper := ImageCropper_init image_bytes in
  let '(image_width, image_height) := size cropper in
  let image_area := image_width * image_height in
  let* detections_response :=
    call (FruitDetect (image_id capture) primary_imgsz)
         (fruit_detect world (image_id capture) image_bytes primary_imgsz) in
  let raw_detections := fruits detections_response in
  let* detections_after_bbox_filter :=
    _filter_detections_by_bbox_area raw_detections image_area (image_id capture) in
  let* filtered_detections :=
    _filter_detections_by_class_threshold detections_after_bbox_filter
      (image_id capture) in
  let* fallback_reason :=
    _should_fallback filtered_detections raw_detections (grams reading)
      (image_id capture) in
  let* filtered_detections :=
    match fallback_reason with
    | Some reason =>
        log INFO (TriggeringFallback (image_id capture) reason) ;;
        let fallback_imgsz := fruit_detector_fallback_imgsz settings in
        let* fallback_response :=
          call (FruitDetect (image_id capture) fallback_imgsz)
               (fruit_detect world (image_id capture) image_bytes fallback_imgsz) in
        let raw_detections_fallback := fruits fallback_response in
        let* detections_after_bbox_filter :=
          _filter_detections_by_bbox_area raw_detections_fallback image_area
            (image_id capture) in
        let* filtered_detections :=
          _filter_detections_by_class_threshold detections_after_bbox_filter
            (image_id capture) in
        match filtered_detections with
        | [] =>
            log WARNING (NoFruitsAfterFallback (image_id capture) (grams reading)
                           session) ;;
            ret filtered_detections
        | _ => ret filtered_detections
        end
    | None => ret filtered_detections
    end in
  let* fruits :=
    _analyze_fruits image_bytes filtered_detections (image_id capture)
      (Some cropper) in
  let result := {| session_id := session;
                   sr_image_id := image_id capture;
                   sr_timestamp := now_utc world;
                   weight_grams := grams reading;
                   sr_fruits := fruits |} in
  let* publish_tasks :=
    if enable_main_server_publish settings then
      ret [ui_client_publish result; main_server_client_publish result]
    else
      log DEBUG (MainPublishDisabled session) ;;
      ret [ui_client_publish result] in
  gather (publish_settle_order world) publish_tasks ;;
  log INFO (FinishedScan session (length fruits)).

Definition execute_scan (reading : WeightReading) : M unit :=
  let session := uuid4 world in
  log INFO (StartingScan session (grams reading)) ;;
  try_except (scan_body session reading)
             (fun exc => log ERROR (ScanFailed session exc)).

(** ** The handler of [POST /trigger-scan] ([app/api/routes.py])

    The handler is called with a validated [ManualScanRequest]; it
    builds the reading, awaits [orchestrator.execute_scan(reading)] and
    then gives the response. *)
Definition trigger_scan (payload : ManualScanRequest) : M (gmap string string) :=
  let* reading :=
    lift (WeightReading_init (req_weight_grams payload) (utcnow world)) in
  execute_scan reading ;;
  ret {[ "status" := "accepted" ]}.

End Orchestrator.

(** ** Scenarios of the state machine *)

(** The stable weight computed by the step that processes [reading]. *)
Definition stable_weight_of (cfg : Settings) (m : WeightStateMachine)
    (reading : WeightReading) : option Q :=
  _stable_weight cfg
    (set_history m (_prune_history cfg (_history m ++ [reading]) (timestamp reading))).

Definition no_decision (s : ScanState) : ScanDecision :=
  {| d_state := s; scan_requested := false; transition := NONE |}.

Definition cold_start_readings : list WeightReading :=
  [reading_ms 0 0; reading_ms 35 200; reading_ms 35 300].

(** Fruit placed and scanned, removed, and placed again within the
    minimum scan interval. *)
Definition quick_replacement_readings : list WeightReading :=
  [reading_ms 35 0; reading_ms 35 100; reading_ms 0 600; reading_ms 0 700;
   reading_ms 50 1200; reading_ms 50 1300].

(** The default settings with another minimum scan interval. *)
Definition with_min_scan_interval (ms : Z) : Settings :=
  {| enable_main_server_publish := enable_main_server_publish default_settings;
     min_fruit_weight := min_fruit_weight default_settings;
     significant_delta := significant_delta default_settings;
     weight_noise_epsilon := weight_noise_epsilon default_settings;
     stable_window_ms := stable_window_ms default_settings;
     min_scan_interval_ms := ms;
     fruit_detector_primary_imgsz := fruit_detector_primary_imgsz default_settings;
     fruit_detector_fallback_imgsz := fruit_detector_fallback_imgsz default_settings;
     fruit_detector_confidence_guard := fruit_detector_confidence_guard default_settings;
     fruit_detector_min_bbox_area_ratio :=
       fruit_detector_min_bbox_area_ratio default_settings;
     fruit_expected_weight_per_fruit := fruit_expected_weight_per_fruit default_settings;
     fruit_class_thresholds := fruit_class_thresholds default_settings;
     log_discarded_detections_detail := log_discarded_detections_detail default_settings |}.

(** The default settings with another expected weight per fruit. *)
Definition with_expected_weight_per_fruit (w : Q) : Settings :=
  {| enable_main_server_publish := enable_main_server_publish default_settings;
     min_fruit_weight := min_fruit_weight default_settings;
     significant_delta := significant_delta default_settings;
     weight_noise_epsilon := weight_noise_epsilon default_settings;
     stable_window_ms := stable_window_ms default_settings;
     min_scan_interval_ms := min_scan_interval_ms default_settings;
     fruit_detector_primary_imgsz := fruit_detector_primary_imgsz default_settings;
     fruit_detector_fallback_imgsz := fruit_detector_fallback_imgsz default_settings;
     fruit_detector_confidence_guard := fruit_detector_confidence_guard default_settings;
     fruit_detector_min_bbox_area_ratio :=
       fruit_detector_min_bbox_area_ratio default_settings;
     fruit_expected_weight_per_fruit := w;
     fruit_class_thresholds := fruit_class_thresholds default_settings;
     log_discarded_detections_detail := log_discarded_detections_detail default_settings |}.

(** A fruit of 35 g scanned at 100 ms, and 60 g on the scale [d]
    microseconds after that scan. *)
Definition second_scan_after (d : Z) : list WeightReading :=
  [reading_ms 35 0; reading_ms 35 100;
   {| grams := 60; timestamp := 100000 + d - 100000 |};
   {| grams := 60; timestamp := 100000 + d |}].

(** ** The tests applied by the two filters *)

(** The test of the loop of [_filter_detections_by_bbox_area]. *)
Definition passes_bbox_area (settings : Settings) (image_area : Z)
    (d : FruitDetection) : bool :=
  let b := bbox d in
  Qge_bool (fmul (fsub (x_max b) (x_min b)) (fsub (y_max b) (y_min b)))
           (fmul (float_of_int image_area)
                 (fruit_detector_min_bbox_area_ratio settings)).

(** The test of the loop of [_filter_detections_by_class_threshold]. *)
Definition passes_class_threshold (settings : Settings) (d : FruitDetection) : bool :=
  Qge_bool (confidence d)
    (default (fruit_detector_confidence_guard settings)
             (fruit_class_thresholds settings !! fruit_class d)).

(** Filter A followed by Filter B, as a function on lists. *)
Definition filtered_set (settings : Settings) (image_area : Z)
    (detections : list FruitDetection) : list FruitDetection :=
  List.filter (passes_class_threshold settings)
    (List.filter (passes_bbox_area settings image_area) detections).

(** ** Sample data *)

Definition box (x0 y0 x1 y1 : Q) : BoundingBox :=
  {| x_min := x0; y_min := y0; x_max := x1; y_max := y1 |}.

Definition detection (id cls : string) (conf : Q) (b : BoundingBox) : FruitDetection :=
  {| fruit_id := id; fruit_class := cls; confidence := conf; bbox := b |}.

(** ** Observations on traces *)

Definition is_publish (e : event) : bool :=
  match e with
  | PublishUI _ | PublishMain _ => true
  | _ => false
  end.

(** The publish requests of a trace, in order. *)
Definition publishes (tr : list event) : list event := List.filter is_publish tr.

(** The exceptions carried by the log records of a trace. *)
Definition logged_exception (e : event) : option exn :=
  match e with
  | Log _ (ScanFailed _ exc) => Some exc
  | Log _ (DefectAnalysisFailed _ exc) => Some exc
  | Log _ (DefectTaskFailed exc) => Some exc
  | _ => None
  end.

Definition logged_exceptions (tr : list event) : list exn := omap logged_exception tr.

(** The record with which [execute_scan] ends: "Finished scan" at the end
    of the [try] block, or "Scan ... failed" from the [except] clause. *)
Definition is_scan_end (e : event) : bool :=
  match e with
  | Log INFO (FinishedScan _ _) => true
  | Log ERROR (ScanFailed _ _) => true
  | _ => false
  end.

(** The handler has returned before the scan it started completed: no
    end-of-scan record precedes the response. *)
Definition returns_before_scan_completes (settings : Settings) (world : World)
    (payload : ManualScanRequest) : Prop :=
  Forall (fun e => is_scan_end e = false)
         (trace_of (trigger_scan settings world payload)).

(** ** The pieces of a scan, as values *)

(** The camera resolution string of [execute_scan]. *)
Definition resolution_of (settings : Settings) : string :=
  (pretty (fruit_detector_primary_imgsz settings) ++ "x"
   ++ pretty (fruit_detector_primary_imgsz settings))%string.

Definition image_area_of (sz : Z * Z) : Z := fst sz * snd sz.

(** What [analyze_detection] turns a detection into: nothing when the
    crop raises, a summary with the detector's defects, or with no
    defects when the defect detector raises. *)
Definition summary_of (world : World) (image : string) (cropper : ImageCropper)
    (d : FruitDetection) : option FruitSummary :=
  match image_crop world (cropper_image cropper) (as_tuple (bbox d)) with
  | Raise _ => None
  | Ok crop_bytes =>
      Some {| fs_fruit_id := fruit_id d;
              fs_fruit_class := fruit_class d;
              fs_confidence := confidence d;
              fs_bbox := bbox d;
              fs_defects :=
                match defect_detect world image (fruit_id d) crop_bytes
                        (fruit_id d ++ ".jpg")%string with
                | Ok found => defects found
                | Raise _ => []
                end |}
  end.

(** The crop of a detection's box succeeds. *)
Definition crop_succeeds (world : World) (cropper : ImageCropper)
    (d : FruitDetection) : bool :=
  match image_crop world (cropper_image cropper) (as_tuple (bbox d)) with
  | Ok _ => true
  | Raise _ => false
  end.

(** The detection a summary was made from. *)
Definition detection_of (s : FruitSummary) : FruitDetection :=
  {| fruit_id := fs_fruit_id s; fruit_class := fs_fruit_class s;
     confidence := fs_confidence s; bbox := fs_bbox s |}.

(** The publish requests of the publish step, and their outcomes. *)
Definition publish_events (settings : Settings) (r : ScanResult) : list event :=
  PublishUI r :: (if enable_main_server_publish settings then [PublishMain r] else []).

Definition publish_outcomes (settings : Settings) (world : World) (r : ScanResult)
  : list (result unit) :=
  ui_publish world r
  :: (if enable_main_server_publish settings then [main_publish world r] else []).

(** Four confident detections of cherries. *)
Definition cherry (id : string) : FruitDetection :=
  {| fruit_id := id; fruit_class := "cherry";
     confidence := float_literal (9 # 10);
     bbox := {| x_min := 0; y_min := 0; x_max := 60; y_max := 60 |} |}.

Definition four_cherries : list FruitDetection :=
  [cherry "fruit-1"; cherry "fruit-2"; cherry "fruit-3"; cherry "fruit-4"].

(** ** Sample worlds *)

Definition sample_capture : CameraCaptureResponse :=
  {| image_id := "img-1"; image_url := Some "/image/img-1.jpg";
     image_path := None; cap_timestamp := 0 |}.

Definition apple_1 : FruitDetection :=
  detection "fruit-1" "apple" (float_literal (95 # 100)) (box 0 0 60 60).

Definition apple_2 : FruitDetection :=
  detection "fruit-2" "apple" (float_literal (90 # 100)) (box 60 60 120 120).

Definition bruise : DefectInfo :=
  {| defect_type := "bruise"; defect_confidence := float_literal (9 # 10);
     segmentation := None |}.

(** A world in which every service answers; the parameters are the parts
    the scenarios vary. *)
Definition sample_world
    (detect : Z -> result FruitDetections)
    (crop_image : Z * Z * Z * Z -> result bytes)
    (detect_defects : string -> result DefectDetectionResult)
    (ui main : result unit) (order : list nat) : World :=
  {| uuid4 := "session-1";
     utcnow := 0;
     now_utc := 0;
     capture_image := fun _ => Ok sample_capture;
     fetch_image_binary := fun _ => Ok [];
     image_open := fun _ => Ok (128, 128);
     image_crop := fun _ => crop_image;
     fruit_detect := fun _ _ => detect;
     defect_detect := fun _ fruit _ _ => detect_defects fruit;
     ui_publish := fun _ => ui;
     main_publish := fun _ => main;
     publish_settle_order := order |}.

Definition one_bruise (fruit : string) : result DefectDetectionResult :=
  Ok {| ddr_image_id := "img-1"; ddr_fruit_id := fruit; defects := [bruise] |}.

(** Every service answers: one apple is detected, with one bruise, and
    both publish requests succeed. *)
Definition happy_world : World :=
  sample_world (fun _ => Ok {| fds_image_id := "img-1"; fruits := [apple_1] |})
               (fun _ => Ok []) one_bruise (Ok tt) (Ok tt) [0%nat; 1%nat].

(** ** Observable behaviour *)

(** The events by which a scan shows outside: its publish requests and
    its end-of-scan record. *)
Definition is_key (e : event) : bool := is_publish e || is_scan_end e.

Definition key_events (tr : list event) : list event := List.filter is_key tr.

Definition behaviour {A} (m : M A) : list event * result A :=
  (key_events (trace_of m), outcome_of m).

Definition scan_result_of (world : World) (session : string) (reading : WeightReading)
    (capture : CameraCaptureResponse) (summaries : list FruitSummary) : ScanResult :=
  {| session_id := session;
     sr_image_id := image_id capture;
     sr_timestamp := now_utc world;
     weight_grams := grams reading;
     sr_fruits := summaries |}.

(** The publish step followed by the closing log record. *)
Definition publish_behaviour (settings : Settings) (world : World)
    (session : string) (r : ScanResult) : list event * result unit :=
  match first_failure (publish_outcomes settings world r)
                      (publish_settle_order world) with
  | Some e => (publish_events settings r, Raise e)
  | None =>
      (publish_events settings r
       ++ [Log INFO (FinishedScan session (length (sr_fruits r)))], Ok tt)
  end.

(** The behaviour of the [try] block of [execute_scan] as a function of
    the answers of the world ([scan_body_behaviour] below proves that
    [scan_body] behaves so). *)
Definition scan_behaviour (settings : Settings) (world : World)
    (session : string) (reading : WeightReading) : list event * result unit :=
  match capture_image world (resolution_of settings) with
  | Raise e => ([], Raise e)
  | Ok capture =>
  match resolved_path capture with
  | Raise e => ([], Raise e)
  | Ok path =>
  match fetch_image_binary world path with
  | Raise e => ([], Raise e)
  | Ok image_bytes =>
  match image_open world image_bytes with
  | Raise e => ([], Raise e)
  | Ok sz =>
  match fruit_detect world (image_id capture) image_bytes
          (fruit_detector_primary_imgsz settings) with
  | Raise e => ([], Raise e)
  | Ok primary =>
      let cropper := {| cropper_image := image_bytes; size := sz |} in
      let finish kept :=
        publish_behaviour settings world session
          (scan_result_of world session reading capture
             (omap (summary_of world (image_id capture) cropper) kept)) in
      let kept := filtered_set settings (image_area_of sz) (fruits primary) in
      match outcome_of (_should_fallback settings kept (fruits primary)
                          (grams reading) (image_id capture)) with
      | Raise e => ([], Raise e)
      | Ok None => finish kept
      | Ok (Some _) =>
          match fruit_detect world (image_id capture) image_bytes
                  (fruit_detector_fallback_imgsz settings) with
          | Raise e => ([], Raise e)
          | Ok fallback =>
              finish (filtered_set settings (image_area_of sz) (fruits fallback))
          end
      end
  end end end end end.

(** ** Scenario worlds *)

Definition publishing_settings : Settings :=
  {| enable_main_server_publish := true;
     min_fruit_weight := min_fruit_weight default_settings;
     significant_delta := significant_delta default_settings;
     weight_noise_epsilon := weight_noise_epsilon default_settings;
     stable_window_ms := stable_window_ms default_settings;
     min_scan_interval_ms := min_scan_interval_ms default_settings;
     fruit_detector_primary_imgsz := fruit_detector_primary_imgsz default_settings;
     fruit_detector_fallback_imgsz := fruit_detector_fallback_imgsz default_settings;
     fruit_detector_confidence_guard := fruit_detector_confidence_guard default_settings;
     fruit_detector_min_bbox_area_ratio :=
       fruit_detector_min_bbox_area_ratio default_settings;
     fruit_expected_weight_per_fruit := fruit_expected_weight_per_fruit default_settings;
     fruit_class_thresholds := fruit_class_thresholds default_settings;
     log_discarded_detections_detail := log_discarded_detections_detail default_settings |}.

Definition reading_120 : WeightReading := {| grams := 120; timestamp := 0 |}.

Definition two_apples : result FruitDetections :=
  Ok {| fds_image_id := "img-1"; fruits := [apple_1; apple_2] |}.

(** The primary call sees one faint detection, the fallback call an
    apple. *)
Definition faint_pear : FruitDetection :=
  detection "fruit-0" "pear" (float_literal (10 # 100)) (box 0 0 60 60).

Definition fallback_world : World :=
  sample_world
    (fun imgsz =>
       if imgsz =? 320
       then Ok {| fds_image_id := "img-1"; fruits := [faint_pear] |}
       else Ok {| fds_image_id := "img-1"; fruits := [apple_1] |})
    (fun _ => Ok []) one_bruise (Ok tt) (Ok tt) [0%nat; 1%nat].

(** The defect detector raises for [fruit-2]. *)
Definition defect_failure_world : World :=
  sample_world (fun _ => two_apples) (fun _ => Ok [])
    (fun fruit => if String.eqb fruit "fruit-2"
                  then Raise (ServiceError "defect detector unavailable")
                  else one_bruise fruit)
    (Ok tt) (Ok tt) [0%nat; 1%nat].

(** A sliver of a box: wide enough for Filter A, but its integer crop
    rectangle is empty, and an empty crop cannot be saved as JPEG. *)
Definition sliver : FruitDetection :=
  detection "fruit-2" "apple" (float_literal (90 # 100))
    (box (float_literal (602 # 10)) 60 (float_literal (609 # 10)) 120).

Definition crop_failure_world : World :=
  sample_world
    (fun _ => Ok {| fds_image_id := "img-1"; fruits := [apple_1; sliver] |})
    (fun '(x0, y0, x1, y1) =>
       if (x1 <=? x0) || (y1 <=? y0)
       then Raise (OtherException "cannot write empty image as JPEG")
       else Ok [])
    one_bruise (Ok tt) (Ok tt) [0%nat; 1%nat].


Definition sliver_3 : FruitDetection :=
  detection "fruit-3" "apple" (float_literal (90 # 100))
    (box (float_literal (602 # 10)) 60 (float_literal (609 # 10)) 120).

(** Three detections pass the filters; the defect detector raises for
    [fruit-2] and the crop of [fruit-3] raises. *)
Definition mixed_failure_world : World :=
  sample_world
    (fun _ => Ok {| fds_image_id := "img-1"; fruits := [apple_1; apple_2; sliver_3] |})
    (fun '(x0, y0, x1, y1) =>
       if (x1 <=? x0) || (y1 <=? y0)
       then Raise (OtherException "cannot write empty image as JPEG")
       else Ok [])
    (fun fruit => if String.eqb fruit "fruit-2"
                  then Raise (ServiceError "defect detector unavailable")
                  else one_bruise fruit)
    (Ok tt) (Ok tt) [0%nat; 1%nat].



(** The fruit detector is down. *)
Definition detector_down_world : World :=
  sample_world (fun _ => Raise (ServiceError "fruit detector unavailable"))
    (fun _ => Ok []) one_bruise (Ok tt) (Ok tt) [0%nat; 1%nat].

(** Both publish requests fail, the one to the UI first. *)
Definition ui_down : exn := ServiceError "Request to ui/update failed".
Definition main_down : exn := ServiceError "Request to main/ingest failed".

Definition double_failure_world : World :=
  sample_world (fun _ => Ok {| fds_image_id := "img-1"; fruits := [apple_1] |})
    (fun _ => Ok []) one_bruise (Raise ui_down) (Raise main_down) [0%nat; 1%nat].

(** A scan gets as far as the per-fruit analysis with the detections
    [kept]: capture, fetch, decoding and primary detection succeeded,
    and [kept] is the filtered primary set when no fallback is indicated,
    the filtered fallback set when one is indicated and its call
    succeeded. *)
Definition reaches_analysis (settings : Settings) (world : World)
    (reading : WeightReading) (capture : CameraCaptureResponse)
    (image_bytes : bytes) (sz : Z * Z) (kept : list FruitDetection) : Prop :=
  exists path primary,
    capture_image world (resolution_of settings) = Ok capture
    /\ resolved_path capture = Ok path
    /\ fetch_image_binary world path = Ok image_bytes
    /\ image_open world image_bytes = Ok sz
    /\ fruit_detect world (image_id capture) image_bytes
         (fruit_detector_primary_imgsz settings) = Ok primary
    /\ ((outcome_of (_should_fallback settings
                       (filtered_set settings (image_area_of sz) (fruits primary))
                       (fruits primary) (grams reading) (image_id capture))
         = Ok None
         /\ kept = filtered_set settings (image_area_of sz) (fruits primary))
        \/ (exists reason fallback,
              outcome_of (_should_fallback settings
                            (filtered_set settings (image_area_of sz) (fruits primary))
                            (fruits primary) (grams reading) (image_id capture))
              = Ok (Some reason)
              /\ fruit_detect world (image_id capture) image_bytes
                   (fruit_detector_fallback_imgsz settings) = Ok fallback
              /\ kept = filtered_set settings (image_area_of sz) (fruits fallback))).

(** ** Further notions for the state machine *)

(** The reading [x] is not older than the stability window at time [now]. *)
Definition in_window (cfg : Settings) (now : Z) (x : WeightReading) : bool :=
  now - timestamp x <=? 1000 * stable_window_ms cfg.

(** Readings in non-decreasing order of timestamp. *)
Definition chronological (rs : list WeightReading) : Prop :=
  StronglySorted (fun a b => timestamp a <= timestamp b) rs.

(** The readings of a sequence whose decision requested a scan. *)
Definition scanned (cfg : Settings) (rs : list WeightReading) : list WeightReading :=
  map fst (List.filter (fun p => scan_requested (snd p))
             (zip rs (decisions cfg rs))).

(** ** The log records of the filters *)

(** The record written for a detection dropped by the class filter. *)
Definition low_confidence_record (settings : Settings) (image : string)
    (d : FruitDetection) : event :=
  Log INFO
    (DroppedLowConfidence image (fruit_id d) (fruit_class d) (confidence d)
       (default (fruit_detector_confidence_guard settings)
                (fruit_class_thresholds settings !! fruit_class d))).

(** The record written for a detection dropped by the bbox-area filter. *)
Definition small_bbox_record (settings : Settings) (image : string)
    (image_area : Z) (d : FruitDetection) : event :=
  let b := bbox d in
  let bbox_area := fmul (fsub (x_max b) (x_min b)) (fsub (y_max b) (y_min b)) in
  Log INFO
    (DroppedSmallBbox image (fruit_id d) (fruit_class d) bbox_area
       (if 0 <? image_area then fdiv bbox_area (float_of_int image_area) else 0%Q)
       (fruit_detector_min_bbox_area_ratio settings)).

(** The detections a test rejects, in order. *)
Definition rejected (test : FruitDetection -> bool)
    (detections : list FruitDetection) : list FruitDetection :=
  List.filter (fun d => negb (test d)) detections.

(** Further scenario worlds *)

(** The fallback call fails after a primary call that found only a faint
    detection. *)
Definition fallback_down_world : World :=
  sample_world
    (fun imgsz =>
       if imgsz =? 320
       then Ok {| fds_image_id := "img-1"; fruits := [faint_pear] |}
       else Raise (ServiceError "fruit detector unavailable"))
    (fun _ => Ok []) one_bruise (Ok tt) (Ok tt) [0%nat; 1%nat].

(** The image cannot be decoded. *)
Definition undecodable_world : World :=
  {| uuid4 := "session-1";
     utcnow := 0;
     now_utc := 0;
     capture_image := fun _ => Ok sample_capture;
     fetch_image_binary := fun _ => Ok [];
     image_open := fun _ => Raise (OtherException "cannot identify image file");
     image_crop := fun _ _ => Ok [];
     fruit_detect := fun _ _ _ =>
                       Ok {| fds_image_id := "img-1"; fruits := [apple_1] |};
     defect_detect := fun _ fruit _ _ => one_bruise fruit;
     ui_publish := fun _ => Ok tt;
     main_publish := fun _ => Ok tt;
     publish_settle_order := [0%nat; 1%nat] |}.

(** ** Validation of [BoundingBox] ([app/models/common.py])

    The value handed to the "before" validator, as far as
    [_coerce_sequence] tells values apart: a [str] or [bytes], a [dict],
    a [list] or [tuple], or anything else. *)
Inductive raw_value (V : Type) :=
| RawText (s : string)
| RawDict (fields : gmap string V)
| RawSeq (items : list V)
| RawOther.
Arguments RawText {V} s.
Arguments RawDict {V} fields.
Arguments RawSeq {V} items.
Arguments RawOther {V}.

(** [BoundingBox._coerce_sequence]: a sequence must hold four values,
    which become the four fields in order. *)
Definition _coerce_sequence {V} (value : raw_value V) : result (raw_value V) :=
  match value with
  | RawText _ => Ok value
  | RawDict _ => Ok value
  | RawSeq items =>
      if negb (length items =? 4)%nat then
        Raise (ValueError "BoundingBox sequence must contain four values")
      else
        match items with
        | [a; b; c; d] =>
            Ok (RawDict (<["x_min" := a]> (<["y_min" := b]>
                          (<["x_max" := c]> (<["y_max" := d]> ∅)))))
        | _ => Raise (ValueError "not enough values to unpack")
        end
  | RawOther => Ok value
  end.

(** The field constraints of [BoundingBox]: [x_min] and [y_min] are
    [NonNegativeFloat], [x_max] and [y_max] are [PositiveFloat]; all four
    are required, other keys are ignored. *)
Definition validate_fields (fields : gmap string Q) : result BoundingBox :=
  match fields !! "x_min", fields !! "y_min", fields !! "x_max", fields !! "y_max" with
  | Some a, Some b, Some c, Some d =>
      if Qle_bool 0 a && Qle_bool 0 b && Qlt_bool 0 c && Qlt_bool 0 d
      then Ok {| x_min := a; y_min := b; x_max := c; y_max := d |}
      else Raise validation_error
  | _, _, _, _ => Raise validation_error
  end.

(** [BoundingBox.model_validate] on numeric entries: the "before"
    validator, then the fields; an exception of the validator is reported
    as a validation error. *)
Definition BoundingBox_validate (value : raw_value Q) : result BoundingBox :=
  match _coerce_sequence value with
  | Ok (RawDict fields) => validate_fields fields
  | _ => Raise validation_error
  end.

(** ** [crop_all] ([app/core/image_ops.py]) *)

(** The list comprehension [[cropper.crop(bbox) for bbox in boxes]]. *)
Fixpoint crop_each (world : World) (cropper : ImageCropper)
    (boxes : list BoundingBox) : M (list bytes) :=
  match boxes with
  | [] => ret []
  | b :: rest =>
      bind (crop world cropper b) (fun c =>
      bind (crop_each world cropper rest) (fun cs =>
      ret (c :: cs)))
  end.

Definition crop_all (world : World) (image_bytes : bytes)
    (boxes : list BoundingBox) : M (list bytes) :=
  bind (ImageCropper_init world image_bytes) (fun cropper =>
  crop_each world cropper boxes).

(** ** Calls to the fruit detector *)

(** The [imgsz] of the fruit-detector requests of a trace, in order. *)
Definition detect_calls (tr : list event) : list Z :=
  omap (fun e => match e with FruitDetect _ imgsz => Some imgsz | _ => None end) tr.

(** ** The weight polling loop ([BrainOrchestrator._poll_weight_loop]) *)

(** The fields of [Settings] that only the polling uses. *)
Record PollSettings := {
  weight_poll_interval_ms : Z;
  enable_weight_polling : bool
}.

Definition default_poll_settings : PollSettings :=
  {| weight_poll_interval_ms := 150; enable_weight_polling := true |}.

(** What the loop does to the outside: it asks the weight service,
    detaches a scan task for a reading, logs a failed poll, sleeps (in
    seconds). *)
Inductive poll_event :=
| ReadWeight
| SpawnScan (reading : WeightReading)
| PollFailed (exc : exn)
| Sleep (seconds : Q).

(** One turn of the [while] loop, given the answer of
    [weight_client.read_weight()]. On a reading the [try] body runs to
    its end: [process], the detached scan when one is requested, the
    sleep. On an exception the [except] clause logs it and sleeps twice
    as long. [process] is a total function in this embedding, where a
    timestamp is an instant; the [TypeError] with which Python refuses
    to subtract a timestamp without UTC offset from one with an offset
    is not represented, so the readings of one run are taken to carry
    timestamps of one kind. *)
Definition poll_iteration (cfg : Settings) (polling : PollSettings)
    (m : WeightStateMachine) (answer : result WeightReading)
  : WeightStateMachine * list poll_event :=
  let poll_interval := int_truediv (weight_poll_interval_ms polling) 1000 in
  match answer with
  | Ok reading =>
      let '(m, decision) := process cfg m reading in
      (m, [ReadWeight]
          ++ (if scan_requested decision then [SpawnScan reading] else [])
          ++ [Sleep poll_interval])
  | Raise exc =>
      (m, [ReadWeight; PollFailed exc;
           Sleep (fmul poll_interval (float_of_int 2))])
  end.

(** The turns the loop makes before the shutdown event is set, one per
    answer of the weight service. *)
Fixpoint _poll_weight_loop (cfg : Settings) (polling : PollSettings)
    (m : WeightStateMachine) (answers : list (result WeightReading))
  : WeightStateMachine * list poll_event :=
  match answers with
  | [] => (m, [])
  | answer :: rest =>
      let '(m1, evs) := poll_iteration cfg polling m answer in
      let '(m2, evs') := _poll_weight_loop cfg polling m1 rest in
      (m2, evs ++ evs')
  end.

(** The readings for which a trace detached a scan, in order. *)
Definition spawned (evs : list poll_event) : list WeightReading :=
  omap (fun e => match e with SpawnScan r => Some r | _ => None end) evs.

(** Adjacent readings of a list lie at least [min_scan_interval_ms]
    apart. *)
Definition spaced (cfg : Settings) (l : list WeightReading) : Prop :=
  forall (i : nat) a b,
    l !! i = Some a -> l !! S i = Some b ->
    1000 * min_scan_interval_ms cfg <= timestamp b - timestamp a.

(** The settings of [tests/test_state_machine.py]. *)
Definition stub_settings : Settings :=
  {| enable_main_server_publish := false;
     min_fruit_weight := 30;
     significant_delta := 20;
     weight_noise_epsilon := 5;
     stable_window_ms := 500;
     min_scan_interval_ms := 2000;
     fruit_detector_primary_imgsz := fruit_detector_primary_imgsz default_settings;
     fruit_detector_fallback_imgsz := fruit_detector_fallback_imgsz default_settings;
     fruit_detector_confidence_guard := fruit_detector_confidence_guard default_settings;
     fruit_detector_min_bbox_area_ratio :=
       fruit_detector_min_bbox_area_ratio default_settings;
     fruit_expected_weight_per_fruit := fruit_expected_weight_per_fruit default_settings;
     fruit_class_thresholds := fruit_class_thresholds default_settings;
     log_discarded_detections_detail := false |}.

(** * Properties *)

(** ** Rational comparisons *)

Lemma Qge_bool_iff x y : Qge_bool x y = true <-> (y <= x)%Q.
Proof. unfold Qge_bool. apply Qle_bool_iff. Qed.

Lemma Qlt_bool_iff x y : Qlt_bool x y = true <-> (x < y)%Q.
Proof.
  unfold Qlt_bool. rewrite negb_true_iff. split.
  - intros H. apply Qnot_le_lt. intros Hle.
    apply Qle_bool_iff in Hle. congruence.
  - intros H. destruct (Qle_bool y x) eqn:E; [|reflexivity].
    apply Qle_bool_iff in E. exfalso. exact (Qlt_not_le _ _ H E).
Qed.

Lemma Qgt_bool_iff x y : Qgt_bool x y = true <-> (y < x)%Q.
Proof. unfold Qgt_bool. apply (Qlt_bool_iff y x). Qed.

(** ** Rounding to the nearest double *)


Lemma pow2_pos e : (0 < pow2 e)%Q.
Proof. apply Qpower_0_lt. reflexivity. Qed.

Lemma pow2_plus a b : (pow2 (a + b) == pow2 a * pow2 b)%Q.
Proof. apply Qpower_plus. discriminate. Qed.

Lemma pow2_le a b : a <= b -> (pow2 a <= pow2 b)%Q.
Proof. intros H. apply Qpower_le_compat_l; [exact H|discriminate]. Qed.

Lemma pow2_lt a b : a < b -> (pow2 a < pow2 b)%Q.
Proof. intros H. apply Qpower_lt_compat_l; [exact H|reflexivity]. Qed.

Lemma pow2_lt_inv a b : (pow2 a < pow2 b)%Q -> a < b.
Proof. intros H. eapply Qpower_lt_compat_l_inv; [exact H|reflexivity]. Qed.

Lemma pow2_Z a : 0 <= a -> (pow2 a == inject_Z (2 ^ a))%Q.
Proof. intros H. unfold pow2. by rewrite Zpower_Qpower. Qed.

Lemma pow2_succ a : (pow2 (a + 1) == 2 * pow2 a)%Q.
Proof. rewrite pow2_plus. change (pow2 1) with 2%Q. ring. Qed.

Lemma pow2_pred a : (pow2 (a - 1) == (1 # 2) * pow2 a)%Q.
Proof.
  replace a with ((a - 1) + 1) at 2 by lia. rewrite pow2_succ. field.
Qed.

Lemma pow2_minus a b : (pow2 (a - b) == pow2 a / pow2 b)%Q.
Proof.
  replace a with ((a - b) + b) at 2 by lia. rewrite pow2_plus.
  field. pose proof (pow2_pos b). lra.
Qed.

Lemma Q_as_fraction (q : Q) : (q == inject_Z (Qnum q) / inject_Z (Z.pos (Qden q)))%Q.
Proof. destruct q as [n d]. simpl. rewrite Qmake_Qdiv. reflexivity. Qed.

Lemma binade_spec q :
  (0 < q)%Q -> (pow2 (binade q) <= q)%Q /\ (q < pow2 (binade q + 1))%Q.
Proof.
  intros Hq.
  assert (Hn : 0 < Qnum q) by (unfold Qlt in Hq; simpl in Hq; lia).
  destruct (Z.log2_spec (Qnum q) Hn) as [Ha1 Ha2].
  destruct (Z.log2_spec (Z.pos (Qden q)) ltac:(lia)) as [Hb1 Hb2].
  pose proof (Z.log2_nonneg (Qnum q)) as Ha0.
  pose proof (Z.log2_nonneg (Z.pos (Qden q))) as Hb0.
  unfold binade.
  set (a := Z.log2 (Qnum q)) in *. set (b := Z.log2 (Z.pos (Qden q))) in *.
  assert (Hd : (0 < inject_Z (Z.pos (Qden q)))%Q) by reflexivity.
  assert (Ea : (pow2 a <= inject_Z (Qnum q))%Q).
  { rewrite pow2_Z by lia. by rewrite <- Zle_Qle. }
  assert (Ea' : (inject_Z (Qnum q) < pow2 (a + 1))%Q).
  { rewrite pow2_Z by lia. rewrite <- Zlt_Qlt. unfold Z.succ in Ha2. lia. }
  assert (Eb : (pow2 b <= inject_Z (Z.pos (Qden q)))%Q).
  { rewrite pow2_Z by lia. by rewrite <- Zle_Qle. }
  assert (Eb' : (inject_Z (Z.pos (Qden q)) < pow2 (b + 1))%Q).
  { rewrite pow2_Z by lia. rewrite <- Zlt_Qlt. unfold Z.succ in Hb2. lia. }
  pose proof (pow2_pos a). pose proof (pow2_pos b).
  pose proof (pow2_pos (a - b)) as Hab.
  assert (Eq1 : (pow2 (a - b) * pow2 b == pow2 a)%Q).
  { rewrite <- pow2_plus. by replace (a - b + b) with a by lia. }
  assert (Eqq : (q * inject_Z (Z.pos (Qden q)) == inject_Z (Qnum q))%Q).
  { rewrite (Q_as_fraction q) at 1. field. lra. }
  destruct (Qle_bool (pow2 (a - b)) q) eqn:E.
  - apply Qle_bool_iff in E. split; [exact E|].
    (* q < 2^(a-b+1) : q * d = n < 2^(a+1) = 2 * 2^(a-b) * 2^b <= 2*2^(a-b) * d *)
    rewrite pow2_succ.
    apply Qnot_le_lt. intros Hc.
    assert ((2 * pow2 (a - b)) * pow2 b <= q * inject_Z (Z.pos (Qden q)))%Q.
    { eapply Qle_trans; [|apply Qmult_le_compat_r; [exact Hc|lra]].
      apply Qmult_le_l; [lra|exact Eb]. }
    rewrite pow2_succ in Ea'. nra.
  - assert (Hlt : (q < pow2 (a - b))%Q).
    { apply Qnot_le_lt. intros Hc. apply Qle_bool_iff in Hc. congruence. }
    replace (a - b - 1 + 1) with (a - b) by lia. split; [|exact Hlt].
    rewrite pow2_pred.
    apply Qnot_lt_le. intros Hc.
    (* q < 2^(a-b)/2 ; n = q*d < 2^(a-b)/2 * 2^(b+1) = 2^a *)
    rewrite pow2_succ in Eb'. nra.
Qed.

Lemma binade_lt q k : (0 < q)%Q -> (q < pow2 k)%Q -> binade q < k.
Proof.
  intros Hq Hk. destruct (binade_spec q Hq) as [Hlo _].
  apply pow2_lt_inv. eapply Qle_lt_trans; eassumption.
Qed.

Lemma binade_ge q k : (0 < q)%Q -> (pow2 k <= q)%Q -> k <= binade q.
Proof.
  intros Hq Hk. destruct (binade_spec q Hq) as [_ Hhi].
  assert (k < binade q + 1); [|lia].
  apply pow2_lt_inv. eapply Qle_lt_trans; eassumption.
Qed.

Lemma binade_mono p q : (0 < p)%Q -> (p <= q)%Q -> binade p <= binade q.
Proof.
  intros Hp Hpq. apply binade_ge; [lra|].
  destruct (binade_spec p Hp) as [Hlo _]. lra.
Qed.

Lemma quantum_mono p q : (0 < p)%Q -> (p <= q)%Q -> quantum p <= quantum q.
Proof. intros Hp Hpq. unfold quantum. pose proof (binade_mono p q Hp Hpq). lia. Qed.

(** ** Rounding to the nearest integer, ties to even *)

Lemma round_half_even_cases x :
  let f := Qfloor x in
  (round_half_even x = f /\ (x - inject_Z f <= 1 # 2)%Q)
  \/ (round_half_even x = f + 1 /\ (1 # 2 <= x - inject_Z f)%Q).
Proof.
  intros f. unfold round_half_even. fold f.
  destruct (Qcompare_spec (x - inject_Z f) (1 # 2)) as [E|E|E].
  - destruct (Z.even f); [left|right]; split; try reflexivity; lra.
  - left. split; [reflexivity|lra].
  - right. split; [reflexivity|lra].
Qed.

Lemma round_half_even_error x :
  (Qabs (inject_Z (round_half_even x) - x) <= 1 # 2)%Q.
Proof.
  pose proof (Qfloor_le x) as Hlo. pose proof (Qlt_floor x) as Hhi.
  rewrite inject_Z_plus in Hhi. change (inject_Z 1) with 1%Q in Hhi.
  apply Qabs_Qle_condition.
  destruct (round_half_even_cases x) as [[-> H]|[-> H]].
  - split; lra.
  - rewrite inject_Z_plus. change (inject_Z 1) with 1%Q. split; lra.
Qed.

Lemma round_half_even_mono x y :
  (x <= y)%Q -> round_half_even x <= round_half_even y.
Proof.
  intros Hxy. pose proof (Qfloor_resp_le x y Hxy) as Hf.
  pose proof (Qfloor_le x) as Hx. pose proof (Qfloor_le y) as Hy.
  destruct (Z_lt_le_dec (Qfloor x) (Qfloor y)) as [Hlt|Hge].
  - destruct (round_half_even_cases x) as [[-> _]|[-> _]];
      destruct (round_half_even_cases y) as [[-> _]|[-> _]]; lia.
  - assert (Heq : Qfloor x = Qfloor y) by lia.
    unfold round_half_even. rewrite Heq.
    destruct (Qcompare_spec (x - inject_Z (Qfloor y)) (1 # 2)) as [E|E|E];
      destruct (Qcompare_spec (y - inject_Z (Qfloor y)) (1 # 2)) as [E'|E'|E'];
      try lia; try (exfalso; lra); destruct (Z.even (Qfloor y)); lia.
Qed.

Lemma round_half_even_Z k : round_half_even (inject_Z k) = k.
Proof.
  unfold round_half_even. rewrite Qfloor_Z.
  destruct (Qcompare_spec (inject_Z k - inject_Z k) (1 # 2)) as [E|E|E];
    [exfalso; lra|reflexivity|exfalso; lra].
Qed.

Lemma round_half_even_le_Z x k : (x <= inject_Z k)%Q -> round_half_even x <= k.
Proof. intros H. rewrite <- (round_half_even_Z k). by apply round_half_even_mono. Qed.

Lemma round_half_even_ge_Z x k : (inject_Z k <= x)%Q -> k <= round_half_even x.
Proof. intros H. rewrite <- (round_half_even_Z k). by apply round_half_even_mono. Qed.

(** Rounding a positive rational *)

Lemma round_positive_nonneg q : (0 < q)%Q -> (0 <= round_positive q)%Q.
Proof.
  intros Hq. unfold round_positive. pose proof (pow2_pos (quantum q)) as He.
  apply Qmult_le_0_compat; [|lra].
  change 0%Q with (inject_Z 0). rewrite <- Zle_Qle.
  apply round_half_even_ge_Z. change (inject_Z 0) with 0%Q.
  apply Qle_shift_div_l; [exact He|lra].
Qed.

(** The rounded value stays within the binade of [q], ends included. *)
Lemma round_positive_ge_pow2 q k :
  (0 < q)%Q -> quantum q <= k -> (pow2 k <= q)%Q -> (pow2 k <= round_positive q)%Q.
Proof.
  intros Hq Hk Hle. unfold round_positive. set (e := quantum q) in *.
  pose proof (pow2_pos e) as He.
  assert (E : (pow2 k == inject_Z (2 ^ (k - e)) * pow2 e)%Q).
  { rewrite <- pow2_Z by lia. rewrite <- pow2_plus. by replace (k - e + e) with k by lia. }
  rewrite E. apply Qmult_le_compat_r; [|lra].
  rewrite <- Zle_Qle. apply round_half_even_ge_Z.
  apply Qle_shift_div_l; [exact He|]. by rewrite <- E.
Qed.

Lemma round_positive_le_pow2 q k :
  (0 < q)%Q -> quantum q <= k -> (q <= pow2 k)%Q -> (round_positive q <= pow2 k)%Q.
Proof.
  intros Hq Hk Hle. unfold round_positive. set (e := quantum q) in *.
  pose proof (pow2_pos e) as He.
  assert (E : (pow2 k == inject_Z (2 ^ (k - e)) * pow2 e)%Q).
  { rewrite <- pow2_Z by lia. rewrite <- pow2_plus. by replace (k - e + e) with k by lia. }
  rewrite E. apply Qmult_le_compat_r; [|lra].
  rewrite <- Zle_Qle. apply round_half_even_le_Z.
  apply Qle_shift_div_r; [exact He|]. by rewrite <- E.
Qed.

Lemma round_positive_mono p q :
  (0 < p)%Q -> (p <= q)%Q -> (round_positive p <= round_positive q)%Q.
Proof.
  intros Hp Hpq. assert (Hq : (0 < q)%Q) by lra.
  pose proof (quantum_mono p q Hp Hpq) as He.
  destruct (Z_lt_le_dec (quantum p) (quantum q)) as [Hlt|Hge].
  - (* different quanta: a power of two lies between *)
    assert (Hb : quantum q = binade q - 52) by (unfold quantum in *; lia).
    assert (Hpb : binade p < binade q) by (unfold quantum in *; lia).
    destruct (binade_spec p Hp) as [_ Hp2]. destruct (binade_spec q Hq) as [Hq1 _].
    apply Qle_trans with (pow2 (binade q)).
    + apply round_positive_le_pow2; [exact Hp|lia|].
      apply Qle_trans with (pow2 (binade p + 1)); [lra|]. apply pow2_le. lia.
    + apply round_positive_ge_pow2; [exact Hq|lia|exact Hq1].
  - assert (Heq : quantum p = quantum q) by lia.
    unfold round_positive. rewrite Heq. pose proof (pow2_pos (quantum q)) as Hpos.
    apply Qmult_le_compat_r; [|lra]. rewrite <- Zle_Qle.
    apply round_half_even_mono. apply Qmult_le_compat_r; [exact Hpq|].
    apply Qlt_le_weak, Qinv_lt_0_compat, Hpos.
Qed.

Lemma Qnum_sign q :
  match Qnum q with
  | 0 => (q == 0)%Q
  | Z.pos _ => (0 < q)%Q
  | Z.neg _ => (q < 0)%Q
  end.
Proof. destruct q as [[|n|n] d]; unfold Qeq, Qlt; simpl; lia. Qed.

Lemma round_double_pos q : (0 < q)%Q -> (round_double q == round_positive q)%Q.
Proof.
  intros H. unfold round_double. pose proof (Qnum_sign q) as Hs.
  destruct (Qnum q); [lra|apply Qred_correct|lra].
Qed.

Lemma round_double_neg q : (q < 0)%Q -> (round_double q == - round_positive (- q))%Q.
Proof.
  intros H. unfold round_double. pose proof (Qnum_sign q) as Hs.
  destruct (Qnum q); [lra|lra|apply Qred_correct].
Qed.

Lemma round_double_zero q : (q == 0)%Q -> round_double q = 0%Q.
Proof.
  intros H. unfold round_double. pose proof (Qnum_sign q) as Hs.
  destruct (Qnum q); [reflexivity|lra|lra].
Qed.

(** Rounding is monotone. *)
Lemma round_double_mono p q : (p <= q)%Q -> (round_double p <= round_double q)%Q.
Proof.
  intros Hpq.
  destruct (Q_dec p 0) as [[Hp|Hp]|Hp], (Q_dec q 0) as [[Hq|Hq]|Hq];
    try (exfalso; lra).
  - rewrite (round_double_neg p Hp), (round_double_neg q Hq).
    assert (round_positive (- q) <= round_positive (- p))%Q
      by (apply round_positive_mono; lra). lra.
  - rewrite (round_double_neg p Hp), (round_double_pos q Hq).
    pose proof (round_positive_nonneg (- p)). pose proof (round_positive_nonneg q). lra.
  - rewrite (round_double_neg p Hp), (round_double_zero q Hq).
    pose proof (round_positive_nonneg (- p)). lra.
  - rewrite (round_double_pos p Hp), (round_double_pos q Hq).
    by apply round_positive_mono.
  - rewrite (round_double_zero p Hp), (round_double_pos q Hq).
    by apply round_positive_nonneg.
  - rewrite (round_double_zero p Hp), (round_double_zero q Hq). lra.
Qed.

(** Rounding depends on the value only. *)
Lemma round_double_compat p q : (p == q)%Q -> (round_double p == round_double q)%Q.
Proof.
  intros H. apply Qle_antisym; apply round_double_mono; lra.
Qed.

(** The rounding error is at most half a quantum. *)
Lemma round_positive_error q :
  (0 < q)%Q -> (Qabs (round_positive q - q) <= pow2 (quantum q - 1))%Q.
Proof.
  intros Hq. unfold round_positive. set (e := quantum q).
  pose proof (pow2_pos e) as He.
  pose proof (round_half_even_error (q / pow2 e)) as Herr.
  set (m := inject_Z (round_half_even (q / pow2 e))) in *.
  assert (E : (m * pow2 e - q == (m - q / pow2 e) * pow2 e)%Q) by (field; lra).
  rewrite E, Qabs_Qmult, (Qabs_pos (pow2 e)) by lra.
  rewrite pow2_pred. apply Qmult_le_compat_r; [exact Herr|lra].
Qed.

(** A value below [2^k] in magnitude is rounded with an error of at most
    [2^(k-54)]. *)
Lemma round_double_error q k :
  -1021 <= k -> (Qabs q < pow2 k)%Q ->
  (Qabs (round_double q - q) <= pow2 (k - 54))%Q.
Proof.
  intros Hk Hq.
  assert (Hpos : forall x, (0 < x)%Q -> (x < pow2 k)%Q ->
                   (Qabs (round_positive x - x) <= pow2 (k - 54))%Q).
  { intros x Hx Hxk. eapply Qle_trans; [apply round_positive_error, Hx|].
    apply pow2_le. pose proof (binade_lt x k Hx Hxk). unfold quantum. lia. }
  destruct (Q_dec q 0) as [[Hs|Hs]|Hs].
  - rewrite (round_double_neg q Hs).
    rewrite (Qabs_neg q) in Hq by lra.
    specialize (Hpos (- q)%Q ltac:(lra) Hq).
    assert (E : (- round_positive (- q) - q == - (round_positive (- q) - - q))%Q) by ring.
    by rewrite E, Qabs_opp.
  - rewrite (round_double_pos q Hs).
    rewrite (Qabs_pos q) in Hq by lra. by apply Hpos.
  - rewrite round_double_zero by exact Hs.
    assert (E : (0 - q == 0)%Q) by lra. rewrite E. simpl.
    apply Qlt_le_weak, pow2_pos.
Qed.

(** ** Agreement with the Standard Library's IEEE 754 operations

    The operations of [SpecFloat] and those of this file, run on the
    same doubles. *)

Example literal_agrees :
  Q_of_SF (SF_of_decimal 3 10) = Some (float_literal (3 # 10))
  /\ Q_of_SF (SF_of_decimal (-312) 10) = Some (float_literal (- 312 # 10))
  /\ Q_of_SF (SF_of_decimal 1 1000) = Some (float_literal (1 # 1000)).
Proof. repeat split; vm_compute; reflexivity. Qed.

Example division_agrees :
  Q_of_SF (SFdiv 53 1024 (SF_of_decimal 312 10) (SF_of_decimal 52 10))
  = Some (fdiv (float_literal (312 # 10)) (float_literal (52 # 10)))
  /\ fdiv (float_literal (312 # 10)) (float_literal (52 # 10)) = 6%Q.
Proof. split; vm_compute; reflexivity. Qed.

Example subtraction_agrees :
  Q_of_SF (SFsub 53 1024 (SF_of_decimal 304 10) (SF_of_decimal 104 10))
  = Some (fsub (float_literal (304 # 10)) (float_literal (104 # 10)))
  /\ Q_of_SF (SFsub 53 1024 (SF_of_decimal 52 10) (SF_of_decimal 2 10))
     = Some (fsub (float_literal (52 # 10)) (float_literal (2 # 10)))
  /\ fsub (float_literal (52 # 10)) (float_literal (2 # 10)) = 5%Q.
Proof. repeat split; vm_compute; reflexivity. Qed.

Example multiplication_agrees :
  Q_of_SF (SFmul 53 1024
             (SFsub 53 1024 (SF_of_decimal 2698 10) (SF_of_decimal 2538 10))
             (SFsub 53 1024 (SF_of_decimal 389 10) (SF_of_decimal 197 10)))
  = Some (fmul (fsub (float_literal (2698 # 10)) (float_literal (2538 # 10)))
               (fsub (float_literal (389 # 10)) (float_literal (197 # 10))))
  /\ Q_of_SF (SFmul 53 1024 (SF_of_int 307200) (SF_of_decimal 1 1000))
     = Some (fmul (float_of_int 307200) (float_literal (1 # 1000))).
Proof. split; vm_compute; reflexivity. Qed.

(** The elapsed time of 1001000 microseconds is 1000.9999999999999
    milliseconds in both. *)
Example elapsed_agrees :
  Q_of_SF (SFmul 53 1024 (SFdiv 53 1024 (SF_of_int 1001000) (SF_of_int 1000000))
             (SF_of_int 1000))
  = Some (fmul (total_seconds 1001000) (float_of_int 1000))
  /\ (fmul (total_seconds 1001000) (float_of_int 1000) < 1001)%Q.
Proof. split; vm_compute; reflexivity. Qed.

(** The mean of three readings of 30.1 g is 30.100000000000005 g in
    both, above each reading. *)
Example mean_agrees :
  let g := SF_of_decimal 301 10 in
  Q_of_SF (SFdiv 53 1024 (SFadd 53 1024 (SFadd 53 1024 g g) g) (SF_of_int 3))
  = Some (fmean [float_literal (301 # 10); float_literal (301 # 10);
                 float_literal (301 # 10)])
  /\ (float_literal (301 # 10)
      < fmean [float_literal (301 # 10); float_literal (301 # 10);
               float_literal (301 # 10)])%Q.
Proof. split; vm_compute; reflexivity. Qed.

(** A tie goes to the even neighbour, and the smallest doubles are
    multiples of [2^-1074]. *)
Example ties_and_subnormals_agree :
  Q_of_SF (SF_of_int (2 ^ 53 + 1)) = Some (float_of_int (2 ^ 53 + 1))
  /\ float_of_int (2 ^ 53 + 1) = inject_Z (2 ^ 53)
  /\ float_of_int (2 ^ 53 + 3) = inject_Z (2 ^ 53 + 4)
  /\ Q_of_SF (binary_normalize 53 1024 5 (-1076) false)
     = Some (round_double (5 # 2 ^ 1076))
  /\ round_double (5 # 2 ^ 1076) = (1 # 2 ^ 1074)%Q.
Proof. repeat split; vm_compute; reflexivity. Qed.

(** ** The elapsed time of the interval test *)

Lemma float_of_int_1000 : (float_of_int 1000 == 1000)%Q.
Proof. vm_compute. reflexivity. Qed.

Lemma elapsed_mono d1 d2 :
  d1 <= d2 ->
  (fmul (total_seconds d1) (float_of_int 1000)
   <= fmul (total_seconds d2) (float_of_int 1000))%Q.
Proof.
  intros H. unfold fmul, total_seconds, int_truediv.
  apply round_double_mono. rewrite float_of_int_1000.
  apply Qmult_le_compat_r; [|discriminate].
  apply round_double_mono. apply Qmult_le_compat_r; [|discriminate].
  by rewrite <- Zle_Qle.
Qed.

Lemma round_double_pow2_33 : (round_double (pow2 33) == pow2 33)%Q.
Proof. vm_compute. reflexivity. Qed.

Lemma round_double_opp_pow2_33 : (round_double (- pow2 33) == - pow2 33)%Q.
Proof. vm_compute. reflexivity. Qed.

(** The elapsed milliseconds computed in doubles reach [m] only when
    the exact difference does, as long as [m] is below [2^33] seconds:
    the two roundings move the value by less than the millisecond's
    thousandth that one microsecond makes. *)
Lemma elapsed_sound (m d : Z) :
  - (1000 * 2 ^ 33) < m <= 1000 * 2 ^ 33 ->
  (inject_Z m <= fmul (total_seconds d) (float_of_int 1000))%Q ->
  1000 * m <= d.
Proof.
  intros Hm Hle. destruct (Z_le_gt_dec (1000 * m) d) as [|Hgt]; [assumption|exfalso].
  pose proof (elapsed_mono d (1000 * m - 1) ltac:(lia)) as Hmono.
  assert (Hbad : (fmul (total_seconds (1000 * m - 1)) (float_of_int 1000)
                  < inject_Z m)%Q); [|lra].
  clear Hmono Hle Hgt d.
  unfold fmul, total_seconds, int_truediv.
  set (x := (inject_Z (1000 * m - 1) / inject_Z 1000000)%Q).
  assert (Ex : (x == inject_Z m * (1 # 1000) - (1 # 1000000))%Q).
  { unfold x, Qeq, Qdiv, Qmult, Qinv, Qminus, Qplus, Qopp, inject_Z. simpl. lia. }
  assert (Hm1 : (1 - 1000 * pow2 33 <= inject_Z m)%Q).
  { change (1 - 1000 * pow2 33)%Q with (inject_Z (1 - 1000 * 2 ^ 33)).
    rewrite <- Zle_Qle. lia. }
  assert (Hm2 : (inject_Z m <= 1000 * pow2 33)%Q).
  { change (1000 * pow2 33)%Q with (inject_Z (1000 * 2 ^ 33)).
    rewrite <- Zle_Qle. lia. }
  assert (P33 : (pow2 33 == 8589934592)%Q) by reflexivity.
  assert (Hx : (Qabs x < pow2 33)%Q).
  { apply Qabs_Qlt_condition. rewrite Ex, P33 in *. split; lra. }
  pose proof (round_double_error x 33 ltac:(lia) Hx) as Hex.
  change (pow2 (33 - 54)) with (1 # 2097152)%Q in Hex.
  apply Qabs_Qle_condition in Hex.
  assert (Hrx : (- pow2 33 <= round_double x <= pow2 33)%Q).
  { apply Qabs_Qlt_condition in Hx. split.
    - rewrite <- round_double_opp_pow2_33. apply round_double_mono. lra.
    - rewrite <- round_double_pow2_33. apply round_double_mono. lra. }
  set (y := (round_double x * float_of_int 1000)%Q).
  assert (Ey : (y == round_double x * 1000)%Q).
  { unfold y. by rewrite float_of_int_1000. }
  assert (Hy : (Qabs y < pow2 43)%Q).
  { apply Qabs_Qlt_condition. rewrite Ey.
    assert (P43 : (pow2 43 == 8796093022208)%Q) by reflexivity.
    rewrite P33 in Hrx. rewrite P43. split; lra. }
  pose proof (round_double_error y 43 ltac:(lia) Hy) as Hey.
  change (pow2 (43 - 54)) with (1 # 2048)%Q in Hey.
  apply Qabs_Qle_condition in Hey.
  clearbody y x. lra.
Qed.

(** ** The weight state machine *)

(** One microsecond beyond the interval is enough for the test to
    pass. *)
Lemma elapsed_complete (m d : Z) :
  - (1000 * 2 ^ 33) < m <= 1000 * 2 ^ 33 ->
  1000 * m + 1 <= d ->
  (inject_Z m <= fmul (total_seconds d) (float_of_int 1000))%Q.
Proof.
  intros Hm Hd.
  eapply Qle_trans; [|apply (elapsed_mono (1000 * m + 1) d Hd)].
  clear Hd d.
  destruct (Z.eq_dec m (1000 * 2 ^ 33)) as [->|Hne].
  { vm_compute. discriminate. }
  unfold fmul, total_seconds, int_truediv.
  set (x := (inject_Z (1000 * m + 1) / inject_Z 1000000)%Q).
  assert (Ex : (x == inject_Z m * (1 # 1000) + (1 # 1000000))%Q).
  { unfold x, Qeq, Qdiv, Qmult, Qinv, Qminus, Qplus, Qopp, inject_Z. simpl. lia. }
  assert (Hm1 : (1 - 1000 * pow2 33 <= inject_Z m)%Q).
  { change (1 - 1000 * pow2 33)%Q with (inject_Z (1 - 1000 * 2 ^ 33)).
    rewrite <- Zle_Qle. lia. }
  assert (Hm2 : (inject_Z m <= 1000 * pow2 33 - 1)%Q).
  { change (1000 * pow2 33 - 1)%Q with (inject_Z (1000 * 2 ^ 33 - 1)).
    rewrite <- Zle_Qle. lia. }
  assert (P33 : (pow2 33 == 8589934592)%Q) by reflexivity.
  assert (Hx : (Qabs x < pow2 33)%Q).
  { apply Qabs_Qlt_condition. rewrite Ex, P33 in *. split; lra. }
  pose proof (round_double_error x 33 ltac:(lia) Hx) as Hex.
  change (pow2 (33 - 54)) with (1 # 2097152)%Q in Hex.
  apply Qabs_Qle_condition in Hex.
  assert (Hrx : (- pow2 33 <= round_double x <= pow2 33)%Q).
  { apply Qabs_Qlt_condition in Hx. split.
    - rewrite <- round_double_opp_pow2_33. apply round_double_mono. lra.
    - rewrite <- round_double_pow2_33. apply round_double_mono. lra. }
  set (y := (round_double x * float_of_int 1000)%Q).
  assert (Ey : (y == round_double x * 1000)%Q).
  { unfold y. by rewrite float_of_int_1000. }
  assert (Hy : (Qabs y < pow2 43)%Q).
  { apply Qabs_Qlt_condition. rewrite Ey.
    assert (P43 : (pow2 43 == 8796093022208)%Q) by reflexivity.
    rewrite P33 in Hrx. rewrite P43. split; lra. }
  pose proof (round_double_error y 43 ltac:(lia) Hy) as Hey.
  change (pow2 (43 - 54)) with (1 # 2048)%Q in Hey.
  apply Qabs_Qle_condition in Hey.
  clearbody y x. lra.
Qed.

Example cold_start_decisions :
  decisions default_settings [reading_ms 35 0; reading_ms 35 100]
  = [ {| d_state := IDLE; scan_requested := false; transition := NONE |};
      {| d_state := ACTIVE; scan_requested := true; transition := IDLE_to_ACTIVE |} ].
Proof. vm_compute. reflexivity. Qed.

Section StateMachineFacts.
Variable cfg : Settings.

(** The interval test of the code, in microseconds: with an interval
    in range, it passes only when the interval has elapsed. *)
Lemma scan_interval_respected_sound m now :
  interval_in_range cfg ->
  _scan_interval_respected cfg m now = true ->
  match _last_scan_at m with
  | None => True
  | Some last => 1000 * min_scan_interval_ms cfg <= now - last
  end.
Proof.
  intros Hrange. unfold _scan_interval_respected.
  destruct (_last_scan_at m) as [last|]; [|tauto].
  rewrite Qge_bool_iff. by apply elapsed_sound.
Qed.

(** What one step does to the last-scan registers. *)
Lemma process_registers m r m' d :
  process cfg m r = (m', d) ->
  if scan_requested d
  then _last_scan_at m' = Some (timestamp r)
       /\ _scan_interval_respected cfg m (timestamp r) = true
  else _last_scan_at m' = _last_scan_at m
       /\ _last_scan_weight m' = _last_scan_weight m.
Proof.
  unfold process, _mark_scan_if_allowed.
  set (m1 := set_history m _).
  assert (Hi : forall s, _scan_interval_respected cfg (set_state m1 s) (timestamp r)
               = _scan_interval_respected cfg m (timestamp r)) by reflexivity.
  assert (Hi1 : _scan_interval_respected cfg m1 (timestamp r)
               = _scan_interval_respected cfg m (timestamp r)) by reflexivity.
  destruct (_stable_weight cfg m1) as [w|]; [|intros [= <- <-]; simpl; auto].
  destruct (state m1).
  - destruct (Qge_bool w (min_fruit_weight cfg)); [|intros [= <- <-]; simpl; auto].
    rewrite Hi.
    destruct (_scan_interval_respected cfg m (timestamp r)) eqn:E;
      intros [= <- <-]; simpl; auto.
  - destruct (Qlt_bool w (min_fruit_weight cfg)); [intros [= <- <-]; simpl; auto|].
    rewrite Hi1.
    destruct (_significant_delta cfg m1 w); simpl;
      [|intros [= <- <-]; simpl; auto].
    destruct (_scan_interval_respected cfg m (timestamp r)) eqn:E;
      intros [= <- <-]; simpl; auto.
Qed.

Lemma run_app m rs1 rs2 :
  run cfg m (rs1 ++ rs2) =
  let '(m1, ds1) := run cfg m rs1 in
  let '(m2, ds2) := run cfg m1 rs2 in
  (m2, ds1 ++ ds2).
Proof.
  revert m. induction rs1 as [|r rs1 IH]; intros m; simpl.
  - destruct (run cfg m rs2); reflexivity.
  - destruct (process cfg m r) as [m1 d]. rewrite IH.
    destruct (run cfg m1 rs1) as [m2 ds1].
    destruct (run cfg m2 rs2) as [m3 ds2]. reflexivity.
Qed.

Lemma run_length m rs : length (snd (run cfg m rs)) = length rs.
Proof.
  revert m. induction rs as [|r rs IH]; intros m; simpl; [reflexivity|].
  destruct (process cfg m r) as [m1 d]. specialize (IH m1).
  destruct (run cfg m1 rs). simpl in *. congruence.
Qed.

(** A stretch of readings without a scan request keeps [_last_scan_at]. *)
Lemma run_quiet m rs :
  (forall k dk, snd (run cfg m rs) !! k = Some dk -> scan_requested dk = false) ->
  _last_scan_at (fst (run cfg m rs)) = _last_scan_at m.
Proof.
  revert m. induction rs as [|r rs IH]; intros m Hq; simpl; [reflexivity|].
  simpl in Hq. destruct (process cfg m r) as [m1 d] eqn:Hp.
  specialize (IH m1). destruct (run cfg m1 rs) as [m2 ds]. simpl in *.
  pose proof (process_registers _ _ _ _ Hp) as Hr.
  rewrite (Hq 0%nat d eq_refl) in Hr. destruct Hr as [Hr _].
  rewrite <- Hr. apply IH. intros k dk Hk. apply (Hq (S k) dk Hk).
Qed.

Lemma machine_before_S rs k r :
  rs !! k = Some r ->
  machine_before cfg rs (S k) = fst (process cfg (machine_before cfg rs k) r).
Proof.
  intros Hk. unfold machine_before. rewrite (take_S_r _ _ _ Hk), run_app.
  destruct (run cfg init_machine (take k rs)) as [m1 ds1]. simpl.
  destruct (process cfg m1 r). reflexivity.
Qed.

Lemma decisions_lookup rs k r :
  rs !! k = Some r ->
  decisions cfg rs !! k = Some (snd (process cfg (machine_before cfg rs k) r)).
Proof.
  intros Hk. unfold decisions, machine_before.
  rewrite <- (take_drop_middle _ _ _ Hk) at 1. rewrite run_app.
  pose proof (run_length init_machine (take k rs)) as Hlen.
  destruct (run cfg init_machine (take k rs)) as [m1 ds1]. simpl in *.
  destruct (process cfg m1 r) as [m2 d].
  destruct (run cfg m2 (drop (S k) rs)) as [m3 ds3]. simpl.
  apply list_lookup_middle. rewrite Hlen, length_take.
  apply lookup_lt_Some in Hk. lia.
Qed.

(** Between a scan at index [i] and the next one, [_last_scan_at] holds
    the timestamp of reading [i]. *)
Lemma last_scan_at_held rs i ri di :
  rs !! i = Some ri -> decisions cfg rs !! i = Some di ->
  scan_requested di = true ->
  forall n,
    (i + n < length rs)%nat ->
    (forall k dk, (i < k <= i + n)%nat -> decisions cfg rs !! k = Some dk ->
                  scan_requested dk = false) ->
    _last_scan_at (machine_before cfg rs (S (i + n))) = Some (timestamp ri).
Proof.
  intros Hri Hdi Hscan. induction n as [|n IH]; intros Hlen Hq.
  - rewrite Nat.add_0_r, (machine_before_S _ _ _ Hri).
    rewrite (decisions_lookup _ _ _ Hri) in Hdi. injection Hdi as <-.
    pose proof (process_registers (machine_before cfg rs i) ri _ _
                  (surjective_pairing _)) as Hr.
    rewrite Hscan in Hr. tauto.
  - destruct (lookup_lt_is_Some_2 rs (i + S n)%nat Hlen) as [r Hr].
    rewrite (machine_before_S _ _ _ Hr).
    pose proof (process_registers (machine_before cfg rs (i + S n)) r _ _
                  (surjective_pairing _)) as Hp.
    rewrite (Hq (i + S n)%nat _ ltac:(lia) (decisions_lookup _ _ _ Hr)) in Hp.
    destruct Hp as [-> _]. replace (i + S n)%nat with (S (i + n)) by lia.
    apply IH; [lia|]. intros k dk Hk. apply Hq. lia.
Qed.

End StateMachineFacts.

(** With [min_scan_interval_ms = 10^14] the machine requests a scan at
    100 ms and the next one [10^17 - 1] microseconds later, one
    microsecond short of the interval: [(10^17 - 1) / 10^6] rounds to
    [10^11] seconds, and the test [elapsed >= min_scan_interval_ms]
    passes. *)
Lemma scans_one_microsecond_early :
  let cfg := with_min_scan_interval (10 ^ 14) in
  let readings := second_scan_after (10 ^ 17 - 1) in
  map scan_requested (decisions cfg readings) = [false; true; false; true]
  /\ (exists ri rj,
        readings !! 1%nat = Some ri /\ readings !! 3%nat = Some rj
        /\ timestamp rj - timestamp ri = 10 ^ 17 - 1
        /\ timestamp rj - timestamp ri < 1000 * min_scan_interval_ms cfg)
  /\ _scan_interval_respected cfg (machine_before cfg readings 3)
       (100000 + (10 ^ 17 - 1)) = true.
Proof.
  split; [vm_compute; reflexivity|]. split.
  - eexists _, _. split; [reflexivity|]. split; [reflexivity|].
    split; vm_compute; reflexivity.
  - vm_compute. reflexivity.
Qed.

(** C2 (amended). Minimum scan interval. Let [min_scan_interval_ms] be
    below [2^33] seconds. For every sequence of readings fed to a fresh
    machine, (1) two consecutive decisions with [scan_requested = true],
    at readings [ri] and [rj], lie at least [min_scan_interval_ms] apart
    (timestamps are in microseconds, hence the factor 1000); and (2)
    whenever a decision requests a scan, the machine's [_last_scan_at]
    before that step was null or at least [min_scan_interval_ms] older
    than the reading. Neither part needs the timestamps to be
    non-decreasing. The bound on the interval is needed because the
    code compares the elapsed time in doubles. *)
Theorem minimum_scan_interval (cfg : Settings) (readings : list WeightReading) :
  interval_in_range cfg ->
  (forall (i j : nat) ri rj di dj,
     readings !! i = Some ri -> readings !! j = Some rj ->
     decisions cfg readings !! i = Some di ->
     decisions cfg readings !! j = Some dj ->
     (i < j)%nat ->
     scan_requested di = true -> scan_requested dj = true ->
     (forall k dk, (i < k < j)%nat -> decisions cfg readings !! k = Some dk ->
                   scan_requested dk = false) ->
     1000 * min_scan_interval_ms cfg <= timestamp rj - timestamp ri)
  /\ (forall (k : nat) rk dk,
     readings !! k = Some rk -> decisions cfg readings !! k = Some dk ->
     scan_requested dk = true ->
     match _last_scan_at (machine_before cfg readings k) with
     | None => True
     | Some last => 1000 * min_scan_interval_ms cfg <= timestamp rk - last
     end).
Proof.
  intros Hrange.
  assert (Hstep : forall (k : nat) rk dk,
     readings !! k = Some rk -> decisions cfg readings !! k = Some dk ->
     scan_requested dk = true ->
     match _last_scan_at (machine_before cfg readings k) with
     | None => True
     | Some last => 1000 * min_scan_interval_ms cfg <= timestamp rk - last
     end).
  { intros k rk dk Hrk Hdk Hscan.
    rewrite (decisions_lookup _ _ _ _ Hrk) in Hdk. injection Hdk as <-.
    pose proof (process_registers cfg (machine_before cfg readings k) rk _ _
                  (surjective_pairing _)) as Hr.
    rewrite Hscan in Hr. destruct Hr as [_ Hr].
    exact (scan_interval_respected_sound cfg _ _ Hrange Hr). }
  split; [|exact Hstep].
  intros i j ri rj di dj Hri Hrj Hdi Hdj Hij Hsi Hsj Hquiet.
  specialize (Hstep j rj dj Hrj Hdj Hsj).
  assert (Hheld : _last_scan_at (machine_before cfg readings j) = Some (timestamp ri)).
  { replace j with (S (i + (j - S i)))%nat by lia.
    apply (last_scan_at_held cfg readings i ri di Hri Hdi Hsi).
    - apply lookup_lt_Some in Hrj. lia.
    - intros k dk Hk. apply Hquiet. lia. }
  rewrite Hheld in Hstep. exact Hstep.
Qed.

(** The bound on the interval is sharp to within a millionth: just
    above [2^33] seconds a second scan passes the test one microsecond
    early. Below the bound the rounding can only refuse: with an
    interval of 1001 ms, a reading exactly 1001 ms after the last scan
    does not pass. *)
Example interval_bound_is_sharp :
  let cfg := with_min_scan_interval 8589939626389 in
  1000 * 2 ^ 33 < min_scan_interval_ms cfg < 1000 * 2 ^ 33 + 6000000
  /\ map scan_requested
       (decisions cfg (second_scan_after (1000 * min_scan_interval_ms cfg - 1)))
     = [false; true; false; true].
Proof. split; [vm_compute; split; reflexivity|vm_compute; reflexivity]. Qed.

Example interval_test_can_refuse :
  interval_in_range (with_min_scan_interval 1001)
  /\ map scan_requested
       (decisions (with_min_scan_interval 1001) (second_scan_after 1001000))
     = [false; true; false; false]
  /\ map scan_requested
       (decisions (with_min_scan_interval 1001) (second_scan_after 1001001))
     = [false; true; false; true].
Proof.
  split; [unfold interval_in_range; simpl; lia|].
  split; vm_compute; reflexivity.
Qed.

Lemma default_interval_in_range : interval_in_range default_settings.
Proof. unfold interval_in_range. simpl. lia. Qed.

(** A run of four readings in which the scans at indices 1 and 3 are
    consecutive. *)
Lemma minimum_scan_interval_witness :
  1000 * min_scan_interval_ms default_settings
  <= timestamp (reading_ms 62 3300) - timestamp (reading_ms 35 100).
Proof.
  pose (rs := [reading_ms 35 0; reading_ms 35 100;
               reading_ms 60 3100; reading_ms 62 3300]).
  apply (proj1 (minimum_scan_interval default_settings rs
                  default_interval_in_range) 1%nat 3%nat
           (reading_ms 35 100) (reading_ms 62 3300)
           {| d_state := ACTIVE; scan_requested := true; transition := IDLE_to_ACTIVE |}
           {| d_state := ACTIVE; scan_requested := true; transition := NONE |}).
  - reflexivity.
  - reflexivity.
  - vm_compute. reflexivity.
  - vm_compute. reflexivity.
  - lia.
  - reflexivity.
  - reflexivity.
  - intros k dk Hk. assert (k = 2%nat) as -> by lia.
    vm_compute. intros [= <-]. reflexivity.
Defined.

(** The cold-start scenario as the specification words it fails: none of
    the three decisions requests a scan. *)
Lemma cold_start_no_trigger_in_sequence :
  ~ (decisions default_settings cold_start_readings !! 0%nat = Some (no_decision IDLE)
     /\ exists k : nat,
          (0 < k)%nat
          /\ decisions default_settings cold_start_readings !! k
             = Some {| d_state := ACTIVE; scan_requested := true;
                       transition := IDLE_to_ACTIVE |}).
Proof.
  intros [_ [k [Hk H]]].
  destruct k as [|[|[|k]]]; vm_compute in H; discriminate.
Qed.

(** C8 (amended). With the default configuration the readings (0 g, 0),
    (35 g, 200 ms), (35 g, 300 ms) give IDLE / no scan / NONE three
    times: the 0 g reading is still inside the 400 ms window, so the
    window's range 35 exceeds the noise epsilon 5. The decision ACTIVE /
    scan requested / IDLE->ACTIVE comes with a further stable reading
    once the 0 g reading has left the window, here (35 g, 500 ms). *)
Theorem cold_start_scenario :
  decisions default_settings cold_start_readings
  = [no_decision IDLE; no_decision IDLE; no_decision IDLE]
  /\ stable_weight_of default_settings
       (machine_before default_settings cold_start_readings 2)
       (reading_ms 35 300) = None
  /\ decisions default_settings (cold_start_readings ++ [reading_ms 35 500])
     = [no_decision IDLE; no_decision IDLE; no_decision IDLE;
        {| d_state := ACTIVE; scan_requested := true;
           transition := IDLE_to_ACTIVE |}].
Proof. repeat split; vm_compute; reflexivity. Qed.

(** After a scan at 100 ms and a return to IDLE at 700 ms, the
    IDLE->ACTIVE step at 1300 ms has stable weight 50 g but leaves
    [_last_scan_weight] at 35 g: the minimum interval has not elapsed. *)
Lemma relatch_skipped_within_interval :
  let m := machine_before default_settings quick_replacement_readings 5 in
  let r := reading_ms 50 1300 in
  decisions default_settings quick_replacement_readings
  = [no_decision IDLE;
     {| d_state := ACTIVE; scan_requested := true; transition := IDLE_to_ACTIVE |};
     no_decision ACTIVE;
     {| d_state := IDLE; scan_requested := false; transition := ACTIVE_to_IDLE |};
     no_decision IDLE;
     {| d_state := ACTIVE; scan_requested := false; transition := IDLE_to_ACTIVE |}]
  /\ transition (snd (process default_settings m r)) = IDLE_to_ACTIVE
  /\ exists w, stable_weight_of default_settings m r = Some w
               /\ (w == 50)%Q
               /\ ~ (_last_scan_weight (fst (process default_settings m r)) == w)%Q.
Proof.
  split; [vm_compute; reflexivity|].
  split; [vm_compute; reflexivity|].
  eexists. split; [vm_compute; reflexivity|].
  split; [reflexivity|]. vm_compute. discriminate.
Qed.

(** C9 (amended). A step that produces ACTIVE->IDLE leaves
    [_last_scan_weight] and [_last_scan_at] unchanged. A step that produces
    IDLE->ACTIVE has a stable weight [w]; when the minimum scan interval
    is respected at that step it requests a scan and latches
    [_last_scan_weight = w] and [_last_scan_at] = the reading's timestamp;
    otherwise it requests no scan and leaves both registers unchanged. *)
Theorem idle_transitions_and_latch (cfg : Settings) (m : WeightStateMachine)
    (r : WeightReading) (m' : WeightStateMachine) (d : ScanDecision) :
  process cfg m r = (m', d) ->
  (transition d = ACTIVE_to_IDLE ->
     _last_scan_weight m' = _last_scan_weight m
     /\ _last_scan_at m' = _last_scan_at m)
  /\ (transition d = IDLE_to_ACTIVE ->
      exists w, stable_weight_of cfg m r = Some w
        /\ if _scan_interval_respected cfg m (timestamp r)
           then scan_requested d = true
                /\ _last_scan_weight m' = w
                /\ _last_scan_at m' = Some (timestamp r)
           else scan_requested d = false
                /\ _last_scan_weight m' = _last_scan_weight m
                /\ _last_scan_at m' = _last_scan_at m).
Proof.
  unfold process, stable_weight_of, _mark_scan_if_allowed.
  set (m1 := set_history m _).
  change (_scan_interval_respected cfg (set_state m1 ACTIVE) (timestamp r))
    with (_scan_interval_respected cfg m (timestamp r)).
  change (_scan_interval_respected cfg m1 (timestamp r))
    with (_scan_interval_respected cfg m (timestamp r)).
  destruct (_stable_weight cfg m1) as [w|];
    [|intros [= <- <-]; split; discriminate].
  destruct (state m1).
  - destruct (Qge_bool w (min_fruit_weight cfg));
      [|intros [= <- <-]; split; discriminate].
    destruct (_scan_interval_respected cfg m (timestamp r));
      intros [= <- <-]; (split; [discriminate|]); intros _; exists w; simpl; auto.
  - destruct (Qlt_bool w (min_fruit_weight cfg)).
    + intros [= <- <-]. split; [simpl; auto|discriminate].
    + destruct (_significant_delta cfg m1 w && _scan_interval_respected cfg m (timestamp r));
        intros [= <- <-]; split; discriminate.
Qed.

(** The return to IDLE at 3600 ms, and the second placement at 4200 ms,
    which re-latches 50 g. *)
Lemma idle_transitions_and_latch_witness :
  let rs := [reading_ms 35 0; reading_ms 35 100; reading_ms 0 3500;
             reading_ms 0 3600; reading_ms 50 4100; reading_ms 50 4200] in
  let m3 := machine_before default_settings rs 3 in
  let m5 := machine_before default_settings rs 5 in
  (_last_scan_weight (fst (process default_settings m3 (reading_ms 0 3600)))
   = _last_scan_weight m3
   /\ _last_scan_at (fst (process default_settings m3 (reading_ms 0 3600)))
      = _last_scan_at m3)
  /\ exists w,
       stable_weight_of default_settings m5 (reading_ms 50 4200) = Some w
       /\ _last_scan_weight (fst (process default_settings m5 (reading_ms 50 4200))) = w
       /\ _last_scan_at (fst (process default_settings m5 (reading_ms 50 4200)))
          = Some 4200000.
Proof.
  intros rs m3 m5. split.
  - exact (proj1 (idle_transitions_and_latch default_settings m3
                    (reading_ms 0 3600) _ _ (surjective_pairing _))
             ltac:(vm_compute; reflexivity)).
  - destruct (proj2 (idle_transitions_and_latch default_settings m5
                       (reading_ms 50 4200) _ _ (surjective_pairing _))
                ltac:(vm_compute; reflexivity))
      as (w & Hw & Hlatch).
    exists w. split; [exact Hw|].
    replace (_scan_interval_respected default_settings m5
               (timestamp (reading_ms 50 4200)))
      with true in Hlatch by (vm_compute; reflexivity).
    destruct Hlatch as (_ & Hweight & Hat). split; assumption.
Defined.

(** ** The detection filters *)

Lemma filter_sublist {A} (f : A -> bool) (l : list A) :
  sublist (List.filter f l) l.
Proof.
  induction l as [|a l IH]; simpl; [constructor|].
  destruct (f a); [apply sublist_skip | apply sublist_cons]; exact IH.
Qed.

Section FilterFacts.
Variable settings : Settings.

Lemma class_threshold_loop_spec image detections valid :
  exists tr,
    class_threshold_loop settings image detections valid
    = (tr, Ok (valid ++ List.filter (passes_class_threshold settings) detections))
    /\ key_events tr = [].
Proof.
  revert valid. induction detections as [|d rest IH]; intros valid; simpl.
  - exists []. unfold ret. by rewrite app_nil_r.
  - unfold passes_class_threshold at 1.
    destruct (Qge_bool _ _).
    + destruct (IH (valid ++ [d])) as [tr [-> Hq]]. exists tr.
      by rewrite <- app_assoc.
    + destruct (IH valid) as [tr [Htr Hq]].
      destruct (log_discarded_detections_detail settings).
      * unfold bind, log, emit. rewrite Htr. by eexists.
      * rewrite Htr. by eexists.
Qed.

Lemma filter_by_class_threshold_spec detections image :
  exists tr,
    _filter_detections_by_class_threshold settings detections image
    = (tr, Ok (List.filter (passes_class_threshold settings) detections))
    /\ key_events tr = [].
Proof.
  unfold _filter_detections_by_class_threshold.
  destruct detections as [|d rest]; [by exists []|].
  destruct (class_threshold_loop_spec image (d :: rest) []) as [tr [-> Hq]].
  unfold bind, log, emit, ret. simpl. eexists. split; [reflexivity|].
  unfold key_events in *. by rewrite List.filter_app, Hq.
Qed.

Lemma bbox_area_loop_spec image image_area detections valid :
  exists tr,
    bbox_area_loop settings image image_area
      (fmul (float_of_int image_area) (fruit_detector_min_bbox_area_ratio settings))
      detections valid
    = (tr, Ok (valid ++ List.filter (passes_bbox_area settings image_area) detections))
    /\ key_events tr = [].
Proof.
  revert valid. induction detections as [|d rest IH]; intros valid; simpl.
  - exists []. unfold ret. by rewrite app_nil_r.
  - unfold passes_bbox_area at 1.
    destruct (Qge_bool _ _).
    + destruct (IH (valid ++ [d])) as [tr [-> Hq]]. exists tr.
      by rewrite <- app_assoc.
    + destruct (IH valid) as [tr [Htr Hq]].
      destruct (log_discarded_detections_detail settings).
      * unfold bind, log, emit. rewrite Htr. by eexists.
      * rewrite Htr. by eexists.
Qed.

Lemma filter_by_bbox_area_spec detections image_area image :
  exists tr,
    _filter_detections_by_bbox_area settings detections image_area image
    = (tr, Ok (List.filter (passes_bbox_area settings image_area) detections))
    /\ key_events tr = [].
Proof.
  unfold _filter_detections_by_bbox_area.
  destruct detections as [|d rest]; [by exists []|].
  destruct (bbox_area_loop_spec image image_area (d :: rest) []) as [tr [-> Hq]].
  unfold bind, log, emit, ret. simpl. eexists. split; [reflexivity|].
  unfold key_events in *. by rewrite List.filter_app, Hq.
Qed.

End FilterFacts.

(** C10. Each of the two detection filters returns normally, and what it
    returns is an order-preserving sublist of its input ([sublist]: the
    input with some elements left out, nothing duplicated, changed or
    reordered). *)
Theorem filters_return_sublists (settings : Settings)
    (detections : list FruitDetection) (image_area : Z) (image : string) :
  (exists kept,
     outcome_of (_filter_detections_by_bbox_area settings detections image_area image)
     = Ok kept
     /\ sublist kept detections)
  /\ (exists kept,
        outcome_of (_filter_detections_by_class_threshold settings detections image)
        = Ok kept
        /\ sublist kept detections).
Proof.
  split.
  - destruct (filter_by_bbox_area_spec settings detections image_area image)
      as [tr [-> _]].
    eexists. split; [reflexivity|]. apply filter_sublist.
  - destruct (filter_by_class_threshold_spec settings detections image)
      as [tr [-> _]].
    eexists. split; [reflexivity|]. apply filter_sublist.
Qed.

(** ** The pipeline monad *)

Lemma trace_bind {A B} (m : M A) (k : A -> M B) :
  trace_of (bind m k)
  = trace_of m ++ match outcome_of m with
                  | Ok a => trace_of (k a)
                  | Raise _ => []
                  end.
Proof.
  destruct m as [tr [a|e]]; simpl.
  - destruct (k a); reflexivity.
  - by rewrite app_nil_r.
Qed.

Lemma outcome_bind {A B} (m : M A) (k : A -> M B) :
  outcome_of (bind m k)
  = match outcome_of m with
    | Ok a => outcome_of (k a)
    | Raise e => Raise e
    end.
Proof. destruct m as [tr [a|e]]; simpl; [destruct (k a)|]; reflexivity. Qed.

(** ** The fallback decision *)

Lemma default_settings_valid : Settings_valid default_settings.
Proof. constructor; vm_compute; solve [reflexivity | discriminate]. Qed.

(** Python's [int] and the floor agree wherever the count test looks. *)
Lemma int_of_float_floor (q : Q) (n : Z) :
  (2 <=? int_of_float q) && (n <? int_of_float q - 1) = true
  <-> 2 <= Qfloor q /\ n < Qfloor q - 1.
Proof.
  destruct q as [num den]. unfold int_of_float, Qfloor. simpl.
  rewrite andb_true_iff, Z.leb_le, Z.ltb_lt.
  destruct (Z_le_gt_dec 0 num) as [Hnum|Hnum].
  - rewrite Z.quot_div_nonneg by lia. tauto.
  - assert (num ÷ Z.pos den <= 0).
    { rewrite <- (Z.opp_involutive num), Z.quot_opp_l by lia.
      pose proof (Z.quot_pos (- num) (Z.pos den)). lia. }
    assert (num / Z.pos den < 0) by (apply Z.div_lt_upper_bound; lia).
    lia.
Qed.

Lemma forallb_below_guard (guard : Q) (l : list FruitDetection) :
  forallb (fun d => Qlt_bool (confidence d) guard) l = true
  <-> Forall (fun d => (confidence d < guard)%Q) l.
Proof.
  induction l as [|d l IH]; simpl.
  - split; [constructor|reflexivity].
  - rewrite andb_true_iff, Qlt_bool_iff, IH, Forall_cons. tauto.
Qed.

(** The count of the third condition is taken from the quotient as the
    double division gives it. With 31.2 g on the scale and 5.2 g
    expected per fruit the exact quotient of the two doubles is just
    below 6, so its floor is 5 and four detections are not "fewer than
    expected - 1"; the division rounds the quotient to 6.0, the code
    counts 6 and answers [expected_more_fruits_by_weight]. And with
    [2^1023] g on the scale and [2^-10] g expected per fruit the
    quotient is beyond the doubles: the call raises instead of
    returning a reason or none. *)
Lemma expected_count_follows_the_double_quotient :
  let settings := with_expected_weight_per_fruit (float_literal (52 # 10)) in
  let weight := float_literal (312 # 10) in
  (Settings_valid settings
   /\ (min_fruit_weight settings <= weight)%Q
   /\ Qfloor (weight / fruit_expected_weight_per_fruit settings) = 5
   /\ ~ (Z.of_nat (length four_cherries)
         < Qfloor (weight / fruit_expected_weight_per_fruit settings) - 1)
   /\ int_of_float (fdiv weight (fruit_expected_weight_per_fruit settings)) = 6
   /\ outcome_of (_should_fallback settings four_cherries four_cherries weight "img-1")
      = Ok (Some expected_more_fruits_by_weight))
  /\ (Settings_valid (with_expected_weight_per_fruit (pow2 (-10)))
      /\ outcome_of (_should_fallback (with_expected_weight_per_fruit (pow2 (-10)))
                       four_cherries four_cherries (pow2 1023) "img-1")
         = Raise (OverflowError "cannot convert float infinity to integer")).
Proof.
  split.
  - split; [constructor; vm_compute; solve [reflexivity | discriminate]|].
    split; [vm_compute; discriminate|].
    split; [vm_compute; reflexivity|].
    split; [vm_compute; discriminate|].
    split; vm_compute; reflexivity.
  - split; [constructor; vm_compute; solve [reflexivity | discriminate]|].
    vm_compute. reflexivity.
Qed.

(** C4 (amended). [_should_fallback] returns the reason of the first
    condition that holds, in the order (1) weight at least
    [min_fruit_weight] and nothing left after filtering, (2) a non-empty
    raw set all below the confidence guard, (3) weight at least
    [min_fruit_weight], expected count at least 2 and fewer than
    expected - 1 detections left; and no reason when none holds. The
    expected count is the integer part of the quotient weight /
    expected weight per fruit as the double division rounds it. When
    the third condition is reached with a quotient beyond the range of
    the doubles, [int()] raises [OverflowError]. [Settings_valid] is
    what pydantic enforces on the settings (the expected weight per
    fruit is positive). *)
Theorem should_fallback_first_matching_reason (settings : Settings)
    (filtered raw : list FruitDetection) (weight : Q) (image : string) :
  Settings_valid settings ->
  let heavy := (min_fruit_weight settings <= weight)%Q in
  let c1 := heavy /\ filtered = [] in
  let c2 := raw <> []
            /\ Forall (fun d => (confidence d
                                 < fruit_detector_confidence_guard settings)%Q) raw in
  let quotient := fdiv weight (fruit_expected_weight_per_fruit settings) in
  let expected := Qfloor quotient in
  let c3 := heavy /\ 2 <= expected /\ Z.of_nat (length filtered) < expected - 1 in
  let answer := outcome_of (_should_fallback settings filtered raw weight image) in
  (c1 -> answer = Ok (Some weight_indicates_fruit_but_no_detections))
  /\ (~ c1 -> c2 -> answer = Ok (Some all_detections_below_confidence_guard))
  /\ (~ c1 -> ~ c2 -> heavy -> is_infinite quotient = true ->
      answer = Raise (OverflowError "cannot convert float infinity to integer"))
  /\ (~ c1 -> ~ c2 -> (heavy -> is_infinite quotient = false) -> c3 ->
      answer = Ok (Some expected_more_fruits_by_weight))
  /\ (~ c1 -> ~ c2 -> (heavy -> is_infinite quotient = false) -> ~ c3 ->
      answer = Ok None).
Proof.
  intros Hvalid heavy c1 c2 quotient expected c3 answer.
  assert (H1 : Qge_bool weight (min_fruit_weight settings)
               && bool_decide (filtered = []) = true <-> c1).
  { rewrite andb_true_iff, Qge_bool_iff, bool_decide_eq_true. reflexivity. }
  assert (H2 : negb (bool_decide (raw = []))
               && forallb (fun d => Qlt_bool (confidence d)
                                      (fruit_detector_confidence_guard settings)) raw
               = true <-> c2).
  { rewrite andb_true_iff, negb_true_iff, bool_decide_eq_false, forallb_below_guard.
    reflexivity. }
  assert (Hpos : Qgt_bool (fruit_expected_weight_per_fruit settings) 0 = true).
  { apply Qgt_bool_iff, Hvalid. }
  assert (H3 : (2 <=? int_of_float quotient)
               && (Z.of_nat (length filtered) <? int_of_float quotient - 1) = true
               <-> 2 <= expected /\ Z.of_nat (length filtered) < expected - 1)
    by apply int_of_float_floor.
  subst answer. unfold _should_fallback.
  destruct (Qge_bool weight (min_fruit_weight settings) && bool_decide (filtered = [])).
  { assert (C1 : c1) by (apply H1; reflexivity).
    repeat split; intros; first [reflexivity | contradiction]. }
  assert (N1 : ~ c1) by (rewrite <- H1; discriminate).
  destruct (negb (bool_decide (raw = [])) && forallb _ raw).
  { assert (C2 : c2) by (apply H2; reflexivity).
    repeat split; intros; first [reflexivity | contradiction]. }
  assert (N2 : ~ c2) by (rewrite <- H2; discriminate).
  rewrite Hpos, andb_true_r.
  destruct (Qge_bool weight (min_fruit_weight settings)) eqn:Eh.
  - assert (Hh : heavy) by (apply Qge_bool_iff; exact Eh).
    rewrite outcome_bind. cbn [lift outcome_of snd]. unfold int_checked.
    fold quotient. destruct (is_infinite quotient) eqn:Ei.
    + split; [intros; contradiction|]. split; [intros; contradiction|].
      split; [reflexivity|].
      split; intros _ _ Hfin; specialize (Hfin Hh); discriminate.
    + split; [intros; contradiction|]. split; [intros; contradiction|].
      split; [intros; discriminate|].
      destruct ((2 <=? int_of_float quotient)
                && (Z.of_nat (length filtered) <? int_of_float quotient - 1)).
      * assert (C3 : c3) by (split; [exact Hh|apply H3; reflexivity]).
        split; intros; [reflexivity|contradiction].
      * assert (N3 : ~ c3) by (intros [_ C]; apply H3 in C; discriminate).
        split; intros; [contradiction|reflexivity].
  - assert (Nh : ~ heavy).
    { intros Hh. apply Qge_bool_iff in Hh. congruence. }
    split; [intros; contradiction|]. split; [intros; contradiction|].
    split; [intros; contradiction|].
    split; [intros _ _ _ [Hh _]; contradiction|reflexivity].
Qed.

(** 350 g with one detection left: three fruits expected, the third
    condition is the first to hold. *)
Lemma should_fallback_first_matching_reason_witness :
  outcome_of (_should_fallback default_settings
                [detection "fruit-1" "apple" (float_literal (9 # 10)) (box 0 0 60 60)]
                [detection "fruit-1" "apple" (float_literal (9 # 10)) (box 0 0 60 60)]
                350 "img-1")
  = Ok (Some expected_more_fruits_by_weight).
Proof.
  apply (should_fallback_first_matching_reason default_settings
           [detection "fruit-1" "apple" (float_literal (9 # 10)) (box 0 0 60 60)]
           [detection "fruit-1" "apple" (float_literal (9 # 10)) (box 0 0 60 60)]
           350 "img-1" default_settings_valid).
  - intros [_ H]. discriminate H.
  - intros [_ H]. apply Forall_inv in H. vm_compute in H. discriminate H.
  - intros _. vm_compute. reflexivity.
  - split; [vm_compute; discriminate|]. vm_compute. split; [discriminate|reflexivity].
Defined.

(** ** Behaviour of a computation *)

Lemma key_events_app tr1 tr2 :
  key_events (tr1 ++ tr2) = key_events tr1 ++ key_events tr2.
Proof. apply List.filter_app. Qed.

(** A computation without key events hands the behaviour over to its
    continuation. *)
Lemma behaviour_bind_quiet {A B} (m : M A) (k : A -> M B) :
  key_events (trace_of m) = [] ->
  behaviour (bind m k)
  = match outcome_of m with
    | Ok a => behaviour (k a)
    | Raise e => ([], Raise e)
    end.
Proof.
  intros Hq. unfold behaviour.
  rewrite trace_bind, outcome_bind, key_events_app, Hq.
  destruct (outcome_of m); reflexivity.
Qed.

Lemma behaviour_eq {A} (m : M A) tr (r : result A) :
  m = (tr, r) -> key_events tr = [] ->
  key_events (trace_of m) = [] /\ outcome_of m = r.
Proof. intros -> Hq. split; [exact Hq|reflexivity]. Qed.

Section PipelineFacts.
Variable settings : Settings.
Variable world : World.

Lemma should_fallback_quiet filtered raw weight image :
  key_events (trace_of (_should_fallback settings filtered raw weight image)) = [].
Proof.
  unfold _should_fallback.
  repeat match goal with
         | |- context [if ?c then _ else _] => destruct c
         end; try reflexivity.
  rewrite trace_bind. cbn [lift trace_of outcome_of fst snd app].
  destruct (int_checked _) as [n|e]; [|reflexivity].
  destruct (_ && _); reflexivity.
Qed.

Lemma analyze_detection_spec image cropper d :
  key_events (trace_of (analyze_detection world image cropper d)) = []
  /\ match summary_of world image cropper d with
     | Some s => outcome_of (analyze_detection world image cropper d) = Ok s
     | None => exists e,
         outcome_of (analyze_detection world image cropper d) = Raise e
     end.
Proof.
  unfold analyze_detection, summary_of, crop, call.
  destruct (image_crop world (cropper_image cropper) (as_tuple (bbox d)))
    as [crop_bytes|e]; simpl.
  - destruct (defect_detect world image (fruit_id d) crop_bytes _); simpl;
      split; reflexivity.
  - split; [reflexivity|]. by exists e.
Qed.

Lemma gather_analyze_spec image cropper ds :
  exists tr finished,
    gather_return_exceptions (map (analyze_detection world image cropper) ds)
    = (tr, Ok finished)
    /\ key_events tr = []
    /\ values_of finished = omap (summary_of world image cropper) ds.
Proof.
  induction ds as [|d ds (tr & finished & IH & Hq & Hv)]; simpl.
  - exists [], []. auto.
  - rewrite IH.
    destruct (analyze_detection_spec image cropper d) as [Hqd Hd].
    destruct (analyze_detection world image cropper d) as [trd rd].
    simpl in *. exists (trd ++ tr), (rd :: finished).
    split; [reflexivity|]. split; [by rewrite key_events_app, Hqd, Hq|].
    destruct (summary_of world image cropper d) as [s|].
    + subst rd. simpl. by rewrite Hv.
    + destruct Hd as [e ->]. simpl. exact Hv.
Qed.

Lemma collect_summaries_spec finished acc :
  exists tr,
    collect_summaries finished acc = (tr, Ok (acc ++ values_of finished))
    /\ key_events tr = [].
Proof.
  revert acc. induction finished as [|[s|e] rest IH]; intros acc; simpl.
  - exists []. unfold ret. by rewrite app_nil_r.
  - destruct (IH (acc ++ [s])) as [tr [-> Hq]]. exists tr.
    by rewrite <- app_assoc.
  - destruct (IH acc) as [tr [Htr Hq]].
    unfold bind, log, emit. rewrite Htr. by eexists.
Qed.

(** [_analyze_fruits] never raises when it is handed the cropper; it
    returns the summaries of the detections whose crop succeeded, in
    the order of the detections. *)
Lemma analyze_fruits_spec image_bytes ds image cropper :
  key_events (trace_of (_analyze_fruits world image_bytes ds image
                          (Some cropper))) = []
  /\ outcome_of (_analyze_fruits world image_bytes ds image (Some cropper))
     = Ok (omap (summary_of world image cropper) ds).
Proof.
  destruct ds as [|d ds]; [split; reflexivity|].
  destruct (gather_analyze_spec image cropper (d :: ds))
    as (tr & finished & Hg & Hq & Hv).
  destruct (collect_summaries_spec finished []) as (tr' & Hc & Hq').
  assert (E : _analyze_fruits world image_bytes (d :: ds) image (Some cropper)
              = ([] ++ tr ++ tr', Ok ([] ++ values_of finished))).
  { unfold _analyze_fruits, bind, ret. rewrite Hg, Hc. reflexivity. }
  rewrite E. unfold trace_of, outcome_of. cbn [fst snd app].
  rewrite key_events_app, Hq, Hq', Hv. split; reflexivity.
Qed.

End PipelineFacts.

Section ScanFacts.
Variable settings : Settings.
Variable world : World.

Local Open Scope pipeline_scope.

Lemma publish_step_behaviour session r :
  behaviour
    (let* publish_tasks :=
       if enable_main_server_publish settings then
         ret [ui_client_publish world r; main_server_client_publish world r]
       else
         log DEBUG (MainPublishDisabled session) ;;
         ret [ui_client_publish world r] in
     gather (publish_settle_order world) publish_tasks ;;
     log INFO (FinishedScan session (length (sr_fruits r))))
  = publish_behaviour settings world session r.
Proof.
  unfold publish_behaviour, publish_outcomes, publish_events, behaviour.
  destruct (enable_main_server_publish settings); cbn;
    unfold gather; cbn;
    match goal with
    | |- context [first_failure ?o ?l] => destruct (first_failure o l)
    end; reflexivity.
Qed.

Ltac quiet_step :=
  rewrite behaviour_bind_quiet; [| solve [reflexivity | assumption]].

Lemma scan_body_behaviour session reading :
  behaviour (scan_body settings world session reading)
  = scan_behaviour settings world session reading.
Proof.
  unfold scan_body, scan_behaviour.
  fold (resolution_of settings).
  quiet_step. cbn [outcome_of call snd].
  destruct (capture_image world (resolution_of settings)) as [capture|e];
    [|reflexivity].
  quiet_step. cbn [outcome_of lift snd].
  destruct (resolved_path capture) as [path|e]; [|reflexivity].
  quiet_step. cbn [outcome_of call snd].
  destruct (fetch_image_binary world path) as [image_bytes|e]; [|reflexivity].
  assert (Hinit : key_events (trace_of (ImageCropper_init world image_bytes)) = []
                  /\ outcome_of (ImageCropper_init world image_bytes)
                     = match image_open world image_bytes with
                       | Ok sz => Ok {| cropper_image := image_bytes; size := sz |}
                       | Raise e => Raise e
                       end).
  { unfold ImageCropper_init, call, bind, ret.
    destruct (image_open world image_bytes); split; reflexivity. }
  destruct Hinit as [Hq Ho]. quiet_step. rewrite Ho. clear Hq Ho.
  destruct (image_open world image_bytes) as [[w h]|e]; [|reflexivity].
  cbn [size]. change (image_area_of (w, h)) with (w * h).
  quiet_step. cbn [outcome_of call snd].
  destruct (fruit_detect world (image_id capture) image_bytes
              (fruit_detector_primary_imgsz settings)) as [primary|e];
    [|reflexivity].
  destruct (filter_by_bbox_area_spec settings (fruits primary) (w * h)
              (image_id capture)) as (trA & EA & HA).
  rewrite behaviour_bind_quiet by (rewrite EA; exact HA).
  rewrite EA. cbn [outcome_of snd].
  destruct (filter_by_class_threshold_spec settings
              (List.filter (passes_bbox_area settings (w * h)) (fruits primary))
              (image_id capture)) as (trB & EB & HB).
  rewrite behaviour_bind_quiet by (rewrite EB; exact HB).
  rewrite EB. cbn [outcome_of snd]. fold (filtered_set settings (w * h) (fruits primary)).
  pose proof (should_fallback_quiet settings
                (filtered_set settings (w * h) (fruits primary)) (fruits primary)
                (grams reading) (image_id capture)) as HS.
  quiet_step. clear HS.
  destruct (outcome_of (_should_fallback settings
                          (filtered_set settings (w * h) (fruits primary))
                          (fruits primary) (grams reading) (image_id capture)))
    as [reason|e]; [|reflexivity].
  set (cropper := {| cropper_image := image_bytes; size := (w, h) |}).
  assert (Hfinish : forall kept,
    behaviour
      (let* fruits0 :=
         _analyze_fruits world image_bytes kept (image_id capture) (Some cropper) in
       let* publish_tasks :=
         if enable_main_server_publish settings then
           ret [ui_client_publish world
                  (scan_result_of world session reading capture fruits0);
                main_server_client_publish world
                  (scan_result_of world session reading capture fruits0)]
         else
           log DEBUG (MainPublishDisabled session) ;;
           ret [ui_client_publish world
                  (scan_result_of world session reading capture fruits0)] in
       gather (publish_settle_order world) publish_tasks ;;
       log INFO (FinishedScan session (length fruits0)))
    = publish_behaviour settings world session
        (scan_result_of world session reading capture
           (omap (summary_of world (image_id capture) cropper) kept))).
  { intros kept.
    destruct (analyze_fruits_spec world image_bytes kept (image_id capture) cropper)
      as [HQ HO].
    quiet_step. rewrite HO.
    pose proof (publish_step_behaviour session
             (scan_result_of world session reading capture
                (omap (summary_of world (image_id capture) cropper) kept))) as Hp.
    cbn [sr_fruits scan_result_of] in Hp. exact Hp. }
  destruct reason as [reason|].
  - match goal with
    | |- behaviour (bind ?m _) = _ =>
        assert (Hbranch : exists tr,
          m = (tr, match fruit_detect world (image_id capture) image_bytes
                           (fruit_detector_fallback_imgsz settings) with
                   | Ok fallback =>
                       Ok (filtered_set settings (w * h) (fruits fallback))
                   | Raise e => Raise e
                   end)
          /\ key_events tr = [])
    end.
    { unfold bind at 1. unfold log, emit. unfold bind at 1. unfold call.
      destruct (fruit_detect world (image_id capture) image_bytes
                  (fruit_detector_fallback_imgsz settings)) as [fallback|e];
        [|by eexists].
      destruct (filter_by_bbox_area_spec settings (fruits fallback) (w * h)
                  (image_id capture)) as (trA' & EA' & HA').
      destruct (filter_by_class_threshold_spec settings
                  (List.filter (passes_bbox_area settings (w * h)) (fruits fallback))
                  (image_id capture)) as (trB' & EB' & HB').
      unfold bind. rewrite EA', EB'. fold (filtered_set settings (w * h) (fruits fallback)).
      destruct (filtered_set settings (w * h) (fruits fallback));
        cbn; (eexists; split; [reflexivity|]);
        unfold key_events in *;
        cbn [List.filter is_key is_publish is_scan_end orb];
        rewrite !List.filter_app, HA', HB'; reflexivity. }
    destruct Hbranch as (tr & E & Hq).
    rewrite behaviour_bind_quiet by (rewrite E; exact Hq).
    rewrite E. cbn [outcome_of snd].
    destruct (fruit_detect world (image_id capture) image_bytes
                (fruit_detector_fallback_imgsz settings)); [apply Hfinish|reflexivity].
  - quiet_step. cbn [outcome_of ret snd]. apply Hfinish.
Qed.

End ScanFacts.

Lemma filter_key_events (f : event -> bool) (tr : list event) :
  (forall e, f e = true -> is_key e = true) ->
  List.filter f (key_events tr) = List.filter f tr.
Proof.
  intros Hf. unfold key_events. induction tr as [|e tr IH]; simpl; [reflexivity|].
  destruct (is_key e) eqn:Ek; simpl.
  - by rewrite IH.
  - destruct (f e) eqn:Ef; [|exact IH]. apply Hf in Ef. congruence.
Qed.

Lemma publishes_key_events tr : publishes tr = publishes (key_events tr).
Proof.
  symmetry. apply filter_key_events. intros e He. unfold is_key. by rewrite He.
Qed.

Lemma scan_ends_key_events tr :
  List.filter is_scan_end tr = List.filter is_scan_end (key_events tr).
Proof.
  symmetry. apply filter_key_events. intros e He. unfold is_key.
  rewrite He. apply orb_true_r.
Qed.

(** ** [asyncio.gather] on the publish tasks *)

Lemma earliest_failure_in {A} (outcomes : list (result A)) e :
  earliest_failure outcomes = Some e -> In (Raise e) outcomes.
Proof.
  induction outcomes as [|[a|e'] rest IH]; simpl; [discriminate| |].
  - intros H. right. exact (IH H).
  - intros [= ->]. by left.
Qed.

Lemma earliest_failure_none {A} (outcomes : list (result A)) e :
  earliest_failure outcomes = None -> ~ In (Raise e) outcomes.
Proof.
  induction outcomes as [|[a|e'] rest IH]; simpl; [tauto| |discriminate].
  intros H [Hin|Hin]; [discriminate|]. exact (IH H Hin).
Qed.

(** The exception [gather] propagates is that of one of its tasks. *)
Lemma first_failure_in {A} (outcomes : list (result A)) order e :
  first_failure outcomes order = Some e -> In (Raise e) outcomes.
Proof.
  induction order as [|i order IH]; simpl; [apply earliest_failure_in|].
  destruct (outcomes !! i) as [[a|e']|] eqn:E; auto.
  intros [= ->]. apply list_elem_of_In. eapply list_elem_of_lookup_2. exact E.
Qed.

(** [gather] propagates no exception exactly when no task raised. *)
Lemma first_failure_none {A} (outcomes : list (result A)) order :
  first_failure outcomes order = None <-> forall e, ~ In (Raise e) outcomes.
Proof.
  split.
  - intros Hnone e. apply earliest_failure_none.
    revert Hnone. induction order as [|i order IH]; [auto|]. simpl.
    destruct (outcomes !! i) as [[a|e']|]; auto. discriminate.
  - intros Hno. destruct (first_failure outcomes order) as [e|] eqn:E; [|reflexivity].
    apply first_failure_in in E. exfalso. exact (Hno e E).
Qed.

Section ExecuteScanFacts.
Variable settings : Settings.
Variable world : World.

(** [execute_scan] never raises; its key events are those of the [try]
    block, followed by the "Scan failed" record when the block raised. *)
Lemma execute_scan_behaviour reading :
  behaviour (execute_scan settings world reading)
  = (fst (scan_behaviour settings world (uuid4 world) reading)
     ++ match snd (scan_behaviour settings world (uuid4 world) reading) with
        | Ok _ => []
        | Raise e => [Log ERROR (ScanFailed (uuid4 world) e)]
        end,
     Ok tt).
Proof.
  rewrite <- scan_body_behaviour. unfold execute_scan.
  rewrite behaviour_bind_quiet by reflexivity. cbn [outcome_of log emit snd].
  unfold behaviour.
  destruct (scan_body settings world (uuid4 world) reading) as [tr [[]|e]];
    cbn [try_except log emit trace_of outcome_of fst snd].
  - by rewrite app_nil_r.
  - by rewrite key_events_app.
Qed.

Lemma execute_scan_returns reading :
  outcome_of (execute_scan settings world reading) = Ok tt.
Proof. exact (f_equal snd (execute_scan_behaviour reading)). Qed.

Lemma execute_scan_key_events reading :
  key_events (trace_of (execute_scan settings world reading))
  = fst (scan_behaviour settings world (uuid4 world) reading)
    ++ match snd (scan_behaviour settings world (uuid4 world) reading) with
       | Ok _ => []
       | Raise e => [Log ERROR (ScanFailed (uuid4 world) e)]
       end.
Proof. exact (f_equal fst (execute_scan_behaviour reading)). Qed.

Lemma reaches_analysis_behaviour reading capture image_bytes sz kept :
  reaches_analysis settings world reading capture image_bytes sz kept ->
  scan_behaviour settings world (uuid4 world) reading
  = publish_behaviour settings world (uuid4 world)
      (scan_result_of world (uuid4 world) reading capture
         (omap (summary_of world (image_id capture)
                  {| cropper_image := image_bytes; size := sz |}) kept)).
Proof.
  intros (path & primary & Hc & Hr & Hf & Ho & Hp & Hk).
  unfold scan_behaviour. rewrite Hc, Hr, Hf, Ho, Hp. cbv zeta.
  destruct Hk as [[Hs ->]|(reason & fallback & Hs & Hfb & ->)]; rewrite Hs.
  - reflexivity.
  - rewrite Hfb. reflexivity.
Qed.

(** A scan either fails before the publish step, or gets as far as
    the analysis. *)
Lemma scan_behaviour_cases reading :
  (exists e, scan_behaviour settings world (uuid4 world) reading = ([], Raise e))
  \/ exists capture image_bytes sz kept,
       reaches_analysis settings world reading capture image_bytes sz kept.
Proof.
  unfold scan_behaviour, reaches_analysis.
  destruct (capture_image world (resolution_of settings)) as [capture|e] eqn:Ec;
    [|left; by exists e].
  destruct (resolved_path capture) as [path|e] eqn:Er; [|left; by exists e].
  destruct (fetch_image_binary world path) as [image_bytes|e] eqn:Ef;
    [|left; by exists e].
  destruct (image_open world image_bytes) as [sz|e] eqn:Eo; [|left; by exists e].
  destruct (fruit_detect world (image_id capture) image_bytes
              (fruit_detector_primary_imgsz settings)) as [primary|e] eqn:Ep;
    [|left; by exists e].
  cbv zeta.
  destruct (outcome_of (_should_fallback settings _ (fruits primary) _ _))
    as [[reason|]|e] eqn:Es; [| |left; by exists e].
  - destruct (fruit_detect world (image_id capture) image_bytes
                (fruit_detector_fallback_imgsz settings)) as [fallback|e] eqn:Efb;
      [|left; by exists e].
    right. exists capture, image_bytes, sz,
      (filtered_set settings (image_area_of sz) (fruits fallback)), path, primary.
    repeat split; try reflexivity; try assumption.
    right. exists reason, fallback. auto.
  - right. exists capture, image_bytes, sz,
      (filtered_set settings (image_area_of sz) (fruits primary)), path, primary.
    repeat split; try reflexivity; try assumption. left. auto.
Qed.

Lemma publish_behaviour_publishes session r :
  publishes
    (fst (publish_behaviour settings world session r)
     ++ match snd (publish_behaviour settings world session r) with
        | Ok _ => []
        | Raise e => [Log ERROR (ScanFailed session e)]
        end)
  = publish_events settings r.
Proof.
  unfold publish_behaviour, publish_events, publishes.
  destruct (first_failure _ _); destruct (enable_main_server_publish settings);
    reflexivity.
Qed.

Lemma publish_behaviour_scan_end session r :
  List.filter is_scan_end
    (fst (publish_behaviour settings world session r)
     ++ match snd (publish_behaviour settings world session r) with
        | Ok _ => []
        | Raise e => [Log ERROR (ScanFailed session e)]
        end)
  = match first_failure (publish_outcomes settings world r)
            (publish_settle_order world) with
    | Some e => [Log ERROR (ScanFailed session e)]
    | None => [Log INFO (FinishedScan session (length (sr_fruits r)))]
    end.
Proof.
  unfold publish_behaviour, publish_events.
  destruct (first_failure _ _); destruct (enable_main_server_publish settings);
    reflexivity.
Qed.

(** Once a scan gets as far as the analysis, it publishes: the
    summaries of the detections kept, whatever the per-fruit subtasks
    and the publish requests answer. *)
Lemma reaches_analysis_publishes reading capture image_bytes sz kept :
  reaches_analysis settings world reading capture image_bytes sz kept ->
  publishes (trace_of (execute_scan settings world reading))
  = publish_events settings
      (scan_result_of world (uuid4 world) reading capture
         (omap (summary_of world (image_id capture)
                  {| cropper_image := image_bytes; size := sz |}) kept)).
Proof.
  intros Hreach.
  rewrite publishes_key_events, execute_scan_key_events,
    (reaches_analysis_behaviour _ _ _ _ _ Hreach).
  apply publish_behaviour_publishes.
Qed.

Lemma reaches_analysis_scan_end reading capture image_bytes sz kept :
  reaches_analysis settings world reading capture image_bytes sz kept ->
  let r := scan_result_of world (uuid4 world) reading capture
             (omap (summary_of world (image_id capture)
                      {| cropper_image := image_bytes; size := sz |}) kept) in
  List.filter is_scan_end (trace_of (execute_scan settings world reading))
  = match first_failure (publish_outcomes settings world r)
            (publish_settle_order world) with
    | Some e => [Log ERROR (ScanFailed (uuid4 world) e)]
    | None => [Log INFO (FinishedScan (uuid4 world) (length (sr_fruits r)))]
    end.
Proof.
  intros Hreach r.
  rewrite scan_ends_key_events, execute_scan_key_events,
    (reaches_analysis_behaviour _ _ _ _ _ Hreach).
  apply publish_behaviour_scan_end.
Qed.

(** Every scan ends with exactly one end-of-scan record. *)
Lemma execute_scan_one_end reading :
  exists record,
    List.filter is_scan_end (trace_of (execute_scan settings world reading))
    = [record].
Proof.
  destruct (scan_behaviour_cases reading)
    as [[e He]|(capture & image_bytes & sz & kept & Hreach)].
  - rewrite scan_ends_key_events, execute_scan_key_events, He. by eexists.
  - rewrite (reaches_analysis_scan_end _ _ _ _ _ Hreach).
    destruct (first_failure _ _); by eexists.
Qed.

End ExecuteScanFacts.

(** ** Per-fruit summaries *)

Section SummaryFacts.
Variable world : World.
Variable image : string.
Variable cropper : ImageCropper.

Lemma summary_of_detection d s :
  summary_of world image cropper d = Some s -> detection_of s = d.
Proof.
  unfold summary_of.
  destruct (image_crop world (cropper_image cropper) (as_tuple (bbox d)));
    [|discriminate].
  intros [= <-]. destruct d; reflexivity.
Qed.

Lemma summaries_sublist ds :
  sublist (map detection_of (omap (summary_of world image cropper) ds)) ds.
Proof.
  induction ds as [|d ds IH]; simpl; [constructor|].
  destruct (summary_of world image cropper d) as [s|] eqn:E; simpl.
  - rewrite (summary_of_detection _ _ E). by apply sublist_skip.
  - by apply sublist_cons.
Qed.

Lemma summaries_complete ds :
  (forall d, In d ds ->
     exists crop_bytes,
       image_crop world (cropper_image cropper) (as_tuple (bbox d)) = Ok crop_bytes) ->
  map detection_of (omap (summary_of world image cropper) ds) = ds.
Proof.
  induction ds as [|d ds IH]; intros Hall; simpl; [reflexivity|].
  destruct (Hall d (or_introl eq_refl)) as [crop_bytes Hc].
  destruct (summary_of world image cropper d) as [s|] eqn:E.
  - simpl. f_equal; [exact (summary_of_detection _ _ E)|].
    apply IH. intros d' Hd'. apply Hall. by right.
  - unfold summary_of in E. rewrite Hc in E. discriminate.
Qed.

Lemma summaries_detections ds :
  map detection_of (omap (summary_of world image cropper) ds)
  = List.filter (crop_succeeds world cropper) ds.
Proof.
  induction ds as [|d ds IH]; [reflexivity|]. cbn [omap list_omap List.filter].
  destruct (summary_of world image cropper d) as [s|] eqn:E.
  - pose proof (summary_of_detection _ _ E) as Hd.
    unfold summary_of in E. unfold crop_succeeds.
    destruct (image_crop world (cropper_image cropper) (as_tuple (bbox d)));
      [|discriminate].
    cbn [map]. by rewrite Hd, IH.
  - unfold summary_of in E. unfold crop_succeeds.
    destruct (image_crop world (cropper_image cropper) (as_tuple (bbox d)));
      [discriminate|exact IH].
Qed.

Lemma summary_in ds d s :
  In d ds -> summary_of world image cropper d = Some s ->
  In s (omap (summary_of world image cropper) ds).
Proof.
  intros Hd Hs. apply list_elem_of_In, list_elem_of_omap.
  exists d. split; [by apply list_elem_of_In|exact Hs].
Qed.

Lemma crop_failure_leaves_out ds d e :
  image_crop world (cropper_image cropper) (as_tuple (bbox d)) = Raise e ->
  ~ In d (map detection_of (omap (summary_of world image cropper) ds)).
Proof.
  intros Hc Hin. apply in_map_iff in Hin as (s & Hs & Hin).
  apply list_elem_of_In, list_elem_of_omap in Hin as (d' & _ & Hd').
  pose proof (summary_of_detection _ _ Hd') as Heq.
  rewrite Hs in Heq. subst d'.
  unfold summary_of in Hd'. rewrite Hc in Hd'. discriminate.
Qed.

End SummaryFacts.

(** ** The scan pipeline *)

(** C6. When the camera capture, the image fetch or the primary
    fruit-detector call raises [e] inside [execute_scan], the session
    sends no publish request to the UI or the main server, and
    [execute_scan] returns normally: the exception is logged in the one
    end-of-scan record, not propagated. *)
Theorem fatal_failures_publish_nothing (settings : Settings) (world : World)
    (reading : WeightReading) (e : exn) :
  capture_image world (resolution_of settings) = Raise e
  \/ (exists capture path,
        capture_image world (resolution_of settings) = Ok capture
        /\ resolved_path capture = Ok path
        /\ fetch_image_binary world path = Raise e)
  \/ (exists capture path image_bytes sz,
        capture_image world (resolution_of settings) = Ok capture
        /\ resolved_path capture = Ok path
        /\ fetch_image_binary world path = Ok image_bytes
        /\ image_open world image_bytes = Ok sz
        /\ fruit_detect world (image_id capture) image_bytes
             (fruit_detector_primary_imgsz settings) = Raise e) ->
  publishes (trace_of (execute_scan settings world reading)) = []
  /\ outcome_of (execute_scan settings world reading) = Ok tt
  /\ List.filter is_scan_end (trace_of (execute_scan settings world reading))
     = [Log ERROR (ScanFailed (uuid4 world) e)].
Proof.
  intros H.
  assert (Hb : scan_behaviour settings world (uuid4 world) reading = ([], Raise e)).
  { unfold scan_behaviour.
    destruct H as [Hc|[(capture & path & Hc & Hr & Hf)
                      |(capture & path & image_bytes & sz & Hc & Hr & Hf & Ho & Hp)]].
    - by rewrite Hc.
    - by rewrite Hc, Hr, Hf.
    - by rewrite Hc, Hr, Hf, Ho, Hp. }
  rewrite publishes_key_events, scan_ends_key_events, execute_scan_key_events, Hb.
  split; [reflexivity|]. split; [apply execute_scan_returns|reflexivity].
Qed.

(** The fruit detector is down: nothing is published. *)
Lemma fatal_failures_publish_nothing_witness :
  publishes (trace_of (execute_scan default_settings detector_down_world reading_120))
  = []
  /\ outcome_of (execute_scan default_settings detector_down_world reading_120) = Ok tt
  /\ List.filter is_scan_end
       (trace_of (execute_scan default_settings detector_down_world reading_120))
     = [Log ERROR (ScanFailed "session-1" (ServiceError "fruit detector unavailable"))].
Proof.
  apply (fatal_failures_publish_nothing default_settings detector_down_world
           reading_120 (ServiceError "fruit detector unavailable")).
  right. right. exists sample_capture, "/image/img-1.jpg"%string, [], (128, 128).
  repeat split; reflexivity.
Defined.



(** A crop that raises costs the fruit its summary: two detections pass
    the filters, the crop of [fruit-2] (an empty rectangle) raises, and
    the published result holds one summary, none for [fruit-2]. *)
Lemma crop_failure_drops_the_fruit :
  filtered_set default_settings (128 * 128) [apple_1; sliver] = [apple_1; sliver]
  /\ as_tuple (bbox sliver) = (60, 60, 60, 120)
  /\ (exists e, image_crop crop_failure_world [] (as_tuple (bbox sliver)) = Raise e)
  /\ exists r,
       publishes (trace_of (execute_scan default_settings crop_failure_world
                              reading_120))
       = [PublishUI r]
       /\ length (sr_fruits r) = 1%nat
       /\ ~ (exists s, In s (sr_fruits r) /\ fs_fruit_id s = fruit_id sliver).
Proof.
  split; [vm_compute; reflexivity|].
  split; [vm_compute; reflexivity|].
  split; [eexists; vm_compute; reflexivity|].
  eexists. split; [vm_compute; reflexivity|].
  split; [reflexivity|].
  intros (s & [<-|[]] & Hid). vm_compute in Hid. discriminate.
Qed.

(** C5 (amended). For a scan that gets as far as the analysis with the
    detections [kept], the per-fruit subtasks never abort the scan: it
    publishes the summaries [_analyze_fruits] returns, and these are the
    summaries of exactly the detections whose crop succeeded, one each,
    in the order of the detections. Such a detection is published with
    the defects the defect detector reports, and with an empty defects
    list when the defect-detector call raises, whatever happens to the
    other detections. When every crop succeeds there is one summary per
    detection; a detection whose crop raises is left out of the
    result. *)
Theorem per_fruit_failures_stay_local (settings : Settings) (world : World)
    (reading : WeightReading) (capture : CameraCaptureResponse)
    (image_bytes : bytes) (sz : Z * Z) (kept : list FruitDetection) :
  reaches_analysis settings world reading capture image_bytes sz kept ->
  let cropper := {| cropper_image := image_bytes; size := sz |} in
  exists summaries,
    outcome_of (_analyze_fruits world image_bytes kept (image_id capture) (Some cropper))
    = Ok summaries
    /\ publishes (trace_of (execute_scan settings world reading))
       = publish_events settings
           (scan_result_of world (uuid4 world) reading capture summaries)
    /\ map detection_of summaries = List.filter (crop_succeeds world cropper) kept
    /\ sublist (map detection_of summaries) kept
    /\ (forall d crop_bytes,
          In d kept ->
          image_crop world image_bytes (as_tuple (bbox d)) = Ok crop_bytes ->
          In {| fs_fruit_id := fruit_id d; fs_fruit_class := fruit_class d;
                fs_confidence := confidence d; fs_bbox := bbox d;
                fs_defects :=
                  match defect_detect world (image_id capture) (fruit_id d)
                          crop_bytes (fruit_id d ++ ".jpg")%string with
                  | Ok found => defects found
                  | Raise _ => []
                  end |} summaries)
    /\ (forall d crop_bytes e,
          In d kept ->
          image_crop world image_bytes (as_tuple (bbox d)) = Ok crop_bytes ->
          defect_detect world (image_id capture) (fruit_id d) crop_bytes
            (fruit_id d ++ ".jpg")%string = Raise e ->
          In {| fs_fruit_id := fruit_id d; fs_fruit_class := fruit_class d;
                fs_confidence := confidence d; fs_bbox := bbox d;
                fs_defects := [] |} summaries)
    /\ ((forall d, In d kept ->
           exists crop_bytes,
             image_crop world image_bytes (as_tuple (bbox d)) = Ok crop_bytes) ->
        map detection_of summaries = kept)
    /\ (forall d e,
          image_crop world image_bytes (as_tuple (bbox d)) = Raise e ->
          ~ In d (map detection_of summaries)).
Proof.
  intros Hreach cropper.
  exists (omap (summary_of world (image_id capture) cropper) kept).
  split; [apply analyze_fruits_spec|].
  split; [exact (reaches_analysis_publishes _ _ _ _ _ _ _ Hreach)|].
  split; [apply summaries_detections|].
  split; [apply summaries_sublist|].
  split; [|split; [|split]].
  - intros d crop_bytes Hd Hc.
    apply (summary_in world (image_id capture) cropper kept d _ Hd).
    unfold summary_of. cbn [cropper_image cropper]. by rewrite Hc.
  - intros d crop_bytes e Hd Hc He.
    apply (summary_in world (image_id capture) cropper kept d _ Hd).
    unfold summary_of. cbn [cropper_image cropper]. by rewrite Hc, He.
  - exact (summaries_complete world (image_id capture) cropper kept).
  - intros d e.
    exact (crop_failure_leaves_out world (image_id capture) cropper kept d e).
Qed.

(** Three detections pass the filters; the defect detector raises for
    [fruit-2] and the crop of [fruit-3] raises: two summaries are
    published, that of [fruit-1] with its bruise and that of [fruit-2]
    without defects. *)
Lemma per_fruit_failures_stay_local_witness :
  exists summaries,
    publishes (trace_of (execute_scan default_settings mixed_failure_world
                           reading_120))
    = [PublishUI (scan_result_of mixed_failure_world "session-1" reading_120
                    sample_capture summaries)]
    /\ map detection_of summaries = [apple_1; apple_2]
    /\ In {| fs_fruit_id := "fruit-1"; fs_fruit_class := "apple";
             fs_confidence := confidence apple_1; fs_bbox := bbox apple_1;
             fs_defects := [bruise] |} summaries
    /\ In {| fs_fruit_id := "fruit-2"; fs_fruit_class := "apple";
             fs_confidence := confidence apple_2; fs_bbox := bbox apple_2;
             fs_defects := [] |} summaries.
Proof.
  destruct (per_fruit_failures_stay_local default_settings mixed_failure_world
              reading_120 sample_capture [] (128, 128) [apple_1; apple_2; sliver_3])
    as (summaries & _ & Hp & Hm & _ & Hin & Hempty & _).
  { exists "/image/img-1.jpg"%string,
      {| fds_image_id := "img-1"; fruits := [apple_1; apple_2; sliver_3] |}.
    repeat split; try reflexivity. left. split; vm_compute; reflexivity. }
  exists summaries. split; [exact Hp|]. split; [|split].
  - rewrite Hm. vm_compute. reflexivity.
  - apply (Hin apple_1 []); [left; reflexivity|reflexivity].
  - apply (Hempty apple_2 [] (ServiceError "defect detector unavailable"));
      [right; left; reflexivity|reflexivity|reflexivity].
Defined.

(** Both publish requests fail: both were sent, the scan logs the
    failure of the UI request, and the failure of the main-server
    request is in no log record. *)
Lemma second_publish_failure_is_not_logged :
  let tr := trace_of (execute_scan publishing_settings double_failure_world
                        reading_120) in
  exists r,
    publishes tr = [PublishUI r; PublishMain r]
    /\ ui_publish double_failure_world r = Raise ui_down
    /\ main_publish double_failure_world r = Raise main_down
    /\ logged_exceptions tr = [ui_down]
    /\ ~ In main_down (logged_exceptions tr).
Proof.
  eexists. split; [vm_compute; reflexivity|].
  split; [reflexivity|]. split; [reflexivity|].
  split; [vm_compute; reflexivity|].
  vm_compute. intros [H|[]]. discriminate H.
Qed.

(** C7 (amended). When a scan reaches the publish step with result [r],
    the request to the UI is sent and, when
    [enable_main_server_publish] is set, so is the request to the main
    server, whatever either of them answers: the tasks are started
    together by [gather]. No publish failure leaves [execute_scan]. The
    scan ends with one record: "Finished" when no publish failed,
    otherwise the failure of the publish that settled first; a later
    failure of the other publish is not logged. *)
Theorem publish_failures_stay_in_the_scan (settings : Settings) (world : World)
    (reading : WeightReading) (r : ScanResult) :
  In (PublishUI r) (trace_of (execute_scan settings world reading))
  \/ In (PublishMain r) (trace_of (execute_scan settings world reading)) ->
  let failure := first_failure (publish_outcomes settings world r)
                   (publish_settle_order world) in
  publishes (trace_of (execute_scan settings world reading))
  = PublishUI r :: (if enable_main_server_publish settings then [PublishMain r] else [])
  /\ outcome_of (execute_scan settings world reading) = Ok tt
  /\ List.filter is_scan_end (trace_of (execute_scan settings world reading))
     = match failure with
       | Some e => [Log ERROR (ScanFailed (uuid4 world) e)]
       | None => [Log INFO (FinishedScan (uuid4 world) (length (sr_fruits r)))]
       end
  /\ (forall e, failure = Some e -> In (Raise e) (publish_outcomes settings world r))
  /\ (failure = None <-> forall e, ~ In (Raise e) (publish_outcomes settings world r)).
Proof.
  intros Hin failure.
  assert (Hpub : exists ev, In ev (publishes
                                     (trace_of (execute_scan settings world reading)))
                            /\ (ev = PublishUI r \/ ev = PublishMain r)).
  { destruct Hin as [Hin|Hin]; eexists; (split; [apply filter_In; split;
      [exact Hin|reflexivity]|auto]). }
  destruct Hpub as (ev & Hev & Hr).
  destruct (scan_behaviour_cases settings world reading)
    as [[e He]|(capture & image_bytes & sz & kept & Hreach)].
  { rewrite publishes_key_events, execute_scan_key_events, He in Hev.
    simpl in Hev. destruct Hev. }
  pose proof (reaches_analysis_scan_end _ _ _ _ _ _ _ Hreach) as Hend.
  rewrite (reaches_analysis_publishes _ _ _ _ _ _ _ Hreach) in Hev |- *.
  cbv zeta in Hend. rewrite Hend. clear Hend.
  set (r' := scan_result_of world (uuid4 world) reading capture _) in *.
  assert (r' = r) as ->.
  { unfold publish_events in Hev.
    destruct (enable_main_server_publish settings); simpl in Hev;
      destruct Hr as [-> | ->]; intuition congruence. }
  split; [reflexivity|]. split; [apply execute_scan_returns|].
  split; [reflexivity|]. split.
  - intros e. apply first_failure_in.
  - apply first_failure_none.
Qed.

(** The double failure again: both requests sent, one record. *)
Lemma publish_failures_stay_in_the_scan_witness :
  let r := scan_result_of double_failure_world "session-1" reading_120 sample_capture
             (omap (summary_of double_failure_world "img-1"
                      {| cropper_image := []; size := (128, 128) |}) [apple_1]) in
  publishes (trace_of (execute_scan publishing_settings double_failure_world
                         reading_120))
  = [PublishUI r; PublishMain r]
  /\ outcome_of (execute_scan publishing_settings double_failure_world reading_120)
     = Ok tt
  /\ List.filter is_scan_end
       (trace_of (execute_scan publishing_settings double_failure_world reading_120))
     = [Log ERROR (ScanFailed "session-1" ui_down)].
Proof.
  intros r.
  destruct (publish_failures_stay_in_the_scan publishing_settings
              double_failure_world reading_120 r) as (Hp & Ho & He & _).
  { right. vm_compute. auto 20. }
  split; [exact Hp|]. split; [exact Ho|exact He].
Defined.

(** ** The handler of [POST /trigger-scan] *)

Lemma scan_end_precedes_return settings world payload :
  returns_before_scan_completes settings world payload ->
  List.filter is_scan_end (trace_of (trigger_scan settings world payload)) = [].
Proof.
  unfold returns_before_scan_completes.
  induction (trace_of (trigger_scan settings world payload)) as [|e tr IH];
    [reflexivity|].
  intros H. apply Forall_cons in H as [He Htr]. simpl. rewrite He. by apply IH.
Qed.

(** A valid request in a world where every service answers: when the
    handler returns, the result has been published and the scan has
    logged its end. *)
Lemma trigger_scan_returns_after_the_scan :
  ManualScanRequest_valid {| req_weight_grams := 120 |}
  /\ ~ returns_before_scan_completes default_settings happy_world
         {| req_weight_grams := 120 |}.
Proof.
  split; [reflexivity|]. intros H. apply scan_end_precedes_return in H.
  vm_compute in H. discriminate H.
Qed.

(** C1 (amended). For every valid request body (one with
    [weight_grams > 0]) the handler runs [execute_scan] to its end and
    only then returns the accepted status: the events up to the response
    are those of the whole scan, among them the scan's one end-of-scan
    record, so the handler never returns before the scan it started has
    completed. [execute_scan] does not raise, hence the status is
    returned whatever the scan met. *)
Theorem trigger_scan_awaits_the_scan (settings : Settings) (world : World)
    (payload : ManualScanRequest) :
  ManualScanRequest_valid payload ->
  let reading := {| grams := req_weight_grams payload; timestamp := utcnow world |} in
  trigger_scan settings world payload
  = (trace_of (execute_scan settings world reading), Ok {[ "status" := "accepted" ]})
  /\ (exists record,
        List.filter is_scan_end (trace_of (trigger_scan settings world payload))
        = [record])
  /\ ~ returns_before_scan_completes settings world payload.
Proof.
  intros Hvalid reading.
  assert (Hinit : WeightReading_init (req_weight_grams payload) (utcnow world)
                  = Ok reading).
  { unfold WeightReading_init.
    replace (Qge_bool (req_weight_grams payload) 0) with true; [reflexivity|].
    symmetry. apply Qge_bool_iff, Qlt_le_weak, Hvalid. }
  assert (E : trigger_scan settings world payload
              = (trace_of (execute_scan settings world reading),
                 Ok {[ "status" := "accepted" ]})).
  { unfold trigger_scan. rewrite Hinit.
    assert (Hlift : forall (k : WeightReading -> M (gmap string string)),
              bind (lift (Ok reading)) k = k reading).
    { intros k. unfold bind, lift. by destruct (k reading). }
    rewrite Hlift.
    pose proof (execute_scan_returns settings world reading) as Hr.
    destruct (execute_scan settings world reading) as [tr res].
    simpl in Hr. subst res. unfold bind, ret, trace_of. simpl.
    by rewrite app_nil_r. }
  destruct (execute_scan_one_end settings world reading) as [record Hrec].
  assert (Hone : List.filter is_scan_end
                   (trace_of (trigger_scan settings world payload)) = [record]).
  { rewrite E. exact Hrec. }
  split; [exact E|]. split; [by exists record|].
  intros H. apply scan_end_precedes_return in H. congruence.
Qed.

(** A request with 120 g: the response comes with the trace of the
    whole scan. *)
Lemma trigger_scan_awaits_the_scan_witness :
  trigger_scan default_settings happy_world {| req_weight_grams := 120 |}
  = (trace_of (execute_scan default_settings happy_world
                 {| grams := 120; timestamp := 0 |}),
     Ok {[ "status" := "accepted" ]})
  /\ ~ returns_before_scan_completes default_settings happy_world
         {| req_weight_grams := 120 |}.
Proof.
  destruct (trigger_scan_awaits_the_scan default_settings happy_world
              {| req_weight_grams := 120 |}) as (E & _ & N).
  { reflexivity. }
  split; [exact E|exact N].
Defined.

(** * Further properties *)

(** ** The state machine, step by step *)

(** X1. The decision reports the state the machine is left in, and its
    transition tells how the state moved: NONE exactly when the state is
    unchanged, IDLE->ACTIVE and ACTIVE->IDLE exactly when it moved so. *)
Theorem decision_reports_the_move (cfg : Settings) (m : WeightStateMachine)
    (r : WeightReading) (m' : WeightStateMachine) (d : ScanDecision) :
  process cfg m r = (m', d) ->
  d_state d = state m'
  /\ (transition d = NONE <-> state m' = state m)
  /\ (transition d = IDLE_to_ACTIVE <-> state m = IDLE /\ state m' = ACTIVE)
  /\ (transition d = ACTIVE_to_IDLE <-> state m = ACTIVE /\ state m' = IDLE).
Proof.
  unfold process, _mark_scan_if_allowed.
  set (m1 := set_history m _).
  change (state m) with (state m1). clearbody m1.
  destruct (_stable_weight cfg m1) as [w|].
  2:{ intros [= <- <-]. simpl. destruct (state m1); intuition congruence. }
  destruct (state m1) eqn:Es.
  - destruct (Qge_bool w (min_fruit_weight cfg)).
    + destruct (_scan_interval_respected cfg (set_state m1 ACTIVE) (timestamp r));
        intros [= <- <-]; simpl; intuition congruence.
    + intros [= <- <-]. simpl. rewrite Es. intuition congruence.
  - destruct (Qlt_bool w (min_fruit_weight cfg)).
    + intros [= <- <-]. simpl. intuition congruence.
    + destruct (_significant_delta cfg m1 w
                && _scan_interval_respected cfg m1 (timestamp r));
        intros [= <- <-]; simpl; rewrite ?Es; intuition congruence.
Qed.

Lemma decision_reports_the_move_witness :
  let m := machine_before default_settings cold_start_readings 0 in
  d_state (snd (process default_settings m (reading_ms 0 0)))
  = state (fst (process default_settings m (reading_ms 0 0))).
Proof.
  intros m.
  refine (proj1 (decision_reports_the_move default_settings m (reading_ms 0 0)
                   _ _ _)).
  vm_compute. reflexivity.
Defined.

(** X2. A step requests a scan exactly when the window is stable at a
    weight [w] of at least [min_fruit_weight], the interval test of the
    code passes, and the machine was IDLE or the difference of [w] and
    the last scanned weight, as the double subtraction gives it, is at
    least [significant_delta] in magnitude. Such a step leaves the
    machine ACTIVE with [w] and the reading's timestamp latched. *)
Theorem scan_requested_exactly_when (cfg : Settings) (m : WeightStateMachine)
    (r : WeightReading) (m' : WeightStateMachine) (d : ScanDecision) :
  process cfg m r = (m', d) ->
  (scan_requested d = true <->
   exists w,
     stable_weight_of cfg m r = Some w
     /\ (min_fruit_weight cfg <= w)%Q
     /\ _scan_interval_respected cfg m (timestamp r) = true
     /\ (state m = IDLE
         \/ (significant_delta cfg <= Qabs (fsub w (_last_scan_weight m)))%Q))
  /\ (scan_requested d = true ->
      state m' = ACTIVE
      /\ stable_weight_of cfg m r = Some (_last_scan_weight m')
      /\ _last_scan_at m' = Some (timestamp r)).
Proof.
  unfold process, stable_weight_of, _mark_scan_if_allowed, _significant_delta.
  set (m1 := set_history m _).
  change (_scan_interval_respected cfg (set_state m1 ACTIVE) (timestamp r))
    with (_scan_interval_respected cfg m (timestamp r)).
  change (_scan_interval_respected cfg m1 (timestamp r))
    with (_scan_interval_respected cfg m (timestamp r)).
  change (_last_scan_weight m1) with (_last_scan_weight m).
  change (state m) with (state m1). clearbody m1.
  destruct (_stable_weight cfg m1) as [w|].
  2:{ intros [= <- <-]. simpl. split; [|discriminate].
      split; [discriminate|]. intros (w & Hw & _). discriminate. }
  destruct (state m1) eqn:Es.
  - destruct (Qge_bool w (min_fruit_weight cfg)) eqn:Ew.
    + apply Qge_bool_iff in Ew.
      destruct (_scan_interval_respected cfg m (timestamp r)) eqn:Ei;
        intros [= <- <-]; simpl.
      * split; [|auto]. split; [|reflexivity]. intros _. exists w. auto.
      * split; [|discriminate]. split; [discriminate|].
        intros (w' & _ & _ & Hi & _). discriminate.
    + intros [= <- <-]. simpl. split; [|discriminate].
      split; [discriminate|]. intros (w' & [= <-] & Hw & _).
      apply Qge_bool_iff in Hw. congruence.
  - destruct (Qlt_bool w (min_fruit_weight cfg)) eqn:Ew.
    + apply Qlt_bool_iff in Ew. intros [= <- <-]. simpl.
      split; [|discriminate]. split; [discriminate|].
      intros (w' & [= <-] & Hw & _). exfalso. exact (Qlt_not_le _ _ Ew Hw).
    + assert (Hw : (min_fruit_weight cfg <= w)%Q).
      { apply Qnot_lt_le. intros H. apply Qlt_bool_iff in H. congruence. }
      destruct (Qge_bool (Qabs (fsub w (_last_scan_weight m))) (significant_delta cfg))
        eqn:Ed;
        destruct (_scan_interval_respected cfg m (timestamp r)) eqn:Ei;
        intros [= <- <-]; simpl.
      * apply Qge_bool_iff in Ed. split; [|auto]. split; [|reflexivity].
        intros _. exists w. auto.
      * split; [|discriminate]. split; [discriminate|].
        intros (w' & _ & _ & Hi & _). discriminate.
      * split; [|discriminate]. split; [discriminate|].
        intros (w' & [= <-] & _ & _ & [Hs|Hd]); [discriminate|].
        apply Qge_bool_iff in Hd.
        change (Qge_bool (Qabs (fsub w (_last_scan_weight m))) (significant_delta cfg)
                = true) in Hd.
        congruence.
      * split; [|discriminate]. split; [discriminate|].
        intros (w' & _ & _ & Hi & _). discriminate.
Qed.

Lemma scan_requested_exactly_when_witness :
  let m := machine_before default_settings
             [reading_ms 35 0; reading_ms 35 100] 1 in
  state (fst (process default_settings m (reading_ms 35 100))) = ACTIVE
  /\ _last_scan_at (fst (process default_settings m (reading_ms 35 100)))
     = Some 100000.
Proof.
  intros m.
  destruct (proj2 (scan_requested_exactly_when default_settings m (reading_ms 35 100)
                     _ _ (surjective_pairing _)) ltac:(vm_compute; reflexivity))
    as (Hs & _ & Hat).
  split; [exact Hs|exact Hat].
Defined.

(** ** The interval test *)

(** X25. The interval test of the code, which compares the elapsed time
    in doubles, is exact to the microsecond for a minimum scan interval
    below [2^33] seconds: it passes only when [min_scan_interval_ms]
    have elapsed since the last scan, and it passes whenever one
    microsecond more has elapsed. For every interval it is monotone: once
    passed, it passes at every later time. *)
Theorem interval_test_exact_to_the_microsecond (cfg : Settings)
    (m : WeightStateMachine) (last now : Z) :
  _last_scan_at m = Some last ->
  (interval_in_range cfg ->
   _scan_interval_respected cfg m now = true ->
   1000 * min_scan_interval_ms cfg <= now - last)
  /\ (interval_in_range cfg ->
      1000 * min_scan_interval_ms cfg + 1 <= now - last ->
      _scan_interval_respected cfg m now = true)
  /\ (forall later,
        now <= later ->
        _scan_interval_respected cfg m now = true ->
        _scan_interval_respected cfg m later = true).
Proof.
  intros Hlast. unfold _scan_interval_respected. rewrite Hlast.
  split; [|split].
  - intros Hrange H. apply Qge_bool_iff in H. by apply elapsed_sound.
  - intros Hrange H. apply Qge_bool_iff. by apply elapsed_complete.
  - intros later Hle H. apply Qge_bool_iff in H. apply Qge_bool_iff.
    eapply Qle_trans; [exact H|]. apply elapsed_mono. lia.
Qed.

(** With the default interval of 2000 ms and a scan at 100 ms, the test
    passes at 2100.001 ms. *)
Lemma interval_test_exact_to_the_microsecond_witness :
  _scan_interval_respected default_settings
    (set_last_scan init_machine 100000 35) 2100001 = true.
Proof.
  apply (proj1 (proj2 (interval_test_exact_to_the_microsecond default_settings
                         (set_last_scan init_machine 100000 35) 100000 2100001
                         eq_refl))).
  - exact default_interval_in_range.
  - vm_compute. discriminate.
Defined.

(** ** The stability window over a run *)

Lemma process_history cfg m r :
  _history (fst (process cfg m r))
  = _prune_history cfg (_history m ++ [r]) (timestamp r).
Proof.
  unfold process, _mark_scan_if_allowed.
  set (m1 := set_history m _).
  change (_prune_history cfg (_history m ++ [r]) (timestamp r)) with (_history m1).
  clearbody m1.
  destruct (_stable_weight cfg m1); [|reflexivity].
  destruct (state m1).
  - destruct (Qge_bool _ _); [|reflexivity].
    destruct (_scan_interval_respected cfg _ _); reflexivity.
  - destruct (Qlt_bool _ _); [reflexivity|].
    destruct (_ && _); reflexivity.
Qed.

(** Pruning never reorders or invents readings: it keeps a suffix. *)
Lemma prune_history_suffix cfg h now : suffix (_prune_history cfg h now) h.
Proof.
  induction h as [|x h IH]; simpl; [done|].
  destruct (_ <? _); [by apply suffix_cons_r|done].
Qed.

(** On a chronological window, pruning keeps exactly the readings that
    are not older than the window. *)
Lemma prune_history_chronological cfg h now :
  chronological h ->
  _prune_history cfg h now = List.filter (in_window cfg now) h.
Proof.
  unfold chronological, in_window.
  induction h as [|x h IH]; intros Hs; [reflexivity|].
  apply StronglySorted_inv in Hs as [Hs Hx]. cbn [_prune_history List.filter].
  destruct (1000 * stable_window_ms cfg <? now - timestamp x) eqn:E.
  - apply Z.ltb_lt in E.
    replace (now - timestamp x <=? 1000 * stable_window_ms cfg) with false
      by (symmetry; apply Z.leb_gt; lia).
    by apply IH.
  - apply Z.ltb_ge in E.
    replace (now - timestamp x <=? 1000 * stable_window_ms cfg) with true
      by (symmetry; apply Z.leb_le; lia).
    f_equal. symmetry. apply forallb_filter_id, forallb_forall.
    intros y Hy. apply Z.leb_le.
    rewrite List.Forall_forall in Hx. specialize (Hx y Hy). lia.
Qed.

Lemma chronological_snoc rs r :
  chronological (rs ++ [r]) ->
  chronological rs /\ forall x, In x rs -> timestamp x <= timestamp r.
Proof.
  unfold chronological. induction rs as [|a rs IH]; simpl; intros Hs.
  - split; [constructor|intros x []].
  - apply StronglySorted_inv in Hs as [Hs Ha].
    destruct (IH Hs) as [Hrs Hle]. split.
    + constructor; [exact Hrs|]. rewrite List.Forall_forall in Ha |- *.
      intros x Hx. apply Ha, in_or_app. by left.
    + intros x [<-|Hx]; [|by apply Hle].
      rewrite List.Forall_forall in Ha. apply Ha, in_or_app. right. by left.
Qed.

Lemma chronological_filter_snoc (f : WeightReading -> bool) rs r :
  chronological (rs ++ [r]) -> chronological (List.filter f rs ++ [r]).
Proof.
  unfold chronological. induction rs as [|a rs IH]; simpl; intros Hs; [exact Hs|].
  apply StronglySorted_inv in Hs as [Hs Ha]. destruct (f a); [|by apply IH].
  simpl. constructor; [by apply IH|].
  rewrite List.Forall_forall in Ha |- *. intros x Hx. apply Ha.
  apply in_app_or in Hx as [Hx|Hx]; apply in_or_app; [left|by right].
  by apply filter_In in Hx as [Hx _].
Qed.

Lemma filter_window_later cfg now0 now l :
  now0 <= now ->
  List.filter (in_window cfg now) (List.filter (in_window cfg now0) l)
  = List.filter (in_window cfg now) l.
Proof.
  intros Hle. induction l as [|x l IH]; [reflexivity|]. simpl.
  destruct (in_window cfg now0 x) eqn:E0; simpl.
  - by rewrite IH.
  - unfold in_window in *. apply Z.leb_gt in E0.
    replace (now - timestamp x <=? 1000 * stable_window_ms cfg) with false
      by (symmetry; apply Z.leb_gt; lia).
    exact IH.
Qed.

(** X4. The window is a sliding window. After a chronological sequence
    of readings that ends with [r], the machine's history holds exactly
    the readings at most [stable_window_ms] older than [r], in the order
    in which they came. *)
Theorem history_is_the_sliding_window (cfg : Settings)
    (rs : list WeightReading) (r : WeightReading) :
  chronological (rs ++ [r]) ->
  _history (fst (run cfg init_machine (rs ++ [r])))
  = List.filter (in_window cfg (timestamp r)) (rs ++ [r]).
Proof.
  revert r. induction rs as [|r0 rs IH] using rev_ind; intros r Hs.
  - simpl. destruct (process cfg init_machine r) as [m1 d] eqn:Hp. simpl.
    change m1 with (fst (m1, d)). rewrite <- Hp, process_history.
    by apply prune_history_chronological.
  - destruct (chronological_snoc _ _ Hs) as [Hs0 Hle].
    rewrite run_app. specialize (IH r0 Hs0).
    destruct (run cfg init_machine (rs ++ [r0])) as [m1 ds1]. simpl in IH.
    simpl. destruct (process cfg m1 r) as [m2 d] eqn:Hp. simpl.
    change m2 with (fst (m2, d)). rewrite <- Hp, process_history, IH.
    rewrite prune_history_chronological by (by apply chronological_filter_snoc).
    rewrite (List.filter_app _ (List.filter _ _) [r]).
    rewrite (List.filter_app _ (rs ++ [r0]) [r]). f_equal.
    apply filter_window_later, Hle, in_or_app. right. by left.
Qed.

Lemma history_is_the_sliding_window_witness :
  _history (fst (run default_settings init_machine
                   ([reading_ms 0 0; reading_ms 35 200; reading_ms 35 300]
                    ++ [reading_ms 35 500])))
  = List.filter (in_window default_settings (timestamp (reading_ms 35 500)))
      ([reading_ms 0 0; reading_ms 35 200; reading_ms 35 300] ++ [reading_ms 35 500]).
Proof.
  apply history_is_the_sliding_window.
  unfold chronological. repeat constructor; simpl; lia.
Defined.

(** X5. Whatever the order of the timestamps, a step only drops
    readings from the front of the window: the history it leaves is a
    suffix of the old history followed by the new reading. *)
Theorem step_keeps_a_suffix_of_the_window (cfg : Settings)
    (m : WeightStateMachine) (r : WeightReading) :
  suffix (_history (fst (process cfg m r))) (_history m ++ [r]).
Proof. rewrite process_history. apply prune_history_suffix. Qed.

(** ** The last-scan register over a run *)

Lemma decisions_snoc cfg rs r :
  decisions cfg (rs ++ [r])
  = decisions cfg rs ++ [snd (process cfg (fst (run cfg init_machine rs)) r)].
Proof.
  unfold decisions. rewrite run_app.
  destruct (run cfg init_machine rs) as [m1 ds1]. simpl.
  destruct (process cfg m1 r). reflexivity.
Qed.

Lemma scanned_snoc cfg rs r :
  scanned cfg (rs ++ [r])
  = scanned cfg rs
    ++ (if scan_requested (snd (process cfg (fst (run cfg init_machine rs)) r))
        then [r] else []).
Proof.
  unfold scanned. rewrite decisions_snoc.
  rewrite zip_with_app by (unfold decisions; by rewrite run_length).
  rewrite List.filter_app, map_app. f_equal. simpl.
  destruct (scan_requested _); reflexivity.
Qed.

Lemma last_scan_at_of_run cfg rs :
  _last_scan_at (fst (run cfg init_machine rs))
  = timestamp <$> last (scanned cfg rs).
Proof.
  induction rs as [|r rs IH] using rev_ind; [reflexivity|].
  rewrite scanned_snoc, run_app.
  destruct (run cfg init_machine rs) as [m1 ds1]. simpl in *.
  pose proof (process_registers cfg m1 r _ _ (surjective_pairing _)) as Hr.
  destruct (process cfg m1 r) as [m2 d]. simpl in *.
  destruct (scan_requested d).
  - destruct Hr as [-> _]. by rewrite last_snoc.
  - destruct Hr as [-> _]. by rewrite app_nil_r.
Qed.

(** X6. After any sequence of readings fed to a fresh machine,
    [_last_scan_at] is the timestamp of the last reading whose decision
    requested a scan, and null when no decision requested one. *)
Theorem last_scan_at_is_the_last_scan (cfg : Settings) (rs : list WeightReading) :
  _last_scan_at (fst (run cfg init_machine rs))
  = timestamp <$> last (scanned cfg rs).
Proof. apply last_scan_at_of_run. Qed.

(** ** More on the detection filters *)

Lemma filter_twice {A} (f : A -> bool) (l : list A) :
  List.filter f (List.filter f l) = List.filter f l.
Proof.
  induction l as [|a l IH]; [reflexivity|]. simpl.
  destruct (f a) eqn:E; simpl; rewrite ?E, IH; reflexivity.
Qed.

Lemma filter_swap {A} (f g : A -> bool) (l : list A) :
  List.filter f (List.filter g l) = List.filter g (List.filter f l).
Proof.
  induction l as [|a l IH]; [reflexivity|]. simpl.
  destruct (f a) eqn:Ef, (g a) eqn:Eg; simpl; rewrite ?Ef, ?Eg, IH; reflexivity.
Qed.

(** X7. Both filters are idempotent: filtering what a filter returned
    returns it unchanged. *)
Theorem filters_are_idempotent (settings : Settings)
    (detections : list FruitDetection) (image_area : Z) (image : string) :
  (exists kept,
     outcome_of (_filter_detections_by_bbox_area settings detections image_area image)
     = Ok kept
     /\ outcome_of (_filter_detections_by_bbox_area settings kept image_area image)
        = Ok kept)
  /\ (exists kept,
        outcome_of (_filter_detections_by_class_threshold settings detections image)
        = Ok kept
        /\ outcome_of (_filter_detections_by_class_threshold settings kept image)
           = Ok kept).
Proof.
  split.
  - destruct (filter_by_bbox_area_spec settings detections image_area image)
      as (tr & -> & _).
    eexists. split; [reflexivity|].
    destruct (filter_by_bbox_area_spec settings
                (List.filter (passes_bbox_area settings image_area) detections)
                image_area image) as (tr' & -> & _).
    cbn [outcome_of snd]. by rewrite filter_twice.
  - destruct (filter_by_class_threshold_spec settings detections image)
      as (tr & -> & _).
    eexists. split; [reflexivity|].
    destruct (filter_by_class_threshold_spec settings
                (List.filter (passes_class_threshold settings) detections) image)
      as (tr' & -> & _).
    cbn [outcome_of snd]. by rewrite filter_twice.
Qed.

(** X8. What the filters keep. The bbox-area filter keeps exactly the
    detections whose box area is at least [image_area] times
    [fruit_detector_min_bbox_area_ratio], both sides as the code
    computes them in doubles: the width and the height are rounded
    differences, the area and the least area rounded products. The
    class filter keeps exactly those whose confidence is at least the
    threshold listed for their class, or at least
    [fruit_detector_confidence_guard] when the class has no entry. A
    value equal to its threshold passes. *)
Theorem filters_keep_exactly (settings : Settings)
    (detections : list FruitDetection) (image_area : Z) (image : string) :
  (exists kept,
     outcome_of (_filter_detections_by_bbox_area settings detections image_area image)
     = Ok kept
     /\ forall d,
          In d kept <->
          In d detections
          /\ (fmul (float_of_int image_area)
                   (fruit_detector_min_bbox_area_ratio settings)
              <= fmul (fsub (x_max (bbox d)) (x_min (bbox d)))
                      (fsub (y_max (bbox d)) (y_min (bbox d))))%Q)
  /\ (exists kept,
        outcome_of (_filter_detections_by_class_threshold settings detections image)
        = Ok kept
        /\ forall d,
             In d kept <->
             In d detections
             /\ match fruit_class_thresholds settings !! fruit_class d with
                | Some threshold => (threshold <= confidence d)%Q
                | None => (fruit_detector_confidence_guard settings
                           <= confidence d)%Q
                end).
Proof.
  split.
  - destruct (filter_by_bbox_area_spec settings detections image_area image)
      as (tr & -> & _).
    eexists. split; [reflexivity|]. intros d. rewrite filter_In.
    unfold passes_bbox_area. by rewrite Qge_bool_iff.
  - destruct (filter_by_class_threshold_spec settings detections image)
      as (tr & -> & _).
    eexists. split; [reflexivity|]. intros d. rewrite filter_In.
    unfold passes_class_threshold. rewrite Qge_bool_iff.
    by destruct (fruit_class_thresholds settings !! fruit_class d).
Qed.

(** X9. The order of the two filters does not matter for what is kept:
    Filter B after Filter A keeps the same list as Filter A after
    Filter B. *)
Theorem filters_commute (settings : Settings)
    (detections : list FruitDetection) (image_area : Z) (image : string) :
  exists after_a after_b kept,
    outcome_of (_filter_detections_by_bbox_area settings detections image_area image)
    = Ok after_a
    /\ outcome_of (_filter_detections_by_class_threshold settings detections image)
       = Ok after_b
    /\ outcome_of (_filter_detections_by_class_threshold settings after_a image)
       = Ok kept
    /\ outcome_of (_filter_detections_by_bbox_area settings after_b image_area image)
       = Ok kept
    /\ kept = filtered_set settings image_area detections.
Proof.
  destruct (filter_by_bbox_area_spec settings detections image_area image)
    as (tr1 & E1 & _).
  destruct (filter_by_class_threshold_spec settings detections image)
    as (tr2 & E2 & _).
  destruct (filter_by_class_threshold_spec settings
              (List.filter (passes_bbox_area settings image_area) detections) image)
    as (tr3 & E3 & _).
  destruct (filter_by_bbox_area_spec settings
              (List.filter (passes_class_threshold settings) detections)
              image_area image) as (tr4 & E4 & _).
  eexists _, _, _. rewrite E1, E2. cbn [outcome_of snd].
  split; [reflexivity|]. split; [reflexivity|]. rewrite E3, E4. cbn [outcome_of snd].
  split; [reflexivity|]. split; [|reflexivity].
  by rewrite filter_swap.
Qed.

Lemma class_threshold_loop_trace settings image detections valid :
  trace_of (class_threshold_loop settings image detections valid)
  = if log_discarded_detections_detail settings
    then map (low_confidence_record settings image)
             (rejected (passes_class_threshold settings) detections)
    else [].
Proof.
  revert valid. induction detections as [|d rest IH]; intros valid.
  - simpl. by destruct (log_discarded_detections_detail settings).
  - cbn [class_threshold_loop rejected List.filter].
    unfold passes_class_threshold at 1.
    destruct (Qge_bool _ _); cbn [negb].
    + apply IH.
    + specialize (IH valid). unfold rejected in IH.
      destruct (log_discarded_detections_detail settings).
      * rewrite trace_bind. cbn [trace_of outcome_of log emit fst snd map app].
        by rewrite IH.
      * exact IH.
Qed.

Lemma bbox_area_loop_trace settings image image_area detections valid :
  trace_of (bbox_area_loop settings image image_area
              (fmul (float_of_int image_area)
                    (fruit_detector_min_bbox_area_ratio settings))
              detections valid)
  = if log_discarded_detections_detail settings
    then map (small_bbox_record settings image image_area)
             (rejected (passes_bbox_area settings image_area) detections)
    else [].
Proof.
  revert valid. induction detections as [|d rest IH]; intros valid.
  - simpl. by destruct (log_discarded_detections_detail settings).
  - cbn [bbox_area_loop rejected List.filter].
    unfold passes_bbox_area at 1. cbv zeta.
    destruct (Qge_bool _ _); cbn [negb].
    + apply IH.
    + specialize (IH valid). unfold rejected in IH.
      destruct (log_discarded_detections_detail settings).
      * rewrite trace_bind. cbn [trace_of outcome_of log emit fst snd map app].
        by rewrite IH.
      * exact IH.
Qed.

(** X10. What the filters log. On an empty input a filter logs nothing
    and returns at once. Otherwise it logs, when
    [log_discarded_detections_detail] is set, one INFO record per dropped
    detection, in the order of the input, and then one DEBUG record with
    the number kept and the number received; with the flag unset, that
    DEBUG record only. *)
Theorem filters_log_exactly (settings : Settings)
    (detections : list FruitDetection) (image_area : Z) (image : string) :
  trace_of (_filter_detections_by_bbox_area settings detections image_area image)
  = match detections with
    | [] => []
    | _ =>
        (if log_discarded_detections_detail settings
         then map (small_bbox_record settings image image_area)
                  (rejected (passes_bbox_area settings image_area) detections)
         else [])
        ++ [Log DEBUG
              (BboxAreaFiltering
                 (length (List.filter (passes_bbox_area settings image_area)
                            detections))
                 (length detections) image)]
    end
  /\ trace_of (_filter_detections_by_class_threshold settings detections image)
     = match detections with
       | [] => []
       | _ =>
           (if log_discarded_detections_detail settings
            then map (low_confidence_record settings image)
                     (rejected (passes_class_threshold settings) detections)
            else [])
           ++ [Log DEBUG
                 (ClassThresholdFiltering
                    (length (List.filter (passes_class_threshold settings)
                               detections))
                    (length detections) image)]
       end.
Proof.
  split.
  - destruct detections as [|d rest]; [reflexivity|].
    unfold _filter_detections_by_bbox_area. cbv zeta.
    pose proof (bbox_area_loop_trace settings image image_area (d :: rest) []) as Ht.
    destruct (bbox_area_loop_spec settings image image_area (d :: rest) [])
      as (tr & E & _).
    rewrite E in Ht |- *. cbn [trace_of fst] in Ht. subst tr.
    reflexivity.
  - destruct detections as [|d rest]; [reflexivity|].
    unfold _filter_detections_by_class_threshold.
    pose proof (class_threshold_loop_trace settings image (d :: rest) []) as Ht.
    destruct (class_threshold_loop_spec settings image (d :: rest) [])
      as (tr & E & _).
    rewrite E in Ht |- *. cbn [trace_of fst] in Ht. subst tr.
    reflexivity.
Qed.

(** ** More on the fallback decision *)

Lemma int_of_float_below (q : Q) (k : Z) :
  0 < k -> (q < inject_Z k)%Q -> int_of_float q < k.
Proof.
  destruct q as [n d]. unfold int_of_float, Qlt, inject_Z. simpl. intros Hk Hlt.
  destruct (Z_le_gt_dec 0 n) as [Hn|Hn].
  - rewrite Z.quot_div_nonneg by lia. apply Z.div_lt_upper_bound; lia.
  - assert (n ÷ Z.pos d <= 0); [|lia].
    rewrite <- (Z.opp_involutive n), Z.quot_opp_l by lia.
    pose proof (Z.quot_pos (- n) (Z.pos d)). lia.
Qed.

Lemma int_of_float_floor_nonneg (q : Q) :
  0 <= Qnum q -> int_of_float q = Qfloor q.
Proof.
  destruct q as [n d]. unfold int_of_float, Qfloor. simpl. intros Hn.
  apply Z.quot_div_nonneg; lia.
Qed.

Lemma int_of_float_ceiling_neg (q : Q) :
  Qnum q <= 0 -> int_of_float q = Qceiling q.
Proof.
  destruct q as [n d]. unfold int_of_float, Qceiling, Qfloor, Qopp. simpl.
  intros Hn. rewrite <- (Z.opp_involutive n) at 1.
  rewrite Z.quot_opp_l by lia. rewrite Z.quot_div_nonneg by lia. reflexivity.
Qed.

Lemma Qfloor_le_ceiling (q : Q) : Qfloor q <= Qceiling q.
Proof.
  pose proof (Qfloor_le q). pose proof (Qle_ceiling q).
  assert (H1 : (inject_Z (Qfloor q) <= inject_Z (Qceiling q))%Q)
    by (eapply Qle_trans; eassumption).
  unfold Qle, inject_Z in H1. simpl in H1. lia.
Qed.

(** Python's [int] on floats is monotone. *)
Lemma int_of_float_mono (p q : Q) : (p <= q)%Q -> int_of_float p <= int_of_float q.
Proof.
  intros Hle.
  destruct (Z_le_gt_dec 0 (Qnum p)) as [Hp|Hp], (Z_le_gt_dec 0 (Qnum q)) as [Hq|Hq].
  - rewrite !int_of_float_floor_nonneg by assumption. by apply Qfloor_resp_le.
  - exfalso. unfold Qle in Hle. nia.
  - rewrite (int_of_float_ceiling_neg p), (int_of_float_floor_nonneg q) by lia.
    assert (Qceiling p <= 0).
    { change 0 with (Qceiling 0). apply Qceiling_resp_le.
      unfold Qle. simpl. lia. }
    assert (0 <= Qfloor q).
    { change 0 with (Qfloor 0). apply Qfloor_resp_le. unfold Qle. simpl. lia. }
    lia.
  - rewrite !int_of_float_ceiling_neg by lia. by apply Qceiling_resp_le.
Qed.

Lemma round_double_2 : (round_double 2 == 2)%Q.
Proof. vm_compute. reflexivity. Qed.

(** X11. Below [min_fruit_weight] only faint detections can call for a
    fallback: the answer is [all_detections_below_confidence_guard] when
    the raw set is non-empty and entirely below the guard, and no reason
    otherwise, whatever the filtered set is. *)
Theorem light_weight_falls_back_on_faint_detections_only (settings : Settings)
    (filtered raw : list FruitDetection) (weight : Q) (image : string) :
  (weight < min_fruit_weight settings)%Q ->
  let faint := raw <> []
               /\ Forall (fun d => (confidence d
                                    < fruit_detector_confidence_guard settings)%Q) raw in
  (faint ->
   outcome_of (_should_fallback settings filtered raw weight image)
   = Ok (Some all_detections_below_confidence_guard))
  /\ (~ faint ->
      outcome_of (_should_fallback settings filtered raw weight image) = Ok None).
Proof.
  intros Hw faint.
  assert (Ew : Qge_bool weight (min_fruit_weight settings) = false).
  { destruct (Qge_bool weight (min_fruit_weight settings)) eqn:E; [|reflexivity].
    apply Qge_bool_iff in E. exfalso. exact (Qlt_not_le _ _ Hw E). }
  assert (H2 : negb (bool_decide (raw = []))
               && forallb (fun d => Qlt_bool (confidence d)
                                      (fruit_detector_confidence_guard settings)) raw
               = true <-> faint).
  { rewrite andb_true_iff, negb_true_iff, bool_decide_eq_false, forallb_below_guard.
    reflexivity. }
  unfold _should_fallback. rewrite Ew. cbn [andb].
  destruct (negb (bool_decide (raw = [])) && forallb _ raw).
  - split; [reflexivity|]. intros Hn. exfalso. apply Hn, H2. reflexivity.
  - split; [|reflexivity]. intros Hf. apply H2 in Hf. discriminate.
Qed.

Lemma light_weight_falls_back_on_faint_detections_only_witness :
  outcome_of (_should_fallback default_settings [] [faint_pear] 10 "img-1")
  = Ok (Some all_detections_below_confidence_guard).
Proof.
  apply (light_weight_falls_back_on_faint_detections_only default_settings
           [] [faint_pear] 10 "img-1").
  - reflexivity.
  - split; [discriminate|]. repeat constructor.
Defined.

(** X12. The count-based reason [expected_more_fruits_by_weight] is
    never given when [fruit_expected_weight_per_fruit] is not positive
    (the division is then skipped), nor when the weight is less than
    twice the expected weight of one fruit: the rounded quotient is
    then at most 2, and an expected count of 2 asks for an empty
    filtered set, which the first condition has already answered. *)
Theorem count_fallback_needs_two_fruits_of_weight (settings : Settings)
    (filtered raw : list FruitDetection) (weight : Q) (image : string) :
  (fruit_expected_weight_per_fruit settings <= 0)%Q
  \/ (weight < 2 * fruit_expected_weight_per_fruit settings)%Q ->
  outcome_of (_should_fallback settings filtered raw weight image)
  <> Ok (Some expected_more_fruits_by_weight).
Proof.
  intros H. unfold _should_fallback.
  destruct (Qge_bool weight (min_fruit_weight settings)) eqn:Eh; cbn [andb].
  2:{ destruct (negb _ && forallb _ raw); discriminate. }
  destruct (bool_decide (filtered = [])) eqn:Ef; [discriminate|].
  destruct (negb (bool_decide (raw = [])) && forallb _ raw); [discriminate|].
  destruct (Qgt_bool (fruit_expected_weight_per_fruit settings) 0) eqn:Ep;
    [|discriminate].
  apply Qgt_bool_iff in Ep.
  destruct H as [H|H]; [exfalso; exact (Qlt_not_le _ _ Ep H)|].
  rewrite outcome_bind. cbn [lift outcome_of snd]. unfold int_checked.
  destruct (is_infinite _); [discriminate|].
  assert (He : int_of_float (fdiv weight (fruit_expected_weight_per_fruit settings))
               <= 2).
  { change 2 with (int_of_float 2). apply int_of_float_mono.
    eapply Qle_trans; [|rewrite <- round_double_2; apply Qle_refl].
    apply round_double_mono, Qlt_le_weak, Qlt_shift_div_r; [exact Ep|exact H]. }
  apply bool_decide_eq_false in Ef.
  assert (Hn : 0 < Z.of_nat (length filtered)) by (destruct filtered; [done|simpl; lia]).
  replace ((2 <=? int_of_float (fdiv weight (fruit_expected_weight_per_fruit settings)))
           && (Z.of_nat (length filtered)
               <? int_of_float (fdiv weight (fruit_expected_weight_per_fruit settings))
                  - 1))
    with false; [discriminate|].
  symmetry. apply andb_false_iff.
  destruct (Z_lt_le_dec
              (int_of_float (fdiv weight (fruit_expected_weight_per_fruit settings))) 2).
  - left. apply Z.leb_gt. lia.
  - right. apply Z.ltb_ge. lia.
Qed.

Lemma count_fallback_needs_two_fruits_of_weight_witness :
  outcome_of (_should_fallback default_settings [apple_1] [apple_1] 199 "img-1")
  <> Ok (Some expected_more_fruits_by_weight).
Proof.
  apply (count_fallback_needs_two_fruits_of_weight default_settings
           [apple_1] [apple_1] 199 "img-1").
  right. vm_compute. reflexivity.
Defined.

(** ** More on the scan pipeline *)

(** X13. One result per session. A scan sends at most one request to
    the UI and at most one to the main server, the latter only when
    [enable_main_server_publish] is set and always after the former with
    the same result. The result carries the session id minted for the
    scan, the image id of the capture, the weight of the reading and the
    time of assembly. *)
Theorem one_result_per_session (settings : Settings) (world : World)
    (reading : WeightReading) :
  publishes (trace_of (execute_scan settings world reading)) = []
  \/ exists r capture,
       publishes (trace_of (execute_scan settings world reading))
       = PublishUI r
         :: (if enable_main_server_publish settings then [PublishMain r] else [])
       /\ capture_image world (resolution_of settings) = Ok capture
       /\ session_id r = uuid4 world
       /\ sr_image_id r = image_id capture
       /\ weight_grams r = grams reading
       /\ sr_timestamp r = now_utc world.
Proof.
  destruct (scan_behaviour_cases settings world reading)
    as [[e He]|(capture & image_bytes & sz & kept & Hreach)].
  - left. by rewrite publishes_key_events, execute_scan_key_events, He.
  - right. eexists _, capture.
    split; [exact (reaches_analysis_publishes _ _ _ _ _ _ _ Hreach)|].
    destruct Hreach as (path & primary & Hc & _). auto.
Qed.

(** X14. Three more failures end a scan without a publish request and
    without an exception leaving [execute_scan]: a capture answer with
    neither path nor URL, an image that cannot be decoded, and a failing
    fallback detection. In the last case the detections of the primary
    call are not published either. *)
Theorem other_fatal_failures_publish_nothing (settings : Settings) (world : World)
    (reading : WeightReading) (e : exn) :
  (exists capture,
     capture_image world (resolution_of settings) = Ok capture
     /\ resolved_path capture = Raise e)
  \/ (exists capture path image_bytes,
        capture_image world (resolution_of settings) = Ok capture
        /\ resolved_path capture = Ok path
        /\ fetch_image_binary world path = Ok image_bytes
        /\ image_open world image_bytes = Raise e)
  \/ (exists capture path image_bytes sz primary reason,
        capture_image world (resolution_of settings) = Ok capture
        /\ resolved_path capture = Ok path
        /\ fetch_image_binary world path = Ok image_bytes
        /\ image_open world image_bytes = Ok sz
        /\ fruit_detect world (image_id capture) image_bytes
             (fruit_detector_primary_imgsz settings) = Ok primary
        /\ outcome_of (_should_fallback settings
                         (filtered_set settings (image_area_of sz) (fruits primary))
                         (fruits primary) (grams reading) (image_id capture))
           = Ok (Some reason)
        /\ fruit_detect world (image_id capture) image_bytes
             (fruit_detector_fallback_imgsz settings) = Raise e) ->
  publishes (trace_of (execute_scan settings world reading)) = []
  /\ outcome_of (execute_scan settings world reading) = Ok tt
  /\ List.filter is_scan_end (trace_of (execute_scan settings world reading))
     = [Log ERROR (ScanFailed (uuid4 world) e)].
Proof.
  intros H.
  assert (Hb : scan_behaviour settings world (uuid4 world) reading = ([], Raise e)).
  { unfold scan_behaviour.
    destruct H as [(capture & Hc & Hr)
                  |[(capture & path & image_bytes & Hc & Hr & Hf & Ho)
                   |(capture & path & image_bytes & sz & primary & reason
                     & Hc & Hr & Hf & Ho & Hp & Hs & Hfb)]].
    - by rewrite Hc, Hr.
    - by rewrite Hc, Hr, Hf, Ho.
    - rewrite Hc, Hr, Hf, Ho, Hp. cbv zeta. by rewrite Hs, Hfb. }
  rewrite publishes_key_events, scan_ends_key_events, execute_scan_key_events, Hb.
  split; [reflexivity|]. split; [apply execute_scan_returns|reflexivity].
Qed.

Lemma other_fatal_failures_publish_nothing_witness :
  publishes (trace_of (execute_scan default_settings fallback_down_world reading_120))
  = []
  /\ outcome_of (execute_scan default_settings fallback_down_world reading_120) = Ok tt
  /\ List.filter is_scan_end
       (trace_of (execute_scan default_settings fallback_down_world reading_120))
     = [Log ERROR (ScanFailed "session-1" (ServiceError "fruit detector unavailable"))].
Proof.
  apply (other_fatal_failures_publish_nothing default_settings fallback_down_world
           reading_120 (ServiceError "fruit detector unavailable")).
  right. right.
  exists sample_capture, "/image/img-1.jpg"%string, [], (128, 128),
    {| fds_image_id := "img-1"; fruits := [faint_pear] |},
    weight_indicates_fruit_but_no_detections.
  repeat split; reflexivity.
Defined.

(** X15. [_analyze_fruits] called without a cropper. With no detection
    it returns the empty list at once: the image is not even decoded.
    With detections it decodes the image first; a decoding failure is
    raised to the caller before any crop, unlike the failures of the
    per-fruit subtasks. *)
Theorem analyze_fruits_without_cropper (world : World) (image_bytes : bytes)
    (detections : list FruitDetection) (image : string) :
  _analyze_fruits world image_bytes [] image None = ([], Ok [])
  /\ (detections <> [] ->
      forall e, image_open world image_bytes = Raise e ->
      _analyze_fruits world image_bytes detections image None
      = ([OpenImage], Raise e))
  /\ (detections <> [] ->
      forall sz, image_open world image_bytes = Ok sz ->
      outcome_of (_analyze_fruits world image_bytes detections image None)
      = Ok (omap (summary_of world image
                    {| cropper_image := image_bytes; size := sz |}) detections)).
Proof.
  split; [reflexivity|]. split.
  - intros Hne e He. destruct detections as [|d ds]; [done|].
    unfold _analyze_fruits, ImageCropper_init, call. rewrite He. reflexivity.
  - intros Hne sz Ho. destruct detections as [|d ds]; [done|].
    pose proof (analyze_fruits_spec world image_bytes (d :: ds) image
                  {| cropper_image := image_bytes; size := sz |}) as [_ Hs].
    rewrite <- Hs. unfold _analyze_fruits, ImageCropper_init, call. rewrite Ho.
    rewrite !outcome_bind. reflexivity.
Qed.

Lemma analyze_fruits_without_cropper_witness :
  _analyze_fruits undecodable_world [] [apple_1] "img-1" None
  = ([OpenImage], Raise (OtherException "cannot identify image file")).
Proof.
  apply (proj1 (proj2 (analyze_fruits_without_cropper undecodable_world []
                         [apple_1] "img-1"))).
  - discriminate.
  - reflexivity.
Defined.

(** ** The capture response *)

(** X16. [resolved_path] prefers the path: a non-empty [image_path] is
    returned whatever the URL is; otherwise a non-empty [image_url] is
    returned; it raises [ValueError] exactly when both are missing or
    empty. *)
Theorem resolved_path_prefers_the_path (c : CameraCaptureResponse) :
  (forall p, image_path c = Some p -> p <> ""%string -> resolved_path c = Ok p)
  /\ (forall u,
        image_path c = None \/ image_path c = Some ""%string ->
        image_url c = Some u -> u <> ""%string -> resolved_path c = Ok u)
  /\ ((exists e, resolved_path c = Raise e) <->
      (image_path c = None \/ image_path c = Some ""%string)
      /\ (image_url c = None \/ image_url c = Some ""%string))
  /\ (forall e, resolved_path c = Raise e ->
        e = ValueError "Camera did not provide image location").
Proof.
  unfold resolved_path, truthy.
  destruct (image_path c) as [[|a p]|], (image_url c) as [[|b u]|];
    repeat split; intros;
    repeat match goal with
           | H : exists _, _ |- _ => destruct H
           | H : _ /\ _ |- _ => destruct H
           | H : _ \/ _ |- _ => destruct H
           end;
    simplify_eq; eauto.
Qed.

Lemma resolved_path_prefers_the_path_witness :
  resolved_path {| image_id := "img-1"; image_url := Some "http://cam/img-1.jpg";
                   image_path := Some "/image/img-1.jpg"; cap_timestamp := 0 |}
  = Ok "/image/img-1.jpg"%string.
Proof.
  apply (proj1 (resolved_path_prefers_the_path
                  {| image_id := "img-1"; image_url := Some "http://cam/img-1.jpg";
                     image_path := Some "/image/img-1.jpg"; cap_timestamp := 0 |})).
  - reflexivity.
  - discriminate.
Defined.

(** ** Bounding boxes *)

(** X17. [_coerce_sequence] turns a sequence of exactly four values
    into the object form, the values becoming [x_min], [y_min], [x_max]
    and [y_max] in that order and nothing else; a sequence of any other
    length raises [ValueError]; an object, a string and any other value
    pass unchanged. Coercing what it returned changes nothing. *)
Theorem coerce_sequence_behaviour {V : Type} (value : raw_value V) :
  (forall items,
     value = RawSeq items -> length items <> 4%nat ->
     _coerce_sequence value
     = Raise (ValueError "BoundingBox sequence must contain four values"))
  /\ (forall a b c d,
        value = RawSeq [a; b; c; d] ->
        exists fields,
          _coerce_sequence value = Ok (RawDict fields)
          /\ fields !! "x_min" = Some a /\ fields !! "y_min" = Some b
          /\ fields !! "x_max" = Some c /\ fields !! "y_max" = Some d
          /\ base.size fields = 4%nat)
  /\ ((forall items, value <> RawSeq items) -> _coerce_sequence value = Ok value)
  /\ (forall coerced,
        _coerce_sequence value = Ok coerced -> _coerce_sequence coerced = Ok coerced).
Proof.
  split; [|split; [|split]].
  - intros items -> Hlen. unfold _coerce_sequence.
    apply Nat.eqb_neq in Hlen. by rewrite Hlen.
  - intros a b c d ->. eexists. split; [reflexivity|].
    repeat split; try reflexivity.
  - intros Hns. destruct value; try reflexivity. by destruct (Hns items).
  - intros coerced. destruct value as [s|fields|items|]; simpl;
      try (by intros [= <-]).
    destruct (length items =? 4)%nat; simpl; [|discriminate].
    destruct items as [|a [|b [|c [|d [|]]]]]; try discriminate.
    by intros [= <-].
Qed.

Lemma coerce_sequence_behaviour_witness :
  _coerce_sequence (RawSeq [1%Q; 2%Q; 3%Q])
  = Raise (ValueError "BoundingBox sequence must contain four values").
Proof.
  apply (proj1 (coerce_sequence_behaviour (RawSeq [1%Q; 2%Q; 3%Q]))
           [1%Q; 2%Q; 3%Q]).
  - reflexivity.
  - simpl. lia.
Defined.

(** X18. The four-element sequence and the object with the same four
    values validate alike, and a box is accepted exactly when [x_min]
    and [y_min] are non-negative and [x_max] and [y_max] are positive:
    the validation does not compare [x_max] with [x_min], nor [y_max]
    with [y_min]. *)
Theorem bounding_box_forms_validate_alike (a b c d : Q) :
  let object_form :=
    RawDict (<["x_min" := a]> (<["y_min" := b]>
              (<["x_max" := c]> (<["y_max" := d]> ∅)))) in
  BoundingBox_validate (RawSeq [a; b; c; d]) = BoundingBox_validate object_form
  /\ ((0 <= a)%Q /\ (0 <= b)%Q /\ (0 < c)%Q /\ (0 < d)%Q ->
      BoundingBox_validate (RawSeq [a; b; c; d])
      = Ok {| x_min := a; y_min := b; x_max := c; y_max := d |})
  /\ (~ ((0 <= a)%Q /\ (0 <= b)%Q /\ (0 < c)%Q /\ (0 < d)%Q) ->
      BoundingBox_validate (RawSeq [a; b; c; d]) = Raise validation_error).
Proof.
  intros object_form. split; [reflexivity|].
  assert (E : BoundingBox_validate (RawSeq [a; b; c; d])
              = if Qle_bool 0 a && Qle_bool 0 b && Qlt_bool 0 c && Qlt_bool 0 d
                then Ok {| x_min := a; y_min := b; x_max := c; y_max := d |}
                else Raise validation_error) by reflexivity.
  rewrite E.
  assert (Hc : Qle_bool 0 a && Qle_bool 0 b && Qlt_bool 0 c && Qlt_bool 0 d = true
               <-> (0 <= a)%Q /\ (0 <= b)%Q /\ (0 < c)%Q /\ (0 < d)%Q).
  { rewrite !andb_true_iff, !Qle_bool_iff, !Qlt_bool_iff. tauto. }
  destruct (Qle_bool 0 a && Qle_bool 0 b && Qlt_bool 0 c && Qlt_bool 0 d).
  - split; [reflexivity|]. intros Hn. exfalso. apply Hn, Hc. reflexivity.
  - split; [|reflexivity]. intros H. apply Hc in H. discriminate.
Qed.

(** A box whose right edge lies left of its left edge validates. *)
Lemma bounding_box_forms_validate_alike_witness :
  BoundingBox_validate (RawSeq [50%Q; 10%Q; 20%Q; 40%Q])
  = Ok {| x_min := 50; y_min := 10; x_max := 20; y_max := 40 |}.
Proof.
  apply (proj1 (proj2 (bounding_box_forms_validate_alike 50 10 20 40))).
  repeat split; vm_compute; solve [reflexivity | discriminate].
Defined.

(** X19. [as_tuple] truncates each coordinate toward zero. For a box
    with non-negative coordinates the four integers are the floors of
    the coordinates and are non-negative; and for any box the integers
    keep the order of the coordinates: [x_min <= x_max] gives a crop
    rectangle whose left edge is not right of its right edge, likewise
    for [y]. *)
Theorem as_tuple_keeps_the_rectangle (b : BoundingBox) :
  let '(x0, y0, x1, y1) := as_tuple b in
  ((0 <= x_min b)%Q -> x0 = Qfloor (x_min b) /\ 0 <= x0)
  /\ ((0 <= y_min b)%Q -> y0 = Qfloor (y_min b) /\ 0 <= y0)
  /\ ((0 <= x_max b)%Q -> x1 = Qfloor (x_max b) /\ 0 <= x1)
  /\ ((0 <= y_max b)%Q -> y1 = Qfloor (y_max b) /\ 0 <= y1)
  /\ ((x_min b <= x_max b)%Q -> x0 <= x1)
  /\ ((y_min b <= y_max b)%Q -> y0 <= y1).
Proof.
  unfold as_tuple.
  assert (Hfloor : forall q, (0 <= q)%Q ->
                     int_of_float q = Qfloor q /\ 0 <= int_of_float q).
  { intros q Hq.
    assert (0 <= Qnum q) by (unfold Qle in Hq; simpl in Hq; lia).
    split; [by apply int_of_float_floor_nonneg|].
    change 0 with (int_of_float 0). by apply int_of_float_mono. }
  split; [exact (Hfloor _)|]. split; [exact (Hfloor _)|].
  split; [exact (Hfloor _)|]. split; [exact (Hfloor _)|].
  split; apply int_of_float_mono.
Qed.

Lemma as_tuple_keeps_the_rectangle_witness :
  fst (fst (fst (as_tuple (bbox sliver)))) <= snd (fst (as_tuple (bbox sliver))).
Proof.
  pose proof (as_tuple_keeps_the_rectangle (bbox sliver)) as H.
  destruct (as_tuple (bbox sliver)) as [[[x0 y0] x1] y1].
  apply H. vm_compute. discriminate.
Defined.

(** ** [crop_all] *)

Lemma crop_each_outcome world cropper boxes crops :
  outcome_of (crop_each world cropper boxes) = Ok crops
  <-> Forall2 (fun b c => image_crop world (cropper_image cropper) (as_tuple b) = Ok c)
              boxes crops.
Proof.
  revert crops. induction boxes as [|b rest IH]; intros crops.
  - simpl. split.
    + intros [= <-]. constructor.
    + intros H. inversion H. reflexivity.
  - cbn [crop_each]. rewrite outcome_bind. unfold crop at 1. cbn [outcome_of call snd].
    destruct (image_crop world (cropper_image cropper) (as_tuple b)) as [c|e] eqn:Ec.
    + rewrite outcome_bind.
      destruct (outcome_of (crop_each world cropper rest)) as [cs|e] eqn:Er.
      * cbn [outcome_of ret snd]. split.
        -- intros [= <-]. constructor; [exact Ec|]. by apply IH.
        -- intros H. inversion H as [|? c' ? cs' Hc Hcs]; subst.
           apply IH in Hcs. congruence.
      * split; [discriminate|]. intros H.
        inversion H as [|? c' ? cs' Hc Hcs]; subst. apply IH in Hcs. discriminate.
    + split; [discriminate|]. intros H.
      inversion H as [|? c' ? cs' Hc Hcs]; subst. congruence.
Qed.

Lemma crop_each_first_failure world cropper pre b post e :
  (forall x, In x pre ->
     exists c, image_crop world (cropper_image cropper) (as_tuple x) = Ok c) ->
  image_crop world (cropper_image cropper) (as_tuple b) = Raise e ->
  crop_each world cropper (pre ++ b :: post)
  = (map (fun x => Crop (as_tuple x)) (pre ++ [b]), Raise e).
Proof.
  intros Hpre Hb. induction pre as [|x pre IH]; cbn [app crop_each map].
  - unfold crop, call, bind. by rewrite Hb.
  - destruct (Hpre x (or_introl eq_refl)) as [c Hc].
    unfold crop at 1. unfold call. rewrite Hc.
    rewrite IH by (intros y Hy; apply Hpre; by right). reflexivity.
Qed.

(** X20. [crop_all] decodes the image first, also for an empty list of
    boxes, and a decoding failure is raised before any crop. With a
    decodable image it returns one crop per box, in the order of the
    boxes, exactly when every crop succeeds; the first crop that fails
    raises its exception and the boxes after it are not cropped. *)
Theorem crop_all_behaviour (world : World) (image_bytes : bytes)
    (boxes : list BoundingBox) :
  (forall e, image_open world image_bytes = Raise e ->
     crop_all world image_bytes boxes = ([OpenImage], Raise e))
  /\ (forall sz crops,
        image_open world image_bytes = Ok sz ->
        outcome_of (crop_all world image_bytes boxes) = Ok crops
        <-> Forall2 (fun b c => image_crop world image_bytes (as_tuple b) = Ok c)
                    boxes crops)
  /\ (forall sz pre b post e,
        image_open world image_bytes = Ok sz ->
        boxes = pre ++ b :: post ->
        (forall x, In x pre ->
           exists c, image_crop world image_bytes (as_tuple x) = Ok c) ->
        image_crop world image_bytes (as_tuple b) = Raise e ->
        crop_all world image_bytes boxes
        = (OpenImage :: map (fun x => Crop (as_tuple x)) (pre ++ [b]), Raise e)).
Proof.
  unfold crop_all, ImageCropper_init, call.
  split; [|split].
  - intros e He. rewrite He. reflexivity.
  - intros sz crops Ho. rewrite Ho, !outcome_bind. cbn [outcome_of ret snd].
    apply (crop_each_outcome world {| cropper_image := image_bytes; size := sz |}).
  - intros sz pre b post e Ho -> Hpre Hb. rewrite Ho.
    unfold bind at 2. unfold ret. unfold bind.
    rewrite (crop_each_first_failure world
               {| cropper_image := image_bytes; size := sz |} pre b post e Hpre Hb).
    reflexivity.
Qed.

Lemma crop_all_behaviour_witness :
  crop_all undecodable_world [] []
  = ([OpenImage], Raise (OtherException "cannot identify image file")).
Proof.
  apply (proj1 (crop_all_behaviour undecodable_world [] [])). reflexivity.
Defined.

(** ** Calls to the fruit detector *)

Lemma detect_calls_app tr1 tr2 :
  detect_calls (tr1 ++ tr2) = detect_calls tr1 ++ detect_calls tr2.
Proof. apply omap_app. Qed.

Lemma detect_calls_bind {A B} (m : M A) (k : A -> M B) :
  detect_calls (trace_of (bind m k))
  = detect_calls (trace_of m)
    ++ match outcome_of m with
       | Ok a => detect_calls (trace_of (k a))
       | Raise _ => []
       end.
Proof.
  rewrite trace_bind, detect_calls_app. by destruct (outcome_of m).
Qed.

Lemma detect_calls_records {A} (f : A -> event) (l : list A) :
  (forall a, detect_calls [f a] = []) -> detect_calls (map f l) = [].
Proof.
  intros Hf. induction l as [|a l IH]; [reflexivity|].
  change (map f (a :: l)) with ([f a] ++ map f l).
  by rewrite detect_calls_app, Hf, IH.
Qed.

Lemma detect_calls_single e :
  detect_calls [e] = match e with FruitDetect _ imgsz => [imgsz] | _ => [] end.
Proof. by destruct e. Qed.

Lemma detect_calls_nil : detect_calls [] = [].
Proof. reflexivity. Qed.

Section DetectorCalls.
Variable settings : Settings.
Variable world : World.

Ltac calls_step :=
  rewrite detect_calls_bind;
  cbn [call lift log emit ret trace_of outcome_of fst snd];
  rewrite ?detect_calls_single, ?detect_calls_nil; cbn [app].

Local Open Scope pipeline_scope.

Lemma bbox_filter_no_detect detections image_area image :
  detect_calls (trace_of (_filter_detections_by_bbox_area settings detections
                            image_area image)) = [].
Proof.
  destruct detections as [|d rest]; [reflexivity|].
  unfold _filter_detections_by_bbox_area. cbv zeta.
  rewrite detect_calls_bind, bbox_area_loop_trace.
  destruct (bbox_area_loop_spec settings image image_area (d :: rest) [])
    as (tr & -> & _). cbn [outcome_of snd].
  rewrite detect_calls_bind. cbn.
  destruct (log_discarded_detections_detail settings); [|reflexivity].
  rewrite detect_calls_records; [reflexivity|]. reflexivity.
Qed.

Lemma class_filter_no_detect detections image :
  detect_calls (trace_of (_filter_detections_by_class_threshold settings detections
                            image)) = [].
Proof.
  destruct detections as [|d rest]; [reflexivity|].
  unfold _filter_detections_by_class_threshold.
  rewrite detect_calls_bind, class_threshold_loop_trace.
  destruct (class_threshold_loop_spec settings image (d :: rest) [])
    as (tr & -> & _). cbn [outcome_of snd].
  rewrite detect_calls_bind. cbn.
  destruct (log_discarded_detections_detail settings); [|reflexivity].
  rewrite detect_calls_records; [reflexivity|]. reflexivity.
Qed.

Lemma should_fallback_no_detect filtered raw weight image :
  detect_calls (trace_of (_should_fallback settings filtered raw weight image)) = [].
Proof.
  unfold _should_fallback.
  repeat match goal with
         | |- context [if ?c then _ else _] => destruct c
         end; try reflexivity.
  rewrite trace_bind. cbn [lift trace_of outcome_of fst snd app].
  destruct (int_checked _) as [n|e]; [|reflexivity].
  destruct (_ && _); reflexivity.
Qed.

Lemma analyze_detection_no_detect image cropper d :
  detect_calls (trace_of (analyze_detection world image cropper d)) = [].
Proof.
  unfold analyze_detection, crop, call.
  destruct (image_crop world (cropper_image cropper) (as_tuple (bbox d)))
    as [crop_bytes|e]; simpl; [|reflexivity].
  destruct (defect_detect world image (fruit_id d) crop_bytes _); reflexivity.
Qed.

Lemma analyze_fruits_no_detect image_bytes ds image cropper :
  detect_calls (trace_of (_analyze_fruits world image_bytes ds image (Some cropper)))
  = [].
Proof.
  destruct ds as [|d ds]; [reflexivity|].
  unfold _analyze_fruits.
  rewrite detect_calls_bind. cbn [ret trace_of outcome_of fst snd].
  rewrite detect_calls_bind.
  assert (Hg : forall l,
    detect_calls (trace_of (gather_return_exceptions
                              (map (analyze_detection world image cropper) l))) = []).
  { induction l as [|x l IH]; [reflexivity|]. cbn [map gather_return_exceptions].
    pose proof (analyze_detection_no_detect image cropper x) as Hx.
    destruct (analyze_detection world image cropper x) as [trx rx].
    destruct (gather_return_exceptions _) as [trl rl]. cbn [trace_of fst] in *.
    by rewrite detect_calls_app, Hx, IH. }
  rewrite Hg. cbn [app].
  destruct (outcome_of (gather_return_exceptions _)) as [finished|e]; [|reflexivity].
  generalize (@nil FruitSummary).
  induction finished as [|[s|e] rest IH]; intros acc; cbn [collect_summaries].
  - reflexivity.
  - apply IH.
  - rewrite detect_calls_bind. cbn. apply IH.
Qed.

Lemma publish_step_no_detect session r n :
  detect_calls
    (trace_of
       (let* publish_tasks :=
          if enable_main_server_publish settings then
            ret [ui_client_publish world r; main_server_client_publish world r]
          else
            log DEBUG (MainPublishDisabled session) ;;
            ret [ui_client_publish world r] in
        gather (publish_settle_order world) publish_tasks ;;
        log INFO (FinishedScan session n)))
  = [].
Proof.
  destruct (enable_main_server_publish settings); cbn; unfold gather; cbn;
    match goal with
    | |- context [first_failure ?o ?l] => destruct (first_failure o l)
    end; reflexivity.
Qed.

(** The detector requests of the [try] block, call by call. *)
Lemma scan_body_detect_calls session reading :
  detect_calls (trace_of (scan_body settings world session reading))
  = match capture_image world (resolution_of settings) with
    | Raise _ => []
    | Ok capture =>
    match resolved_path capture with
    | Raise _ => []
    | Ok path =>
    match fetch_image_binary world path with
    | Raise _ => []
    | Ok image_bytes =>
    match image_open world image_bytes with
    | Raise _ => []
    | Ok sz =>
        fruit_detector_primary_imgsz settings
        :: match fruit_detect world (image_id capture) image_bytes
                   (fruit_detector_primary_imgsz settings) with
           | Raise _ => []
           | Ok primary =>
               match outcome_of (_should_fallback settings
                                   (filtered_set settings (image_area_of sz)
                                      (fruits primary))
                                   (fruits primary) (grams reading)
                                   (image_id capture)) with
               | Ok (Some _) => [fruit_detector_fallback_imgsz settings]
               | _ => []
               end
           end
    end end end end.
Proof.
  unfold scan_body. fold (resolution_of settings).
  calls_step.
  destruct (capture_image world (resolution_of settings)) as [capture|e];
    [|reflexivity].
  calls_step.
  destruct (resolved_path capture) as [path|e]; [|reflexivity].
  calls_step.
  destruct (fetch_image_binary world path) as [image_bytes|e]; [|reflexivity].
  rewrite detect_calls_bind.
  unfold ImageCropper_init at 1 2. unfold call at 1 2.
  destruct (image_open world image_bytes) as [[w h]|e]; [|reflexivity].
  cbn [bind ret trace_of outcome_of fst snd app size].
  rewrite detect_calls_single. cbn [app].
  change (image_area_of (w, h)) with (w * h).
  calls_step. f_equal.
  destruct (fruit_detect world (image_id capture) image_bytes
              (fruit_detector_primary_imgsz settings)) as [primary|e];
    [|reflexivity].
  rewrite detect_calls_bind, bbox_filter_no_detect. cbn [app].
  destruct (filter_by_bbox_area_spec settings (fruits primary) (w * h)
              (image_id capture)) as (trA & EA & _).
  rewrite EA. cbn [outcome_of snd].
  rewrite detect_calls_bind, class_filter_no_detect. cbn [app].
  destruct (filter_by_class_threshold_spec settings
              (List.filter (passes_bbox_area settings (w * h)) (fruits primary))
              (image_id capture)) as (trB & EB & _).
  rewrite EB. cbn [outcome_of snd].
  fold (filtered_set settings (w * h) (fruits primary)).
  rewrite detect_calls_bind, should_fallback_no_detect. cbn [app].
  destruct (outcome_of (_should_fallback settings
                          (filtered_set settings (w * h) (fruits primary))
                          (fruits primary) (grams reading) (image_id capture)))
    as [reason|e]; [|reflexivity].
  set (cropper := {| cropper_image := image_bytes; size := (w, h) |}).
  assert (Hrest : forall kept,
    detect_calls
      (trace_of
         (let* fruits0 :=
            _analyze_fruits world image_bytes kept (image_id capture) (Some cropper) in
          let* publish_tasks :=
            if enable_main_server_publish settings then
              ret [ui_client_publish world
                     (scan_result_of world session reading capture fruits0);
                   main_server_client_publish world
                     (scan_result_of world session reading capture fruits0)]
            else
              log DEBUG (MainPublishDisabled session) ;;
              ret [ui_client_publish world
                     (scan_result_of world session reading capture fruits0)] in
          gather (publish_settle_order world) publish_tasks ;;
          log INFO (FinishedScan session (length fruits0)))) = []).
  { intros kept. rewrite detect_calls_bind, analyze_fruits_no_detect. cbn [app].
    destruct (outcome_of (_analyze_fruits world image_bytes kept (image_id capture)
                            (Some cropper))); [|reflexivity].
    apply publish_step_no_detect. }
  rewrite detect_calls_bind.
  destruct reason as [reason|].
  - match goal with
    | |- detect_calls (trace_of ?m) ++ _ = _ =>
        assert (Hbranch : exists tr,
          m = (tr, match fruit_detect world (image_id capture) image_bytes
                           (fruit_detector_fallback_imgsz settings) with
                   | Ok fallback =>
                       Ok (filtered_set settings (w * h) (fruits fallback))
                   | Raise e => Raise e
                   end)
          /\ detect_calls tr = [fruit_detector_fallback_imgsz settings])
    end.
    { unfold bind at 1. unfold log, emit. unfold bind at 1. unfold call.
      destruct (fruit_detect world (image_id capture) image_bytes
                  (fruit_detector_fallback_imgsz settings)) as [fallback|e];
        [|by eexists].
      pose proof (bbox_filter_no_detect (fruits fallback) (w * h) (image_id capture))
        as HA'.
      destruct (filter_by_bbox_area_spec settings (fruits fallback) (w * h)
                  (image_id capture)) as (trA' & EA' & _).
      pose proof (class_filter_no_detect
                    (List.filter (passes_bbox_area settings (w * h)) (fruits fallback))
                    (image_id capture)) as HB'.
      destruct (filter_by_class_threshold_spec settings
                  (List.filter (passes_bbox_area settings (w * h)) (fruits fallback))
                  (image_id capture)) as (trB' & EB' & _).
      rewrite EA' in HA'. rewrite EB' in HB'. cbn [trace_of fst] in HA', HB'.
      unfold bind. rewrite EA', EB'.
      fold (filtered_set settings (w * h) (fruits fallback)).
      destruct (filtered_set settings (w * h) (fruits fallback));
        cbn; (eexists; split; [reflexivity|]);
        match goal with
        | |- detect_calls (?a :: ?b :: ?l) = _ =>
            change (a :: b :: l) with ([a; b] ++ l)
        end;
        rewrite !detect_calls_app, HA', HB'; reflexivity. }
    destruct Hbranch as (tr & E & Hd). rewrite E.
    cbn [trace_of outcome_of fst snd]. rewrite Hd.
    destruct (fruit_detect world (image_id capture) image_bytes
                (fruit_detector_fallback_imgsz settings)) as [fallback|e];
      [|reflexivity].
    rewrite Hrest. reflexivity.
  - cbn [ret trace_of outcome_of fst snd]. rewrite detect_calls_nil. apply Hrest.
Qed.

End DetectorCalls.

Lemma execute_scan_detect_calls settings world reading :
  detect_calls (trace_of (execute_scan settings world reading))
  = detect_calls (trace_of (scan_body settings world (uuid4 world) reading)).
Proof.
  unfold execute_scan. rewrite detect_calls_bind.
  cbn [log emit trace_of outcome_of fst snd]. rewrite detect_calls_single.
  cbn [app].
  destruct (scan_body settings world (uuid4 world) reading) as [tr [[]|e]];
    cbn [try_except log emit trace_of fst]; [reflexivity|].
  rewrite detect_calls_app, detect_calls_single. apply app_nil_r.
Qed.

(** X21. A scan calls the fruit detector at most twice: first with the
    primary [imgsz], and a second time, with the fallback [imgsz], only
    when the first call answered and [_should_fallback] gave a reason.
    When it gives a reason the second call is always made; when it gives
    none, the first call is the only one. *)
Theorem detector_is_called_at_most_twice (settings : Settings) (world : World)
    (reading : WeightReading) :
  let calls := detect_calls (trace_of (execute_scan settings world reading)) in
  let primary_size := fruit_detector_primary_imgsz settings in
  let fallback_size := fruit_detector_fallback_imgsz settings in
  (calls = [] \/ calls = [primary_size] \/ calls = [primary_size; fallback_size])
  /\ (forall capture path image_bytes sz primary,
        capture_image world (resolution_of settings) = Ok capture ->
        resolved_path capture = Ok path ->
        fetch_image_binary world path = Ok image_bytes ->
        image_open world image_bytes = Ok sz ->
        fruit_detect world (image_id capture) image_bytes primary_size = Ok primary ->
        let answer :=
          outcome_of (_should_fallback settings
                        (filtered_set settings (image_area_of sz) (fruits primary))
                        (fruits primary) (grams reading) (image_id capture)) in
        (forall reason, answer = Ok (Some reason) ->
                        calls = [primary_size; fallback_size])
        /\ (answer = Ok None -> calls = [primary_size]))
  /\ (length calls = 2%nat ->
      exists capture path image_bytes sz primary reason,
        capture_image world (resolution_of settings) = Ok capture
        /\ resolved_path capture = Ok path
        /\ fetch_image_binary world path = Ok image_bytes
        /\ image_open world image_bytes = Ok sz
        /\ fruit_detect world (image_id capture) image_bytes primary_size = Ok primary
        /\ outcome_of (_should_fallback settings
                         (filtered_set settings (image_area_of sz) (fruits primary))
                         (fruits primary) (grams reading) (image_id capture))
           = Ok (Some reason)).
Proof.
  intros calls primary_size fallback_size. subst calls.
  rewrite execute_scan_detect_calls, scan_body_detect_calls.
  fold primary_size. fold fallback_size.
  split; [|split].
  - destruct (capture_image world (resolution_of settings)) as [capture|]; [|auto].
    destruct (resolved_path capture) as [path|]; [|auto].
    destruct (fetch_image_binary world path) as [image_bytes|]; [|auto].
    destruct (image_open world image_bytes) as [sz|]; [|auto].
    destruct (fruit_detect world (image_id capture) image_bytes primary_size)
      as [primary|]; [|auto].
    destruct (outcome_of _) as [[reason|]|]; auto.
  - intros capture path image_bytes sz primary Hc Hr Hf Ho Hp answer.
    rewrite Hc, Hr, Hf, Ho, Hp. fold answer.
    split; [intros reason ->|intros ->]; reflexivity.
  - destruct (capture_image world (resolution_of settings)) as [capture|] eqn:Ec;
      [|discriminate].
    destruct (resolved_path capture) as [path|] eqn:Er; [|discriminate].
    destruct (fetch_image_binary world path) as [image_bytes|] eqn:Ef;
      [|discriminate].
    destruct (image_open world image_bytes) as [sz|] eqn:Eo; [|discriminate].
    destruct (fruit_detect world (image_id capture) image_bytes primary_size)
      as [primary|] eqn:Ep; [|discriminate].
    destruct (outcome_of _) as [[reason|]|] eqn:Es; try discriminate.
    intros _. exists capture, path, image_bytes, sz, primary, reason.
    repeat split; assumption.
Qed.

Lemma detector_is_called_at_most_twice_witness :
  detect_calls (trace_of (execute_scan default_settings fallback_world reading_120))
  = [320; 416].
Proof.
  apply (proj1 (proj1 (proj2 (detector_is_called_at_most_twice default_settings
                                fallback_world reading_120))
                  sample_capture "/image/img-1.jpg"%string [] (128, 128)
                  {| fds_image_id := "img-1"; fruits := [faint_pear] |}
                  eq_refl eq_refl eq_refl eq_refl eq_refl)
           weight_indicates_fruit_but_no_detections).
  reflexivity.
Defined.

(** ** The polling loop *)

Lemma spawned_app evs1 evs2 : spawned (evs1 ++ evs2) = spawned evs1 ++ spawned evs2.
Proof. apply omap_app. Qed.

Lemma poll_iteration_ok cfg polling m reading :
  fst (poll_iteration cfg polling m (Ok reading)) = fst (process cfg m reading)
  /\ spawned (snd (poll_iteration cfg polling m (Ok reading)))
     = if scan_requested (snd (process cfg m reading)) then [reading] else [].
Proof.
  unfold poll_iteration. destruct (process cfg m reading) as [m1 d]. simpl.
  by destruct (scan_requested d).
Qed.

(** Failed polls are skipped: the loop leaves the machine as feeding the
    readings that arrived does, and detaches a scan for exactly those of
    them whose decision requests one. *)
Lemma poll_loop_is_run cfg polling m answers :
  fst (_poll_weight_loop cfg polling m answers)
  = fst (run cfg m (values_of answers))
  /\ spawned (snd (_poll_weight_loop cfg polling m answers))
     = map fst (List.filter (fun p => scan_requested (snd p))
                  (zip (values_of answers) (snd (run cfg m (values_of answers))))).
Proof.
  revert m. induction answers as [|[reading|exc] rest IH]; intros m.
  - split; reflexivity.
  - cbn [_poll_weight_loop values_of run].
    destruct (poll_iteration_ok cfg polling m reading) as [Hm Hs].
    destruct (poll_iteration cfg polling m (Ok reading)) as [m1 evs].
    cbn [fst snd] in Hm, Hs. subst m1.
    destruct (process cfg m reading) as [m1 d]. cbn [fst snd] in *.
    destruct (IH m1) as [IHm IHs].
    destruct (_poll_weight_loop cfg polling m1 rest) as [m2 evs'].
    destruct (run cfg m1 (values_of rest)) as [m3 ds]. cbn [fst snd] in *.
    split; [exact IHm|]. rewrite spawned_app, Hs, IHs.
    cbn [zip_with List.filter snd]. by destruct (scan_requested d).
  - cbn [_poll_weight_loop values_of poll_iteration].
    destruct (IH m) as [IHm IHs].
    destruct (_poll_weight_loop cfg polling m rest) as [m2 evs']. cbn [fst snd] in *.
    split; [exact IHm|]. rewrite spawned_app. exact IHs.
Qed.

(** X22. A failed poll does not disturb the state machine. After any
    sequence of answers of the weight service, the machine of the loop
    stands as if the readings that arrived had been fed to it alone, and
    the scans detached are exactly those readings whose decision
    requested a scan, in order. *)
Theorem failed_polls_are_skipped (cfg : Settings) (polling : PollSettings)
    (answers : list (result WeightReading)) :
  fst (_poll_weight_loop cfg polling init_machine answers)
  = fst (run cfg init_machine (values_of answers))
  /\ spawned (snd (_poll_weight_loop cfg polling init_machine answers))
     = scanned cfg (values_of answers).
Proof. apply poll_loop_is_run. Qed.

Lemma scanned_spaced cfg rs :
  interval_in_range cfg -> spaced cfg (scanned cfg rs).
Proof.
  intros Hrange. induction rs as [|r rs IH] using rev_ind.
  - intros i a b H. destruct i; discriminate.
  - rewrite scanned_snoc.
    pose proof (last_scan_at_of_run cfg rs) as Hlast.
    pose proof (process_registers cfg (fst (run cfg init_machine rs)) r _ _
                  (surjective_pairing _)) as Hr.
    destruct (scan_requested (snd (process cfg (fst (run cfg init_machine rs)) r)));
      [|by rewrite app_nil_r].
    destruct Hr as [_ Hr].
    apply (scan_interval_respected_sound cfg _ _ Hrange) in Hr.
    rewrite Hlast in Hr.
    intros i a b Ha Hb.
    destruct (decide (S i < length (scanned cfg rs))%nat) as [Hlt|Hge].
    + rewrite lookup_app_l in Ha by lia. rewrite lookup_app_l in Hb by lia.
      exact (IH i a b Ha Hb).
    + assert (Hi : S i = length (scanned cfg rs)).
      { apply lookup_lt_Some in Hb. rewrite length_app in Hb. simpl in Hb. lia. }
      rewrite lookup_app_l in Ha by lia.
      rewrite lookup_app_r in Hb by lia.
      replace (S i - length (scanned cfg rs))%nat with 0%nat in Hb by lia.
      injection Hb as <-.
      assert (Hl : last (scanned cfg rs) = Some a).
      { rewrite last_lookup. rewrite <- Hi. exact Ha. }
      rewrite Hl in Hr. exact Hr.
Qed.

(** X23. The scans the polling loop detaches are rate limited. With a
    minimum scan interval below [2^33] seconds, the readings of two
    scans detached one after the other lie at least
    [min_scan_interval_ms] apart, however the polls in between went. *)
Theorem detached_scans_are_spaced (cfg : Settings) (polling : PollSettings)
    (answers : list (result WeightReading)) (i : nat) (a b : WeightReading) :
  interval_in_range cfg ->
  spawned (snd (_poll_weight_loop cfg polling init_machine answers)) !! i = Some a ->
  spawned (snd (_poll_weight_loop cfg polling init_machine answers)) !! S i = Some b ->
  1000 * min_scan_interval_ms cfg <= timestamp b - timestamp a.
Proof.
  intros Hrange.
  destruct (poll_loop_is_run cfg polling init_machine answers) as [_ ->].
  by apply scanned_spaced.
Qed.

Lemma detached_scans_are_spaced_witness :
  1000 * min_scan_interval_ms default_settings
  <= timestamp (reading_ms 62 3300) - timestamp (reading_ms 35 100).
Proof.
  apply (detached_scans_are_spaced default_settings default_poll_settings
           [Ok (reading_ms 35 0); Ok (reading_ms 35 100);
            Raise (ServiceError "weight service unavailable");
            Ok (reading_ms 60 3100); Ok (reading_ms 62 3300)] 0%nat);
    [exact default_interval_in_range|vm_compute; reflexivity..].
Defined.

(** ** The tests of [tests/test_state_machine.py], run on the model *)

Example test_initial_transition_triggers_scan :
  last (decisions stub_settings [reading_ms 35 0; reading_ms 35 100])
  = Some {| d_state := ACTIVE; scan_requested := true;
            transition := IDLE_to_ACTIVE |}.
Proof. vm_compute. reflexivity. Qed.

Example test_significant_delta_requests_new_scan_after_interval :
  scan_requested
    <$> last (decisions stub_settings
                [reading_ms 32 0; reading_ms 33 100;
                 reading_ms 60 3100; reading_ms 62 3300])
  = Some true.
Proof. vm_compute. reflexivity. Qed.

Example test_return_to_idle_when_weight_removed :
  d_state
    <$> last (decisions stub_settings
                [reading_ms 32 0; reading_ms 33 100;
                 reading_ms 0 3500; reading_ms 0 3600])
  = Some IDLE.
Proof. vm_compute. reflexivity. Qed.
